(** * Plex-NFO-Updater: a shallow embedding of [plex-nfo-updater.py]

    The development follows the pipeline of the script: title
    normalisation, candidate scoring ([search_plex_for_media_by_title]),
    the resolution policy ([resolve_plex_item]), the reading of a
    sidecar file ([parse_nfo_to_dict]), the artwork routine
    ([update_plex_item_artwork]) and the diff / update planner with its
    validation pass and its executor ([update_plex_item_fields]).

    Python [str] values are sequences of Unicode code points.  The Unicode
    character database that [str.strip], [str.lower], [str.casefold] and
    [unicodedata] consult is not part of the script; it is taken as a
    parameter (class [UnicodeData]) and a small explicit fragment of it is
    given for concrete evaluation. *)

From Stdlib Require Import List ZArith NArith Bool Lia String Ascii.
From Stdlib Require Import DecimalString Sorted Permutation.
Import ListNotations.
Local Open Scope Z_scope.

Set Implicit Arguments.
Set Warnings "-notation-for-abbreviation".

(* ================================================================== *)
(** * Python strings *)

Module PyStr.

(** A Python [str]: the list of its code points. *)
Definition pystr := list N.

(** An ASCII literal as a Python string. *)
Definition u (s : string) : pystr :=
  map N_of_ascii (list_ascii_of_string s).

Fixpoint eqb (a b : pystr) : bool :=
  match a, b with
  | [], [] => true
  | x :: a', y :: b' => N.eqb x y && eqb a' b'
  | _, _ => false
  end.

(** [s.startswith(p)] *)
Fixpoint startswith (p s : pystr) : bool :=
  match p, s with
  | [], _ => true
  | _ :: _, [] => false
  | x :: p', y :: s' => N.eqb x y && startswith p' s'
  end.

(** [sub in s] *)
Fixpoint contains (sub s : pystr) : bool :=
  startswith sub s ||
  match s with
  | [] => false
  | _ :: s' => contains sub s'
  end.

(** [c in s] for a one-character [c]. *)
Definition has_char (c : N) (s : pystr) : bool := existsb (N.eqb c) s.

(** Python truthiness of a string. *)
Definition truthy (s : pystr) : bool :=
  match s with [] => false | _ => true end.

(** [str(z)] for an [int]. *)
Definition of_Z (z : Z) : pystr := u (NilZero.string_of_int (Z.to_int z)).

(** [x in seen] for a collection of strings. *)
Definition mem (x : pystr) (seen : list pystr) : bool := existsb (eqb x) seen.

End PyStr.
Import PyStr.

(* ================================================================== *)
(** * The Unicode character database *)

(** What the script asks of Python's Unicode tables. *)
Class UnicodeData := {
  isspace   : N -> bool;        (* [str.isspace] of one code point; regex [\s] *)
  decimal   : N -> option Z;    (* regex [\d]; the digit value [int()] reads *)
  nfkd      : pystr -> pystr;   (* [unicodedata.normalize("NFKD", s)] *)
  combining : N -> N;           (* [unicodedata.combining(ch)] *)
  casefold  : pystr -> pystr;   (* [str.casefold] *)
  lower     : pystr -> pystr;   (* [str.lower] *)
}.

Section Strings.
Context `{UnicodeData}.

Fixpoint lstrip (s : pystr) : pystr :=
  match s with
  | [] => []
  | c :: t => if isspace c then lstrip t else s
  end.

Fixpoint rstrip (s : pystr) : pystr :=
  match s with
  | [] => []
  | c :: t =>
      match rstrip t with
      | [] => if isspace c then [] else [c]
      | r => c :: r
      end
  end.

(** [s.strip()] *)
Definition strip (s : pystr) : pystr := rstrip (lstrip s).

(** [_normalize(s)], lines 505-517.  [None] is the absent argument. *)
Definition _normalize (s : option pystr) : pystr :=
  match s with
  | None => []
  | Some s =>
      let s := strip s in
      let s := nfkd s in
      let s := filter (fun ch => N.eqb (combining ch) 0) s in
      casefold s
  end.

(** ** Trailing year, lines 496-502

    [re.search(r'\s*[\-\(\[\{]\s*\d{4}[\)\]\}]?$', raw)] on a stripped
    string: the match, if any, is a suffix.  Read from the end it is an
    optional closing bracket, four digits, white space, one opening
    character and then as much white space as precedes it (the search
    returns the leftmost start). *)

Definition is_open (c : N) : bool :=
  N.eqb c 45 || N.eqb c 40 || N.eqb c 91 || N.eqb c 123.     (* - ( [ { *)
Definition is_close (c : N) : bool :=
  N.eqb c 41 || N.eqb c 93 || N.eqb c 125.                    (* ) ] } *)

(** [int()] of the four digits, given last digit first. *)
Definition four_digits (r : pystr) : option (Z * pystr) :=
  match r with
  | d4 :: d3 :: d2 :: d1 :: rest =>
      match decimal d1, decimal d2, decimal d3, decimal d4 with
      | Some a, Some b, Some c, Some d =>
          Some (1000 * a + 100 * b + 10 * c + d, rest)
      | _, _, _, _ => None
      end
  | _ => None
  end.

(** The match on the reversed string: the year and what precedes the
    match (still reversed). *)
Definition year_suffix (r : pystr) : option (Z * pystr) :=
  let r1 := match r with
            | c :: t => if is_close c then t else r
            | [] => r
            end in
  match four_digits r1 with
  | None => None
  | Some (y, r2) =>
      match lstrip r2 with
      | c :: r3 => if is_open c then Some (y, lstrip r3) else None
      | [] => None
      end
  end.

(** Lines 496-502: the stripped title without its year, and the year. *)
Definition extract_year (media_title_raw : pystr) : pystr * option Z :=
  match year_suffix (rev media_title_raw) with
  | Some (y, before) => (strip (rev before), Some y)
  | None => (media_title_raw, None)
  end.

(** ** Tag splitting: [re.split(r'[,/|;]+', s)] *)

Definition combined_seps : pystr := [47; 44; 124; 59]%N.      (* / , | ; *)

Definition is_sep (c : N) : bool := has_char c combined_seps.

Fixpoint re_split_from (cur : pystr) (in_sep : bool) (s : pystr) : list pystr :=
  match s with
  | [] => [rev cur]
  | c :: t =>
      if is_sep c
      then if in_sep then re_split_from cur true t
           else rev cur :: re_split_from [] true t
      else re_split_from (c :: cur) false t
  end.

Definition re_split (s : pystr) : list pystr := re_split_from [] false s.

End Strings.

(* ================================================================== *)
(** * Catalog items and the candidate scorer *)

(** A Plex object as the scorer reads it through [getattr]/[hasattr]:
    [None] stands for an attribute that is absent or [None].  For
    [ratingKey] the two are told apart, since [_is_child_of_parent]
    tests it with [hasattr]: [None] is the absent attribute and
    [Some None] the attribute that holds [None]. *)
#[warnings="-register-all"]
Inductive PlexItem : Type := mkPlexItem {
  ratingKey            : option (option Z);
  type                 : option pystr;
  title                : option pystr;
  name                 : option pystr;
  year                 : option Z;
  parentRatingKey      : option Z;
  grandparentRatingKey : option Z;
  key                  : option pystr;
  parentTitle          : option pystr;
  grandparentTitle     : option pystr;
  seasons              : option (list PlexItem);   (* [seasons()] *)
  episodes             : option (list PlexItem);   (* [episodes()] *)
  children             : option (list PlexItem);
  obj_str              : pystr                     (* [str(obj)] *)
}.

(** The server: [plex.search(title)], [None] when the call raises. *)
Record PlexServer := { search : pystr -> option (list PlexItem) }.

(** The dictionary [search_plex_for_media_by_title] returns. *)
Record SearchResult := mkSearchResult {
  candidates         : list PlexItem;
  best_match         : option PlexItem;
  best_score         : Z;
  is_confident       : bool;
  nb_excellent_match : Z
}.

(** One tuple of [scored]: (score, idx, cand, norm_cand_title, cand_year_int). *)
Record Scored := mkScored {
  sc_score : Z;
  sc_idx   : nat;
  sc_cand  : PlexItem;
  sc_norm  : pystr;
  sc_year  : option Z
}.

(** Truthiness of optional attributes. *)
Definition truthy_str (o : option pystr) : bool :=
  match o with Some s => truthy s | None => false end.
Definition truthy_int (o : option Z) : bool :=
  match o with Some z => negb (Z.eqb z 0) | None => false end.

(** [a or b or ""] on optional strings. *)
Definition or_str (a b : option pystr) : pystr :=
  match a with
  | Some ((_ :: _) as s) => s
  | _ => match b with Some ((_ :: _) as s) => s | _ => [] end
  end.

(** [hasattr(obj, name)] on an optional attribute. *)
Definition hasattr {A} (o : option A) : bool :=
  match o with Some _ => true | None => false end.

Definition opt_Z_eqb (a b : option Z) : bool :=
  match a, b with
  | Some x, Some y => Z.eqb x y
  | None, None => true
  | _, _ => false
  end.

Definition no_result : SearchResult :=
  mkSearchResult [] None 0 false 0.

(** [list.sort(key=lambda x: (-x[0], x[1]))]: the order of the keys, and a
    stable insertion sort along it. *)
Definition key_leb (a b : Scored) : bool :=
  (sc_score b <? sc_score a) ||
  ((sc_score a =? sc_score b) && (sc_idx a <=? sc_idx b)%nat).

Fixpoint sort_insert (x : Scored) (l : list Scored) : list Scored :=
  match l with
  | [] => [x]
  | y :: l' => if key_leb x y then x :: l else y :: sort_insert x l'
  end.

Fixpoint sort (l : list Scored) : list Scored :=
  match l with
  | [] => []
  | x :: l' => sort_insert x (sort l')
  end.

Section Scorer.
Context `{UnicodeData}.

(** [_is_child_of_parent], lines 526-557. *)
Definition _is_child_of_parent (candidate parent_obj : PlexItem) : bool :=
  match ratingKey parent_obj with
  | Some parent_rk =>
      (* [str(parent_rk)] *)
      let str_parent_rk :=
        match parent_rk with Some k => of_Z k | None => u "None" end in
      if truthy_int (parentRatingKey candidate) &&
         match parentRatingKey candidate with
         | Some k => eqb (of_Z k) str_parent_rk | None => false end
      then true
      else if truthy_int (grandparentRatingKey candidate) &&
         match grandparentRatingKey candidate with
         | Some k => eqb (of_Z k) str_parent_rk | None => false end
      then true
      else if truthy_str (key candidate) &&
         match key candidate with
         | Some cand_key => contains str_parent_rk cand_key | None => false end
      then true
      else if truthy_str (parentTitle candidate) &&
         eqb (_normalize (parentTitle candidate))
             (_normalize (Some (match title parent_obj with Some t => t | None => [] end)))
      then true
      else false
  | None =>
      let parent_str := obj_str parent_obj in
      if truthy_str (parentTitle candidate) &&
         eqb (_normalize (parentTitle candidate)) (_normalize (Some parent_str))
      then true
      else if truthy_str (grandparentTitle candidate) &&
         eqb (_normalize (grandparentTitle candidate)) (_normalize (Some parent_str))
      then true
      else false
  end.

Definition noise_keywords : list pystr :=
  [u "sample"; u "trailer"; u "teaser"; u "promo"; u "deleted scene";
   u "behind the scenes"].

(** The title the loop scores: [title or name or ""]. *)
Definition cand_title_of (cand : PlexItem) : pystr :=
  or_str (title cand) (name cand).

(** [int(cand_year) if cand_year else None] *)
Definition cand_year_int_of (cand : PlexItem) : option Z :=
  if truthy_int (year cand) then year cand else None.

(** Lines 636-638: the [continue] of the media-type filter. *)
Definition filtered_out (media_type : option pystr) (cand : PlexItem) : bool :=
  truthy_str media_type && truthy_str (type cand) &&
  match media_type, type cand with
  | Some mt, Some ct => negb (eqb mt ct)
  | _, _ => false
  end.

(** Lines 645-658: the score before the noise and parent adjustments. *)
Definition base_score (norm_search media_title_raw : pystr)
           (search_year : option Z) (cand : PlexItem) : Z :=
  let cand_title := cand_title_of cand in
  let norm_cand_title := _normalize (Some cand_title) in
  if eqb norm_cand_title norm_search then
    if truthy_int search_year && opt_Z_eqb (cand_year_int_of cand) search_year
    then 100 else 99
  else if contains norm_search norm_cand_title then
    if startswith (lower media_title_raw) (lower cand_title)
    then 20 + 5 else 20
  else 0.

(** Lines 660-667. *)
Definition final_score (norm_search media_title_raw : pystr)
           (search_year : option Z) (parent : option PlexItem)
           (cand : PlexItem) : Z :=
  let score := base_score norm_search media_title_raw search_year cand in
  let lower_cand_title := lower (cand_title_of cand) in
  let score :=
    if existsb (fun k => contains k lower_cand_title) noise_keywords
    then Z.max (score - 50) 1 else score in
  let score :=
    match parent with
    | Some p => if _is_child_of_parent cand p then score + 30 else score
    | None => score
    end in
  Z.max 0 score.

(** The loop of lines 634-672 over [enumerate(candidates_to_score)],
    started at index [idx]. *)
Fixpoint score_from (idx : nat) (media_type : option pystr)
         (norm_search media_title_raw : pystr) (search_year : option Z)
         (parent : option PlexItem) (cands : list PlexItem) : list Scored :=
  match cands with
  | [] => []
  | cand :: rest =>
      let tl := score_from (S idx) media_type norm_search media_title_raw
                           search_year parent rest in
      if filtered_out media_type cand then tl
      else mkScored (final_score norm_search media_title_raw search_year parent cand)
                    idx cand (_normalize (Some (cand_title_of cand)))
                    (cand_year_int_of cand) :: tl
  end.

(** Lines 674-716: sort, best match, count of excellent matches. *)
Definition rank (scored : list Scored) : SearchResult :=
  match sort scored with
  | [] => no_result
  | (best :: _) as sorted =>
      let excellent_matches :=
        filter (fun x => 99 <=? sc_score x) sorted in
      mkSearchResult (map sc_cand sorted) (Some (sc_cand best)) (sc_score best)
                     (99 <=? sc_score best)
                     (Z.of_nat (List.length excellent_matches))
  end.

(** Lines 631-716: scoring and ranking of the collected candidates. *)
Definition score_candidates (media_type : option pystr)
           (norm_search media_title_raw : pystr) (search_year : option Z)
           (parent : option PlexItem) (candidates_to_score : list PlexItem)
  : SearchResult :=
  rank (score_from 0 media_type norm_search media_title_raw search_year
                   parent candidates_to_score).

(** Lines 562-576: does the parent itself answer the query? *)
Definition parent_self_match (norm_search : pystr) (search_year : option Z)
           (parent : PlexItem) : bool :=
  eqb (_normalize (title parent)) norm_search &&
  match search_year with
  | None => true
  | Some y =>
      (* [str(parent_year) == str(year)]; [str(None)] is never a number *)
      match year parent with
      | Some py => eqb (of_Z py) (of_Z y)
      | None => false
      end
  end.

(** Lines 584-607: candidates scoped under the parent. *)
Definition scoped_candidates_of (media_type : option pystr)
           (parent : option PlexItem) : list PlexItem :=
  match parent, media_type with
  | Some p, Some mt =>
      if eqb mt (u "season") && hasattr (seasons p) then
        match seasons p with Some l => l | None => [] end
      else if eqb mt (u "episode") then
        match episodes p, seasons p with
        | Some l, _ => l
        | None, Some ss =>
            flat_map (fun s =>
              match episodes s with
              | Some l => l
              | None => match children s with Some l => l | None => [] end
              end) ss
        | None, None => []
        end
      else []
  | _, _ => []
  end.

(** [search_plex_for_media_by_title], lines 472-716. *)
Definition search_plex_for_media_by_title (plex : PlexServer)
           (media_title : pystr) (media_type : option pystr)
           (parent_plex_item : option PlexItem) : SearchResult :=
  let media_title_raw := strip media_title in
  if negb (truthy media_title_raw) then no_result
  else
    let '(media_title_raw, year) := extract_year media_title_raw in
    let norm_search := _normalize (Some media_title_raw) in
    let parent := parent_plex_item in
    if match parent with
       | Some p => parent_self_match norm_search year p
       | None => false
       end
    then mkSearchResult (match parent with Some p => [p] | None => [] end)
                        parent 100 true 1
    else
      let scoped_candidates := scoped_candidates_of media_type parent in
      match scoped_candidates with
      | _ :: _ =>
          score_candidates media_type norm_search media_title_raw year parent
                           scoped_candidates
      | [] =>
          match search plex media_title_raw with
          | None => no_result
          | Some candidates_to_score =>
              score_candidates media_type norm_search media_title_raw year
                               parent candidates_to_score
          end
      end.

End Scorer.

(* ================================================================== *)
(** * Effects: exceptions, the run statistics, the terminal, the service *)

Inductive Exn := TypeError | ValueError | SystemExit | EOFError | ServiceError.

Inductive result (A : Type) : Type :=
| Ok (a : A)
| Raise (e : Exn).
Arguments Ok {A} a.
Arguments Raise {A} e.

(** One line typed at the prompt, as [prompt_choice] reads it: ['q'], a
    string of digits with its value, a string that [str.isdigit] accepts
    and [int()] does not read (a superscript digit), or anything else. *)
Inductive Line := LQuit | LNumber (n : nat) | LDigitsNoInt | LOther.

(** The calls [update_plex_item_fields] makes: the edits on the resolved
    item and, last, the call of the artwork routine with the path it is
    given ([None] is the default of the parameter [nfo_file]). *)
Inductive Call :=
| batchEdits
| editField (field : string) (value : pystr) (locked : bool)
| editTags (tag : string) (items : list pystr) (remove locked : bool)
| saveEdits
| reload
| update_plex_item_artwork (nfo_file : option pystr).

(** The global [STATS], the lines waiting on standard input and the
    calls issued so far. *)
Record World := mkWorld {
  stats_skipped               : list pystr;
  stats_updated               : list pystr;
  stats_failed                : list pystr;
  stats_skipped_missing_field : list pystr;
  stdin                       : list Line;
  calls                       : list Call
}.

Definition skip (msg : pystr) (w : World) : World :=
  mkWorld (stats_skipped w ++ [msg]) (stats_updated w) (stats_failed w)
          (stats_skipped_missing_field w) (stdin w) (calls w).
Definition updated (msg : pystr) (w : World) : World :=
  mkWorld (stats_skipped w) (stats_updated w ++ [msg]) (stats_failed w)
          (stats_skipped_missing_field w) (stdin w) (calls w).
Definition failed (msg : pystr) (w : World) : World :=
  mkWorld (stats_skipped w) (stats_updated w) (stats_failed w ++ [msg])
          (stats_skipped_missing_field w) (stdin w) (calls w).
Definition missing_field (msg : pystr) (w : World) : World :=
  mkWorld (stats_skipped w) (stats_updated w) (stats_failed w)
          (stats_skipped_missing_field w ++ [msg]) (stdin w) (calls w).
Definition set_stdin (l : list Line) (w : World) : World :=
  mkWorld (stats_skipped w) (stats_updated w) (stats_failed w)
          (stats_skipped_missing_field w) l (calls w).
Definition record_call (c : Call) (w : World) : World :=
  mkWorld (stats_skipped w) (stats_updated w) (stats_failed w)
          (stats_skipped_missing_field w) (stdin w) (calls w ++ [c]).

(** Computations that read and change the world and may raise. *)
Definition M (A : Type) : Type := World -> result A * World.

Definition ret {A} (a : A) : M A := fun w => (Ok a, w).
Definition raise {A} (e : Exn) : M A := fun w => (Raise e, w).
Definition bind {A B} (c : M A) (k : A -> M B) : M B :=
  fun w => match c w with
           | (Ok a, w') => k a w'
           | (Raise e, w') => (Raise e, w')
           end.
Definition modify (f : World -> World) : M unit := fun w => (Ok tt, f w).

Declare Scope py_scope.
Delimit Scope py_scope with py.
Notation "x <- c ;; k" := (bind c (fun x => k))
  (at level 61, c at next level, right associativity) : py_scope.
Notation "c ;; k" := (bind c (fun _ => k))
  (at level 61, right associativity) : py_scope.

(** [len(x)] of an [int]: Python raises [TypeError]. *)
Definition len_int (x : Z) : result Z := Raise TypeError.

Definition lift {A} (r : result A) : M A := fun w => (r, w).

(* ================================================================== *)
(** * The resolution policy *)

(** [prompt_choice], lines 345-367, on the lines of standard input;
    [input()] raises [EOFError] when none is left, and [int(s)] raises
    [ValueError] on digits it does not read. *)
Fixpoint read_choice (n_choices : Z) (lines : list Line) : result Z * list Line :=
  match lines with
  | [] => (Raise EOFError, [])
  | LQuit :: rest => (Raise SystemExit, rest)
  | LNumber n :: rest =>
      let idx := Z.of_nat n - 1 in
      if (0 <=? idx) && (idx <? n_choices) then (Ok idx, rest)
      else read_choice n_choices rest
  | LDigitsNoInt :: rest => (Raise ValueError, rest)
  | LOther :: rest => read_choice n_choices rest
  end.

Definition prompt_choice (choices : list pystr) : M Z :=
  fun w =>
    let '(r, rest) := read_choice (Z.of_nat (List.length choices)) (stdin w) in
    (r, set_stdin rest w).

(** [choose_plex_item], lines 720-751. *)
Definition choose_plex_item (candidates : list PlexItem) : M (option PlexItem) :=
  match candidates with
  | [] => ret None
  | [c] => ret (Some c)
  | _ =>
      let display :=
        map (fun c => match title c with Some t => t | None => obj_str c end)
            candidates
        ++ [u "Skip (do not select any match)"] in
      (idx <- prompt_choice display ;;
       if idx =? Z.of_nat (List.length display) - 1 then ret None
       else ret (nth_error candidates (Z.to_nat idx)))%py
  end.

Section Resolution.
Context `{UnicodeData}.

(** [resolve_plex_item], lines 397-467. *)
Definition resolve_plex_item (plex : PlexServer) (media_title : pystr)
           (media_type : option pystr) (automatic_mode : bool)
           (parent_plex_item : option PlexItem) : M (option PlexItem) :=
  let results :=
    search_plex_for_media_by_title plex media_title media_type parent_plex_item in
  match candidates results with
  | [] =>
      (modify (skip (media_title ++ u ": No candidate found.")) ;;
       ret None)%py
  | _ :: _ =>
      if automatic_mode then
        if is_confident results && (nb_excellent_match results =? 1) then
          ret (best_match results)
        else if 1 <? nb_excellent_match results then
          ret None
        else
          ret None
      else
        if is_confident results && (nb_excellent_match results =? 1) then
          ret (best_match results)
        else if 1 <? nb_excellent_match results then
          (plex_item <- choose_plex_item
                          (firstn (Z.to_nat (nb_excellent_match results))
                                  (candidates results)) ;;
           match plex_item with
           | Some _ => ret plex_item
           | None =>
               modify (skip (media_title ++ u ": User did not select any match.")) ;;
               ret None
           end)%py
        else
          (n <- lift (len_int (nb_excellent_match results)) ;;
           if n =? 1 then
             ret (nth_error (candidates results) 0)
           else
             plex_item <- choose_plex_item (candidates results) ;;
             match plex_item with
             | Some _ => ret plex_item
             | None =>
                 modify (skip (media_title ++
                   u ": No confident match and user did not select any match.")) ;;
                 ret None
             end)%py
  end.

End Resolution.

(* ================================================================== *)
(** * Sidecar records and the catalog entity the planner reads *)

(** A value of the dictionary [parse_nfo_to_dict] builds. *)
#[warnings="-register-all"]
Inductive NfoValue : Type :=
| VNone
| VStr (s : pystr)
| VDict (d : list (string * NfoValue))
| VList (l : list NfoValue).

(** One element of a Plex tag collection: a plain string, or a tag
    object with optional [tag] and [name] attributes. *)
Inductive TagItem :=
| TagStr (s : pystr)
| TagObj (tag name : option pystr).

(** The value of an attribute of the Plex item. *)
Inductive PyVal :=
| PNone
| PStr (s : pystr)
| PInt (z : Z)
| PTags (l : list TagItem)
| PObj (is_true : bool) (shown : pystr).   (* any other object: truthiness, [str()] *)

(** The item as [update_plex_item_fields] probes it: [attr n] is [None]
    when the attribute is absent (the sentinel of the validation pass);
    [isLocked f] is [None] when the query raises. *)
Record Entity := mkEntity {
  attr     : string -> option PyVal;
  isLocked : string -> option bool
}.

(** Python's [str()] of the values that are not strings. *)
Class PyShow := {
  repr_nfo  : NfoValue -> pystr;
  repr_tags : list TagItem -> pystr
}.

Inductive UpdateOp :=
| FieldOp (rest_field : string) (value old_value : pystr)
| TagOp (rest_field : string) (new existing : list pystr).

Definition op_rest_field (op : UpdateOp) : string :=
  match op with
  | FieldOp f _ _ => f
  | TagOp f _ _ => f
  end.

(** The run configuration (globals set from the command line). *)
Record Config := mkConfig {
  ALLOW_UNLOCK      : bool;
  DRY_RUN           : bool;
  ALWAYS_UPDATE_ART : bool
}.

(** [SUPPORTED_FIELD_MAP], lines 135-162: key, [rest_field], [is_tag]. *)
Definition SUPPORTED_FIELD_MAP : list (string * (string * bool)) :=
  [ ("title",         ("title",                 false));
    ("originaltitle", ("originalTitle",         false));
    ("plot",          ("summary",               false));
    ("summary",       ("summary",               false));
    ("overview",      ("summary",               false));
    ("studio",        ("studio",                false));
    ("premiered",     ("originallyAvailableAt", false));
    ("year",          ("year",                  false));
    ("mpaa",          ("contentRating",         false));
    ("contentrating", ("contentRating",         false));
    ("rating",        ("rating",                false));
    ("genres",        ("genres",                true));
    ("genre",         ("genres",                true));
    ("country",       ("countries",             true));
    ("countries",     ("countries",             true));
    ("directors",     ("directors",             true));
    ("director",      ("directors",             true));
    ("writers",       ("writers",               true));
    ("writer",        ("writers",               true));
    ("actors",        ("actors",                true));
    ("actor",         ("actors",                true)) ]%string.

(** [d.get(k)] on a dictionary kept in insertion order. *)
Fixpoint dict_get {V} (k : string) (d : list (string * V)) : option V :=
  match d with
  | [] => None
  | (k', v) :: d' => if String.eqb k k' then Some v else dict_get k d'
  end.

(** Python truthiness. *)
Definition nfo_truthy (v : NfoValue) : bool :=
  match v with
  | VNone => false
  | VStr s => truthy s
  | VDict d => match d with [] => false | _ => true end
  | VList l => match l with [] => false | _ => true end
  end.

Definition val_truthy (v : PyVal) : bool :=
  match v with
  | PNone => false
  | PStr s => truthy s
  | PInt z => negb (z =? 0)
  | PTags l => match l with [] => false | _ => true end
  | PObj b _ => b
  end.

(** [rest.rstrip('s')] on an attribute name. *)
Fixpoint drop_s (r : list ascii) : list ascii :=
  match r with
  | c :: t => if Ascii.eqb c "s"%char then drop_s t else r
  | [] => []
  end.

Definition rstrip_s (rest : string) : string :=
  string_of_list_ascii (rev (drop_s (rev (list_ascii_of_string rest)))).

(** [l[i:i+5] for i in range(0, len(l), 5)] ([MAX_TAG_BATCH = 5]). *)
Fixpoint chunks5 {A} (l : list A) : list (list A) :=
  match l with
  | [] => []
  | a :: b :: c :: d :: e :: rest => [a; b; c; d; e] :: chunks5 rest
  | _ => [l]
  end.

Section Planner.
Context `{UnicodeData} `{PyShow}.

Definition str_of_nfo (v : NfoValue) : pystr :=
  match v with
  | VStr s => s
  | VNone => u "None"
  | _ => repr_nfo v
  end.

Definition str_of_val (v : PyVal) : pystr :=
  match v with
  | PNone => u "None"
  | PStr s => s
  | PInt z => of_Z z
  | PTags l => repr_tags l
  | PObj _ shown => shown
  end.

(** [add_tag(name)], lines 873-881: the tokens it appends. *)
Definition add_tag (name : NfoValue) : list pystr :=
  if negb (nfo_truthy name) then []
  else
    let clean := strip (str_of_nfo name) in
    if truthy clean then [clean] else [].

(** [d.get("tag") or d.get("name")] *)
Definition tag_or_name (d : list (string * NfoValue)) : NfoValue :=
  match dict_get "tag" d with
  | Some v => if nfo_truthy v then v
              else match dict_get "name" d with Some n => n | None => VNone end
  | None => match dict_get "name" d with Some n => n | None => VNone end
  end.

(** Lines 887-907: the raw tokens of a tag field, [tag_names]. *)
Definition tag_names_of (nfo_value : NfoValue) : list pystr :=
  match nfo_value with
  | VStr s => flat_map (fun part => add_tag (VStr part)) (re_split s)
  | VDict d => add_tag (tag_or_name d)
  | VList l =>
      flat_map (fun item =>
        match item with
        | VStr s => flat_map (fun part => add_tag (VStr part)) (re_split s)
        | VDict d => add_tag (tag_or_name d)
        | _ => []
        end) l
  | VNone => []
  end.

(** Lines 909-923: drop duplicates (compared in lower case), keep order.
    [seen] is the set of lowered tags met so far. *)
Fixpoint unique_from (seen : list pystr) (tags : list pystr) : list pystr :=
  match tags with
  | [] => []
  | tag :: rest =>
      let clean := strip tag in
      if negb (truthy clean) then unique_from seen rest
      else
        let lowered := lower clean in
        if negb (mem lowered seen)
        then clean :: unique_from (lowered :: seen) rest
        else unique_from seen rest
  end.

Definition unique_tags_of (tag_names : list pystr) : list pystr :=
  unique_from [] tag_names.

(** Lines 929-946: the names of the tags the item carries.  Iterating
    over a true value that is not iterable raises [TypeError]. *)
Definition iter_attr (v : option PyVal) : result (list TagItem) :=
  match v with
  | None => Ok []
  | Some v =>
      if negb (val_truthy v) then Ok []
      else match v with
           | PTags l => Ok l
           | PStr s => Ok (map (fun c => TagStr [c]) s)
           | _ => Raise TypeError
           end
  end.

Definition existing_name (t : TagItem) : list pystr :=
  match t with
  | TagStr s =>
      let candidate := strip s in
      if truthy candidate then [candidate] else []
  | TagObj tag name =>
      let tagname := or_str tag name in
      if truthy tagname then
        let candidate := strip tagname in
        if truthy candidate then [candidate] else []
      else []
  end.

(** Lines 948-959. *)
Fixpoint clean_existing_from (seen_tmp : list pystr) (tags : list pystr)
  : list pystr :=
  match tags with
  | [] => []
  | t :: rest =>
      let tl := lower t in
      if negb (mem tl seen_tmp)
      then t :: clean_existing_from (tl :: seen_tmp) rest
      else clean_existing_from seen_tmp rest
  end.

(** Lines 963-972: drop the tags that still hold a separator. *)
Definition refined_tags_of (unique_tags : list pystr) : list pystr :=
  filter (fun tag => negb (existsb (fun sep => has_char sep tag) combined_seps))
         unique_tags.

(** Lines 869-982: the operations planned for one tag field. *)
Definition plan_tag (plex_item : Entity) (rest_field : string)
           (nfo_value : NfoValue) : result (list UpdateOp) :=
  let unique_tags := unique_tags_of (tag_names_of nfo_value) in
  match unique_tags with
  | [] => Ok []
  | _ :: _ =>
      match iter_attr (attr plex_item rest_field) with
      | Raise e => Raise e
      | Ok plex_attr =>
          let existing_tags :=
            clean_existing_from [] (flat_map existing_name plex_attr) in
          let refined_tags := refined_tags_of unique_tags in
          match refined_tags with
          | [] => Ok []
          | _ :: _ => Ok [TagOp rest_field refined_tags existing_tags]
          end
      end
  end.

(** Lines 984-1014: the operations planned for one scalar field. *)
Definition plan_field (cfg : Config) (plex_item : Entity) (rest_field : string)
           (nfo_value : NfoValue) : list UpdateOp :=
  let new_value := strip (str_of_nfo nfo_value) in
  let current_value :=
    match attr plex_item rest_field with
    | Some v => if val_truthy v then strip (str_of_val v) else strip []
    | None => strip []
    end in
  if eqb new_value current_value then []
  else
    let locked := match isLocked plex_item rest_field with
                  | Some b => b | None => false end in
    if locked && negb (ALLOW_UNLOCK cfg) then []
    else [FieldOp rest_field new_value current_value].

(** Lines 858-1014: the body of the loop, for one entry of the record. *)
Definition plan_entry (cfg : Config) (plex_item : Entity)
           (nfo_key : string) (nfo_value : NfoValue) : result (list UpdateOp) :=
  match dict_get nfo_key SUPPORTED_FIELD_MAP with
  | None => Ok []
  | Some (rest_field, is_tag) =>
      if negb (nfo_truthy nfo_value) then Ok []
      else if is_tag then plan_tag plex_item rest_field nfo_value
      else Ok (plan_field cfg plex_item rest_field nfo_value)
  end.

(** Lines 857-1014: the loop over [nfo_data.items()]. *)
Fixpoint plan (cfg : Config) (plex_item : Entity)
         (nfo_data : list (string * NfoValue)) : result (list UpdateOp) :=
  match nfo_data with
  | [] => Ok []
  | (nfo_key, nfo_value) :: rest =>
      match plan_entry cfg plex_item nfo_key nfo_value with
      | Raise e => Raise e
      | Ok ops =>
          match plan cfg plex_item rest with
          | Raise e => Raise e
          | Ok ops' => Ok (ops ++ ops')
          end
      end
  end.

End Planner.

(* ================================================================== *)
(** * The Artwork Matcher: [update_plex_item_artwork] *)

Module Artwork.

(** [ALLOW_ART_EXT], line 82. *)
Definition ALLOW_ART_EXT : list string :=
  ["mp3"; "m4a"; "jpg"; "jpeg"; "png"; "tbn"]%string.

(** [artwork_map], lines 1217-1224, in insertion order: keyword, upload
    method, lock field. *)
Definition artwork_map : list (string * (string * string)) :=
  [ ("poster",     ("uploadPoster", "thumb"));
    ("fanart",     ("uploadArt",    "art"));
    ("backdrop",   ("uploadArt",    "art"));
    ("background", ("uploadArt",    "art"));
    ("art",        ("uploadArt",    "art"));
    ("theme",      ("uploadTheme",  "theme")) ]%string.

(** One entry of [found_files]. *)
Record ArtFile := mkArtFile {
  filename   : pystr;
  fullpath   : pystr;
  method     : string;
  lock_field : string
}.

(** The functions of [os.path] the matcher uses, and the files present. *)
Record OsPath := {
  basename : pystr -> pystr;
  splitext : pystr -> pystr * pystr;
  dirname  : pystr -> pystr;
  join     : pystr -> pystr -> pystr;
  isfile   : pystr -> bool
}.

(** The calls made on the item. *)
Inductive ArtCall :=
| unlock (lock_field : string)            (* [edit] setting the field's locked flag to 0 *)
| reload
| upload (method : string) (fullpath : pystr)
| refresh.

(** The item as the matcher sees it.  The answers may depend on the
    calls made so far (a field unlocked earlier is no longer locked). *)
Record ArtItem := {
  item_title : pystr;                               (* its title, as shown *)
  has_method : string -> bool;                      (* [callable(getattr(item, m, None))] *)
  isLocked   : list ArtCall -> string -> option bool;   (* [None]: the query raises *)
  raises     : list ArtCall -> ArtCall -> bool
}.

(** [STATS] and the calls issued so far. *)
Definition ArtState : Type := World * list ArtCall.

(** Issue a call: it is recorded; [true] when it returns. *)
Definition issue (item : ArtItem) (c : ArtCall) (st : ArtState) : bool * ArtState :=
  let '(w, log) := st in
  (negb (raises item log c), (w, log ++ [c])).

Definition nonempty (s : string) : bool :=
  match s with EmptyString => false | _ => true end.

Section Matcher.
Context `{UnicodeData}.

(** Lines 1236-1250: the upload method and lock field of a sibling file. *)
Definition classify (lower_stem ext : pystr) : option (string * string) :=
  match find (fun entry => contains (u (fst entry)) lower_stem) artwork_map with
  | Some (_, (upload_method, field_name)) => Some (upload_method, field_name)
  | None =>
      if existsb (fun e => eqb ext (u e)) ["jpg"; "jpeg"; "png"; "webp"]%string
      then Some ("uploadPoster", "thumb")%string
      else None
  end.

(** Lines 1212-1259.  [allowed_exts] is the set of line 1227 in the
    order in which the loop visits it. *)
Definition found_files_of (os : OsPath) (allowed_exts : list pystr)
           (file_path : pystr) : list ArtFile :=
  let base_name := basename os file_path in
  let base_stem := fst (splitext os base_name) in
  let dir_path := dirname os file_path in
  flat_map
    (fun ext =>
       let candidate := join os dir_path (base_stem ++ u "." ++ ext) in
       if isfile os candidate then
         match classify (lower base_stem) ext with
         | Some (method, lock_field) =>
             if nonempty method
             then [mkArtFile (basename os candidate) candidate method lock_field]
             else []
         | None => []
         end
       else [])
    allowed_exts.

(** Lines 1284-1311: the lock of the field.  [inl] goes on to the
    upload, [inr] to the next file. *)
Definition prepare_field (cfg : Config) (item : ArtItem) (art_file : ArtFile)
           (st : ArtState) : ArtState + ArtState :=
  let '(w, log) := st in
  if nonempty (lock_field art_file) then
    let is_locked :=
      match isLocked item log (lock_field art_file) with
      | Some b => b
      | None => false
      end in
    if is_locked then
      if ALLOW_UNLOCK cfg then
        let unlock_failed (st : ArtState) : ArtState :=
          (failed (item_title item ++ u ": Unlock failed for "
                   ++ u (lock_field art_file) ++ u " (" ++ filename art_file ++ u ").")
                  (fst st), snd st) in
        let '(ok, st1) := issue item (unlock (lock_field art_file)) st in
        if ok then
          let '(ok, st2) := issue item reload st1 in
          if ok then inl st2 else inr (unlock_failed st2)
        else inr (unlock_failed st1)
      else
        inr (skip (item_title item ++ u ": Artwork upload skipped, field locked ("
                   ++ filename art_file ++ u ").") w, log)
    else inl st
  else inl st.

(** Lines 1313-1334: the upload. *)
Definition perform_upload (cfg : Config) (item : ArtItem) (art_file : ArtFile)
           (st : ArtState) : ArtState :=
  if DRY_RUN cfg then st
  else
    let '(ok, st1) :=
      issue item (upload (method art_file) (fullpath art_file)) st in
    if ok then
      let st2 : ArtState :=
        (updated (item_title item ++ u ": Uploaded '" ++ filename art_file
                  ++ u "' (" ++ u (method art_file) ++ u ")") (fst st1), snd st1) in
      let '(ok, st3) := issue item refresh st2 in
      if ok then snd (issue item reload st3) else st3
    else
      (failed (item_title item ++ u ": Artwork upload failed ("
               ++ filename art_file ++ u ").") (fst st1), snd st1).

(** Lines 1268-1334: one file of [found_files]. *)
Definition upload_art_file (cfg : Config) (item : ArtItem) (art_file : ArtFile)
           (st : ArtState) : ArtState :=
  if negb (has_method item (method art_file)) then
    (skip (item_title item ++ u ": Method '" ++ u (method art_file)
           ++ u "' not found (" ++ filename art_file ++ u ").") (fst st), snd st)
  else
    match prepare_field cfg item art_file st with
    | inl st1 => perform_upload cfg item art_file st1
    | inr st1 => st1
    end.

(** [update_plex_item_artwork], lines 1199-1334. *)
Definition update_plex_item_artwork (ALLOW_ART_UPDATE : bool) (cfg : Config)
           (os : OsPath) (allowed_exts : list pystr) (item : ArtItem)
           (file_path : pystr) (st : ArtState) : ArtState :=
  if negb ALLOW_ART_UPDATE then st
  else
    fold_left (fun st art_file => upload_art_file cfg item art_file st)
              (found_files_of os allowed_exts file_path) st.

End Matcher.

(** The number of entries of [STATS] under updated, skipped and failed. *)
Definition outcomes (w : World) : nat :=
  (List.length (stats_updated w) + List.length (stats_skipped w)
   + List.length (stats_failed w))%nat.

Definition is_upload (c : ArtCall) : bool :=
  match c with upload _ _ => true | _ => false end.

Definition is_unlock (c : ArtCall) : bool :=
  match c with unlock _ => true | _ => false end.

(** A directory in which every candidate file exists, with paths kept
    as plain strings, for concrete evaluation. *)
Definition everything_exists : OsPath :=
  {| basename := fun p => p;
     splitext := fun p => (p, []);
     dirname := fun _ => [];
     join := fun d f => d ++ f;
     isfile := fun _ => true |}.

(** An item with every upload method, whose fields are all locked until
    unlocked, and whose calls never raise. *)
Definition locked_item : ArtItem :=
  {| item_title := u "Alien";
     has_method := fun _ => true;
     isLocked := fun log f =>
       Some (negb (existsb (fun c => match c with
                                     | unlock f' => String.eqb f f'
                                     | _ => false
                                     end) log));
     raises := fun _ _ => false |}.

End Artwork.

(* ================================================================== *)
(** * Validation and execution: [update_plex_item_fields] *)

(** Which of the edits the catalog service answers with an exception. *)
Record Service := { raises : Call -> bool }.

(** The artwork side of a run: the switch [ALLOW_ART_UPDATE]; [os.path]
    with the files present; the extensions of [ALLOW_ART_EXT] in the
    order in which the loop of line 1231 visits them; and the item as
    the artwork routine finds it (once edits are saved and the item is
    reloaded, its title and its locks need not be those the planner
    read). *)
Record ArtEnv := mkArtEnv {
  ALLOW_ART_UPDATE : bool;
  os_path          : Artwork.OsPath;
  art_exts         : list pystr;
  art_item         : Artwork.ArtItem
}.

(** Issue one call: it is recorded, then it returns or raises. *)
Definition call (svc : Service) (c : Call) : M unit :=
  fun w =>
    let w' := record_call c w in
    if raises svc c then (Raise ServiceError, w') else (Ok tt, w').

(** How control leaves the [try] block of [update_plex_item_fields]:
    by its [return], at its end, or through [except Exception]; the last
    two carry the flag [edits_applied]. *)
Inductive Outcome :=
| Returned
| Completed (edits_applied : bool)
| Excepted (edits_applied : bool).

Section Update.
Context `{UnicodeData} `{PyShow}.

(** [getattr(plex_item, "title", "Unknown Item")] as the f-strings show it. *)
Definition item_title_of (plex_item : Entity) : pystr :=
  match attr plex_item "title" with
  | Some v => str_of_val v
  | None => u "Unknown Item"
  end.

(** Lines 1021-1055: the validation pass.  Returns the validated
    operations and records every drop. *)
Fixpoint validate (plex_item : Entity) (planned_ops : list UpdateOp)
  : M (list UpdateOp) :=
  match planned_ops with
  | [] => ret []
  | op :: ops =>
      let rest := op_rest_field op in
      match op with
      | FieldOp _ _ _ =>
          match attr plex_item rest with
          | None =>
              (modify (missing_field
                 (item_title_of plex_item ++ u ": Missing field '" ++ u rest ++ u "'")) ;;
               validate plex_item ops)%py
          | Some _ =>
              (validated_ops <- validate plex_item ops ;;
               ret (op :: validated_ops))%py
          end
      | TagOp _ _ _ =>
          match attr plex_item rest with
          | None =>
              match attr plex_item (rstrip_s rest) with
              | None =>
                  (modify (missing_field
                     (item_title_of plex_item ++ u ": Missing tag collection '"
                      ++ u rest ++ u "'")) ;;
                   validate plex_item ops)%py
              | Some _ =>
                  (validated_ops <- validate plex_item ops ;;
                   ret (op :: validated_ops))%py
              end
          | Some _ =>
              (validated_ops <- validate plex_item ops ;;
               ret (op :: validated_ops))%py
          end
      end
  end.

(** Lines 1110-1165: the calls one operation makes. *)
Definition op_calls (cfg : Config) (op : UpdateOp) : list Call :=
  match op with
  | FieldOp rest_field value _ =>
      [editField rest_field value (ALLOW_UNLOCK cfg)]
  | TagOp rest_field refined_tags existing_tags =>
      let existing_lower := map lower existing_tags in
      if ALLOW_UNLOCK cfg then
        map (fun items => editTags rest_field items true true)
            (chunks5 existing_tags)
        ++ map (fun items => editTags rest_field items false true)
               (chunks5 refined_tags)
      else
        let tags_to_add :=
          filter (fun t => negb (mem (lower t) existing_lower)) refined_tags in
        map (fun items => editTags rest_field items false true)
            (chunks5 tags_to_add)
  end.

(** Issue calls in order until one raises. *)
Fixpoint run_calls (svc : Service) (cs : list Call) : M unit :=
  match cs with
  | [] => ret tt
  | c :: cs' => (call svc c ;; run_calls svc cs')%py
  end.

(** A call of [update_plex_item_artwork(plex_item, nfo_file)], lines
    1068, 1087 and 1195: the call is recorded and the routine of lines
    1199-1334 runs on [STATS] and on the item.  With [nfo_file] left at
    its default [None], [os.path.basename] raises [TypeError] at line
    1212, unless artwork updates are disabled and the routine has
    returned before.  The calls the routine makes on the item are all
    guarded by a [try], so nothing else leaves it. *)
Definition call_artwork (cfg : Config) (env : ArtEnv) (nfo_file : option pystr)
  : Artwork.ArtState -> result unit * Artwork.ArtState :=
  fun st =>
    let st := (record_call (update_plex_item_artwork nfo_file) (fst st), snd st) in
    match nfo_file with
    | Some file_path =>
        (Ok tt,
         Artwork.update_plex_item_artwork (ALLOW_ART_UPDATE env) cfg (os_path env)
                                          (art_exts env) (art_item env)
                                          file_path st)
    | None =>
        if ALLOW_ART_UPDATE env then (Raise TypeError, st) else (Ok tt, st)
    end.

(** The [try] block, lines 851-1186.  ([time.sleep] changes nothing
    that is modelled and is left out.) *)
Definition try_block (cfg : Config) (svc : Service) (env : ArtEnv)
           (plex_item : Entity) (nfo_data : list (string * NfoValue))
           (nfo_file : option pystr)
  : Artwork.ArtState -> Outcome * Artwork.ArtState :=
  fun st =>
    let '(w, log) := st in
    let item_title := item_title_of plex_item in
    match plan cfg plex_item nfo_data with
    | Raise _ => (Excepted false, st)
    | Ok planned_ops =>
        match validate plex_item planned_ops w with
        | (Raise _, w1) => (Excepted false, (w1, log))
        | (Ok planned_ops, w1) =>
            match planned_ops with
            | [] =>
                let w2 := skip (item_title ++ u ": No metadata changes required.") w1 in
                if ALWAYS_UPDATE_ART cfg then
                  match call_artwork cfg env nfo_file (w2, log) with
                  | (Raise _, st3) => (Excepted false, st3)
                  | (Ok _, st3) => (Returned, st3)
                  end
                else (Returned, (w2, log))
            | _ :: _ =>
                if DRY_RUN cfg then
                  let w2 := skip (item_title ++ u ": Dry-run is activated.") w1 in
                  match call_artwork cfg env nfo_file (w2, log) with
                  | (Raise _, st3) => (Excepted false, st3)
                  | (Ok _, st3) => (Returned, st3)
                  end
                else
                  match run_calls svc
                          ([batchEdits] ++ flat_map (op_calls cfg) planned_ops
                           ++ [saveEdits]) w1 with
                  | (Raise _, w2) => (Excepted false, (w2, log))
                  | (Ok _, w2) =>
                      (* edits_applied = True *)
                      let w3 := updated item_title w2 in
                      match call svc reload w3 with
                      | (Raise _, w4) => (Excepted true, (w4, log))
                      | (Ok _, w4) => (Completed true, (w4, log))
                      end
                  end
            end
        end
    end.

(** [update_plex_item_fields], lines 837-1195, on [STATS] with the edits
    issued and on the calls the artwork routine has made on the item. *)
Definition update_plex_item_fields (cfg : Config) (svc : Service) (env : ArtEnv)
           (plex_item : Entity) (nfo_data : list (string * NfoValue))
           (nfo_file : option pystr)
  : Artwork.ArtState -> result unit * Artwork.ArtState :=
  fun st =>
    let item_title := item_title_of plex_item in
    let finally (edits_applied : bool) (st : Artwork.ArtState) :=
      if edits_applied || ALWAYS_UPDATE_ART cfg
      then call_artwork cfg env nfo_file st
      else (Ok tt, st) in
    match try_block cfg svc env plex_item nfo_data nfo_file st with
    | (Returned, st1) => (Ok tt, st1)
    | (Completed edits_applied, st1) => finally edits_applied st1
    | (Excepted edits_applied, st1) =>
        finally edits_applied
                (failed (item_title ++ u ": Error while updating.") (fst st1),
                 snd st1)
    end.

End Update.

(* ================================================================== *)
(** * A fragment of the Unicode tables

    The entries of Python's tables for the ASCII range and for U+0085,
    U+00A0 (no-break space), U+00A8 (diaeresis), U+00C9, U+00E9 (E and e
    with acute), U+0301 and U+0308 (combining acute and diaeresis).
    Other code points are left unchanged and are outside the fragment. *)

Module Fragment.

Definition isspace (c : N) : bool :=
  ((9 <=? c) && (c <=? 13))%N || ((28 <=? c) && (c <=? 32))%N ||
  N.eqb c 133 || N.eqb c 160.

Definition decimal (c : N) : option Z :=
  if ((48 <=? c) && (c <=? 57))%N then Some (Z.of_N c - 48) else None.

(** Compatibility decomposition of one code point. *)
Definition nfkd_char (c : N) : pystr :=
  (if N.eqb c 160 then [32]
   else if N.eqb c 168 then [32; 776]
   else if N.eqb c 201 then [69; 769]
   else if N.eqb c 233 then [101; 769]
   else [c])%N.

(** Both marks of the fragment have class 230, so no reordering occurs. *)
Definition nfkd (s : pystr) : pystr := flat_map nfkd_char s.

Definition combining (c : N) : N :=
  if N.eqb c 769 || N.eqb c 776 then 230%N else 0%N.

Definition lower_char (c : N) : N :=
  if ((65 <=? c) && (c <=? 90))%N then (c + 32)%N
  else if N.eqb c 201 then 233%N
  else c.

Definition lower (s : pystr) : pystr := map lower_char s.

(** The code points the fragment decomposes, and its combining marks. *)
Definition composed (c : N) : bool :=
  N.eqb c 160 || N.eqb c 168 || N.eqb c 201 || N.eqb c 233.

Definition mark (c : N) : bool := N.eqb c 769 || N.eqb c 776.

(** On the fragment [casefold] and [lower] agree. *)
Definition ucd : UnicodeData :=
  Build_UnicodeData isspace decimal nfkd combining lower lower.

(** A rendering of non-string values, for evaluation on records whose
    values are strings (it is then never consulted). *)
Definition show : PyShow :=
  Build_PyShow (fun _ => u "<object>") (fun _ => u "<list>").

End Fragment.

(* ================================================================== *)
(** * Specification-side definitions used in the statements *)

(** [out] keeps some elements of [l], in the order of [l]. *)
Inductive subseq {A} : list A -> list A -> Prop :=
| subseq_nil : subseq [] []
| subseq_skip x out l : subseq out l -> subseq out (x :: l)
| subseq_keep x out l : subseq out l -> subseq (x :: out) (x :: l).

(** The string is empty or starts with a character that is no space. *)
Definition clean_front `{UnicodeData} (s : pystr) : Prop :=
  match s with [] => True | c :: _ => isspace c = false end.

(** [t] occurs in [tokens] and no earlier token has its lower-case form. *)
Definition first_seen `{UnicodeData} (t : pystr) (tokens : list pystr) : Prop :=
  exists pre post, tokens = pre ++ t :: post /\ ~ In (lower t) (map lower pre).

(** The order of the sort keys, as a proposition. *)
Definition key_le (a b : Scored) : Prop := key_leb a b = true.

(** The order [scored.sort] is meant to produce: higher score first, and
    among equal scores the earlier index first. *)
Definition ranked_before (a b : Scored) : Prop :=
  sc_score a > sc_score b \/ (sc_score a = sc_score b /\ (sc_idx a < sc_idx b)%nat).

(** Does the item expose the attribute an operation targets?  For a tag
    operation the plural collection or, failing that, its singular. *)
Definition exposes (plex_item : Entity) (op : UpdateOp) : bool :=
  match op with
  | FieldOp f _ _ => hasattr (attr plex_item f)
  | TagOp f _ _ =>
      hasattr (attr plex_item f) || hasattr (attr plex_item (rstrip_s f))
  end.

(** The entry of [STATS["skipped_missing_field"]] recorded when an
    operation is dropped. *)
Definition drop_message `{PyShow} (plex_item : Entity) (op : UpdateOp) : pystr :=
  match op with
  | FieldOp f _ _ =>
      item_title_of plex_item ++ u ": Missing field '" ++ u f ++ u "'"
  | TagOp f _ _ =>
      item_title_of plex_item ++ u ": Missing tag collection '" ++ u f ++ u "'"
  end.

(** The world after the listed messages have been recorded as missing fields. *)
Definition record_missing (msgs : list pystr) (w : World) : World :=
  fold_left (fun w msg => missing_field msg w) msgs w.

(** [s] without its combining marks, line 515. *)
Definition unmarked `{UnicodeData} (s : pystr) : pystr :=
  filter (fun ch => N.eqb (combining ch) 0) s.

(** The state after [n] successive calls of the artwork routine. *)
Fixpoint after_artwork `{UnicodeData} (cfg : Config) (env : ArtEnv)
         (nfo_file : option pystr) (n : nat) (st : Artwork.ArtState)
  : Artwork.ArtState :=
  match n with
  | O => st
  | S n => snd (call_artwork cfg env nfo_file (after_artwork cfg env nfo_file n st))
  end.

(** [singular] is [plural] without its trailing 's' characters. *)
Definition without_trailing_s (plural singular : string) : Prop :=
  (exists k, list_ascii_of_string plural
             = list_ascii_of_string singular ++ repeat "s"%char k)
  /\ forall pre, list_ascii_of_string singular <> pre ++ ["s"%char].

(** An empty world, for concrete evaluation. *)
Definition empty_world : World := mkWorld [] [] [] [] [] [].

(** A catalog item with a title, a year and a kind, and nothing else. *)
Definition item_titled (t : string) (y : option Z) (kind : option string) : PlexItem :=
  mkPlexItem None (option_map u kind) (Some (u t)) None y
             None None None None None None None None (u t).

(** A server whose search answers every query with [found]. *)
Definition server_with (found : list PlexItem) : PlexServer :=
  {| search := fun _ => Some found |}.

(** An item exposing exactly the listed attributes, none of them locked. *)
Definition entity_with (attrs : list (string * PyVal)) : Entity :=
  mkEntity (fun n => dict_get n attrs) (fun _ => Some false).

(* ================================================================== *)
(** * Reading a sidecar file: [parse_nfo_to_dict] and [get_media_type_from_nfo] *)

(** An element of the parsed XML tree: its tag, its text ([None] when
    the element has none) and its children in document order. *)
#[warnings="-register-all"]
Inductive Element : Type := mkElement {
  el_tag      : pystr;
  el_text     : option pystr;
  el_children : list Element
}.

(** What [os.path.exists] and [ET.parse] make of the path. *)
Inductive NfoFile :=
| Missing                       (* the path does not exist *)
| Malformed                     (* [ET.parse] raises *)
| Document (root : Element).

(** [tag_map] of [get_media_type_from_nfo], lines 820-825. *)
Definition tag_map : list (string * list string) :=
  [ ("movie",   ["movie"; "moviedetail"; "moviedetails"]);
    ("show",    ["show"; "showdetail"; "showdetails"; "tvshow"; "serie"; "tvserie"]);
    ("season",  ["season"; "seasondetail"; "seasondetails"]);
    ("episode", ["episode"; "episodedetail"; "episodedetails"]) ]%string.

(** The store [result[tag] = ...] of lines 783-789 and 799-804: a second
    value under a key turns the entry into a list, later ones are
    appended; a new key goes to the end. *)
Fixpoint dict_collect (tag : string) (value : NfoValue)
         (result : list (string * NfoValue)) : list (string * NfoValue) :=
  match result with
  | [] => [(tag, value)]
  | (k, v) :: rest =>
      if String.eqb tag k then
        (k, match v with
            | VList l => VList (l ++ [value])
            | _ => VList [v; value]
            end) :: rest
      else (k, v) :: dict_collect tag value rest
  end.

(** [d[k] = v] *)
Fixpoint dict_set {V} (k : string) (v : V) (d : list (string * V))
  : list (string * V) :=
  match d with
  | [] => [(k, v)]
  | (k', v') :: rest =>
      if String.eqb k k' then (k', v) :: rest else (k', v') :: dict_set k v rest
  end.

(** [d.setdefault(k, v)] *)
Definition dict_setdefault {V} (k : string) (v : V) (d : list (string * V))
  : list (string * V) :=
  match dict_get k d with
  | Some _ => d
  | None => d ++ [(k, v)]
  end.

Section Parser.
Context `{UnicodeData}.

(** The key of the record that a Python string denotes (the literal keys
    of the script are written as Rocq strings). *)
Variable key_of : pystr -> string.

(** [element_to_value], lines 770-791. *)
Fixpoint element_to_value (elem : Element) : NfoValue :=
  match elem with
  | mkElement _ text [] =>
      match text with
      | Some ((_ :: _) as t) => VStr (strip t)
      | _ => VNone
      end
  | mkElement _ _ children =>
      VDict (fold_left
               (fun result child =>
                  dict_collect (key_of (lower (el_tag child)))
                               (element_to_value child) result)
               children [])
  end.

(** Lines 794-810, for the root of a parsed document. *)
Definition flatten_root (root : Element) : list (string * NfoValue) :=
  let data :=
    fold_left
      (fun data child =>
         dict_collect (key_of (lower (el_tag child))) (element_to_value child) data)
      (el_children root) [] in
  let data := dict_set "root_tag" (VStr (lower (el_tag root))) data in
  dict_setdefault "title" (VStr []) data.

(** [parse_nfo_to_dict], lines 755-812; [None] when [ET.parse] raises. *)
Definition parse_nfo_to_dict (file : NfoFile) : option (list (string * NfoValue)) :=
  match file with
  | Missing => Some []
  | Malformed => None
  | Document root => Some (flatten_root root)
  end.

(** Lines 829-833: the first media type whose aliases hold the root tag,
    the empty string when there is none. *)
Definition media_type_of_tag (root_tag : pystr) : pystr :=
  match find (fun entry => existsb (fun alias => eqb root_tag (u alias)) (snd entry))
             tag_map with
  | Some (media_type, _) => u media_type
  | None => []
  end.

(** [get_media_type_from_nfo], lines 815-833; [None] when the value under
    "root_tag" is not a string ([.lower()] raises). *)
Definition get_media_type_from_nfo (nfo_data : list (string * NfoValue))
  : option pystr :=
  match dict_get "root_tag" nfo_data with
  | None => Some (media_type_of_tag (lower []))
  | Some (VStr s) => Some (media_type_of_tag (lower s))
  | Some _ => None
  end.

End Parser.

(** The key of an ASCII string, for concrete evaluation. *)
Definition ascii_key (s : pystr) : string :=
  string_of_list_ascii (map ascii_of_N s).

(** The values stored under [k] by the children of an element, in
    document order. *)
Definition values_under `{UnicodeData} (key_of : pystr -> string) (k : string)
           (children : list Element) : list NfoValue :=
  map (element_to_value key_of)
      (filter (fun child => String.eqb k (key_of (lower (el_tag child)))) children).

(** One value stays as it is; several become a list. *)
Definition collapse (values : list NfoValue) : option NfoValue :=
  match values with
  | [] => None
  | [v] => Some v
  | _ => Some (VList values)
  end.

(* ================================================================== *)
(** * Further specification-side definitions *)

(** A line [prompt_choice] answers with "Invalid choice" when
    [n_choices] entries are shown. *)
Definition rejected_line (n_choices : Z) (l : Line) : bool :=
  match l with
  | LQuit => false
  | LNumber n => negb ((0 <=? Z.of_nat n - 1) && (Z.of_nat n - 1 <? n_choices))
  | LDigitsNoInt => false
  | LOther => true
  end.

(* ================================================================== *)
(** * Facts about strings *)

Lemma eqb_eq (a b : pystr) : eqb a b = true <-> a = b.
Proof.
  revert b; induction a as [|x a IH]; intros [|y b]; simpl; split;
    try discriminate; try reflexivity.
  - intros E. apply andb_true_iff in E as [E1 E2].
    apply N.eqb_eq in E1. apply IH in E2. now subst.
  - intros E. injection E as -> ->. now rewrite N.eqb_refl, (proj2 (IH b)).
Qed.

Lemma eqb_refl (a : pystr) : eqb a a = true.
Proof. now apply eqb_eq. Qed.

Lemma eqb_neq (a b : pystr) : eqb a b = false <-> a <> b.
Proof.
  split.
  - intros E ->. now rewrite eqb_refl in E.
  - intros N. destruct (eqb a b) eqn:E; [|reflexivity].
    now apply eqb_eq in E.
Qed.

Lemma mem_In (x : pystr) (l : list pystr) : mem x l = true <-> In x l.
Proof.
  unfold mem. rewrite existsb_exists. split.
  - intros (y & Hy & E). apply eqb_eq in E. now subst.
  - intros Hx. exists x. split; [assumption | apply eqb_refl].
Qed.

Lemma mem_not_In (x : pystr) (l : list pystr) : mem x l = false <-> ~ In x l.
Proof.
  rewrite <- mem_In. destruct (mem x l); split; congruence.
Qed.

Section StripFacts.
Context `{UnicodeData}.

Lemma lstrip_clean_front s : clean_front (lstrip s).
Proof.
  induction s as [|c s IH]; simpl; [exact I|].
  destruct (isspace c) eqn:E; [assumption | simpl; assumption].
Qed.

Lemma lstrip_of_clean_front s : clean_front s -> lstrip s = s.
Proof. destruct s as [|c s]; simpl; [reflexivity|]. now intros ->. Qed.

Lemma rstrip_clean_front s : clean_front s -> clean_front (rstrip s).
Proof.
  destruct s as [|c s]; simpl; [trivial|]. intros E.
  destruct (rstrip s); rewrite ?E; simpl; assumption.
Qed.

Lemma rstrip_idem s : rstrip (rstrip s) = rstrip s.
Proof.
  induction s as [|c s IH]; simpl; [reflexivity|].
  destruct (rstrip s) as [|d r] eqn:E.
  - destruct (isspace c) eqn:Ec; simpl; [reflexivity | now rewrite Ec].
  - change (rstrip (c :: d :: r) = c :: d :: r).
    change (rstrip (c :: d :: r))
      with (match rstrip (d :: r) with
            | [] => if isspace c then [] else [c]
            | r' => c :: r'
            end).
    now rewrite IH.
Qed.

Lemma strip_idem s : strip (strip s) = strip s.
Proof.
  unfold strip.
  rewrite (lstrip_of_clean_front (rstrip (lstrip s))).
  - apply rstrip_idem.
  - apply rstrip_clean_front, lstrip_clean_front.
Qed.

Lemma lstrip_map (f : N -> N) s :
  (forall c, isspace (f c) = isspace c) ->
  lstrip (map f s) = map f (lstrip s).
Proof.
  intros Hf. induction s as [|c s IH]; simpl; [reflexivity|].
  rewrite Hf. now destruct (isspace c).
Qed.

Lemma rstrip_map (f : N -> N) s :
  (forall c, isspace (f c) = isspace c) ->
  rstrip (map f s) = map f (rstrip s).
Proof.
  intros Hf. induction s as [|c s IH]; simpl; [reflexivity|].
  rewrite IH, Hf. destruct (rstrip s); simpl; [|reflexivity].
  now destruct (isspace c).
Qed.

Lemma strip_map (f : N -> N) s :
  (forall c, isspace (f c) = isspace c) ->
  strip (map f s) = map f (strip s).
Proof.
  intros Hf. unfold strip. now rewrite lstrip_map, rstrip_map.
Qed.

Lemma lstrip_Forall (P : N -> Prop) s : Forall P s -> Forall P (lstrip s).
Proof.
  induction 1 as [|c s Hc Hs IH]; simpl; [constructor|].
  destruct (isspace c); [assumption | now constructor].
Qed.

Lemma rstrip_Forall (P : N -> Prop) s : Forall P s -> Forall P (rstrip s).
Proof.
  induction 1 as [|c s Hc Hs IH]; simpl; [constructor|].
  destruct (rstrip s).
  - destruct (isspace c); [constructor | now constructor].
  - now constructor.
Qed.

Lemma strip_Forall (P : N -> Prop) s : Forall P s -> Forall P (strip s).
Proof. intros F. now apply rstrip_Forall, lstrip_Forall. Qed.

End StripFacts.

(* ================================================================== *)
(** * Title normalisation *)

Lemma filter_fixed {A} (f : A -> bool) (l : list A) :
  filter f l = l <-> forallb f l = true.
Proof.
split.
- intros <-. apply forallb_filter.
- induction l as [|a l IH]; simpl; [reflexivity|].
  intros E. apply andb_true_iff in E as [-> E]. now rewrite IH.
Qed.

Module NormalizeFacts.

(** ** The tables of the fragment *)

Lemma lower_char_idem c : Fragment.lower_char (Fragment.lower_char c) = Fragment.lower_char c.
Proof.
  unfold Fragment.lower_char.
  destruct ((65 <=? c) && (c <=? 90))%N eqn:E.
  - apply andb_true_iff in E as [E1 E2].
    apply N.leb_le in E1, E2.
    destruct (N.leb_spec 65 (c + 32)); destruct (N.leb_spec (c + 32) 90);
      simpl; try lia.
    all: destruct (N.eqb_spec (c + 32) 201); try reflexivity; lia.
  - destruct (c =? 201)%N eqn:E2; [reflexivity|].
    now rewrite E, E2.
Qed.

Lemma nfkd_char_plain c :
  forallb (fun d => negb (Fragment.composed d)) (Fragment.nfkd_char c) = true.
Proof.
unfold Fragment.nfkd_char, Fragment.composed.
repeat match goal with
       | |- context [N.eqb c ?b] => destruct (N.eqb_spec c b); [reflexivity|]
       end.
simpl. rewrite andb_true_r.
repeat match goal with
       | |- context [N.eqb c ?b] => destruct (N.eqb_spec c b); [contradiction|]
       end.
reflexivity.
Qed.

Lemma nfkd_plain s :
  forallb (fun d => negb (Fragment.composed d)) (Fragment.nfkd s) = true.
Proof.
unfold Fragment.nfkd. induction s as [|c s IH]; [reflexivity|].
simpl. now rewrite forallb_app, nfkd_char_plain, IH.
Qed.

Lemma nfkd_of_plain s :
  forallb (fun d => negb (Fragment.composed d)) s = true -> Fragment.nfkd s = s.
Proof.
unfold Fragment.nfkd. induction s as [|c s IH]; [reflexivity|].
simpl. intros E. apply andb_true_iff in E as [Ec E]. rewrite (IH E).
unfold Fragment.composed in Ec. unfold Fragment.nfkd_char.
repeat match goal with
       | |- context [N.eqb c ?b] =>
           destruct (N.eqb_spec c b); [subst; discriminate|]
       end.
reflexivity.
Qed.

Lemma lower_char_plain c :
  Fragment.composed c = false -> Fragment.mark c = false ->
  Fragment.composed (Fragment.lower_char c) = false /\ Fragment.mark (Fragment.lower_char c) = false.
Proof.
unfold Fragment.composed, Fragment.mark, Fragment.lower_char. intros C M.
destruct ((65 <=? c) && (c <=? 90))%N eqn:E.
- apply andb_true_iff in E as [E1 E2]. apply N.leb_le in E1, E2.
  split;
    repeat match goal with
           | |- context [N.eqb ?a ?b] => destruct (N.eqb_spec a b); [lia|]
           end; reflexivity.
- destruct (N.eqb_spec c 201) as [K|K].
  + subst c. vm_compute in C. discriminate C.
  + rewrite (proj2 (N.eqb_neq c 201) K). now split.
Qed.

(** NFKD leaves alone what is left of a decomposed text without its marks. *)
Lemma fragment_nfkd_unmarked (x : pystr) :
  @nfkd Fragment.ucd (@unmarked Fragment.ucd (@nfkd Fragment.ucd x))
  = @unmarked Fragment.ucd (@nfkd Fragment.ucd x).
Proof.
change (@nfkd Fragment.ucd) with Fragment.nfkd. unfold unmarked.
apply nfkd_of_plain.
apply forallb_forall. intros c Hc. apply filter_In in Hc as [Hc _].
exact (proj1 (forallb_forall _ _) (nfkd_plain x) c Hc).
Qed.

(** Case folding a decomposed text without marks brings back neither. *)
Lemma fragment_casefold_decomposed (x : pystr) :
  @nfkd Fragment.ucd x = x -> @unmarked Fragment.ucd x = x ->
  @nfkd Fragment.ucd (@casefold Fragment.ucd x) = @casefold Fragment.ucd x
  /\ @unmarked Fragment.ucd (@casefold Fragment.ucd x) = @casefold Fragment.ucd x.
Proof.
change (@nfkd Fragment.ucd) with Fragment.nfkd.
change (@casefold Fragment.ucd) with Fragment.lower.
unfold unmarked. change (@combining Fragment.ucd) with Fragment.combining.
intros D U.
assert (P : forall c, In c x -> Fragment.composed c = false /\ Fragment.mark c = false).
{ intros c Hc. split.
  - pose proof (nfkd_plain x) as K. rewrite D in K.
    apply negb_true_iff. exact (proj1 (forallb_forall _ _) K c Hc).
  - apply filter_fixed in U.
    pose proof (proj1 (forallb_forall _ _) U c Hc) as K. cbv beta in K.
    unfold Fragment.combining in K. fold (Fragment.mark c) in K.
    now destruct (Fragment.mark c). }
assert (Q : forall c, In c (Fragment.lower x) -> Fragment.composed c = false /\ Fragment.mark c = false).
{ intros c Hc. unfold Fragment.lower in Hc. apply in_map_iff in Hc as (d & <- & Hd).
  destruct (P d Hd) as [A B]. now apply lower_char_plain. }
split.
- apply nfkd_of_plain. apply forallb_forall. intros c Hc.
  now rewrite (proj1 (Q c Hc)).
- apply filter_fixed, forallb_forall. intros c Hc.
  unfold Fragment.combining. fold (Fragment.mark c). now rewrite (proj2 (Q c Hc)).
Qed.

Lemma fragment_casefold_idem (x : pystr) :
  @casefold Fragment.ucd (@casefold Fragment.ucd x) = @casefold Fragment.ucd x.
Proof.
change (@casefold Fragment.ucd) with Fragment.lower. unfold Fragment.lower.
rewrite map_map. apply map_ext. intros c. apply lower_char_idem.
Qed.

(** C5 as stated fails: U+00A8 is no white space, so [strip] keeps it;
    its decomposition is a space and a combining mark, the mark is
    dropped, and the lone space is stripped by a second pass only. *)
Lemma normalize_not_idempotent :
  @_normalize Fragment.ucd (Some [168%N]) = [32%N] /\
  @_normalize Fragment.ucd (Some (@_normalize Fragment.ucd (Some [168%N])))
    <> @_normalize Fragment.ucd (Some [168%N]).
Proof. split; [reflexivity | vm_compute; discriminate]. Qed.

Section Laws.
Context `{UnicodeData}.

(** Three laws of the Unicode tables.  NFKD leaves alone what is left of
    a decomposed text once its marks are dropped; case folding such a
    text brings back no mark and no character that decomposes; case
    folding is idempotent.  The last two hypotheses fix both tables on
    the empty string. *)
Hypothesis nfkd_unmarked :
  forall x, nfkd (unmarked (nfkd x)) = unmarked (nfkd x).
Hypothesis casefold_decomposed :
  forall x, nfkd x = x -> unmarked x = x ->
            nfkd (casefold x) = casefold x /\ unmarked (casefold x) = casefold x.
Hypothesis casefold_idem : forall x, casefold (casefold x) = casefold x.
Hypothesis nfkd_nil : nfkd [] = [].
Hypothesis casefold_nil : casefold [] = [].

(** C5 (amended): [_normalize] is a total function, it maps [None] and
    the empty string to the empty string, and it is idempotent on every
    string whose normal form has no white space at either end:
    normalize(normalize(s)) = normalize(s).  The white space is the only
    obstacle: the Unicode tables enter through the laws above alone. *)
Theorem normalize_idempotent_trimmed (s : pystr) :
  strip (_normalize (Some s)) = _normalize (Some s) ->
  _normalize (Some (_normalize (Some s))) = _normalize (Some s)
  /\ _normalize None = []
  /\ _normalize (Some []) = [].
Proof.
intros T. split; [|split; [reflexivity|]].
- unfold _normalize in *. fold (unmarked (nfkd (strip s))) in *.
  set (x := unmarked (nfkd (strip s))) in *.
  assert (D : nfkd x = x) by apply nfkd_unmarked.
  assert (U : unmarked x = x).
  { unfold x, unmarked. apply filter_fixed, forallb_filter. }
  destruct (casefold_decomposed D U) as [D' U'].
  rewrite T, D'. fold (unmarked (casefold x)). rewrite U'. apply casefold_idem.
- unfold _normalize. change (strip []) with (@nil N).
  rewrite nfkd_nil. simpl. apply casefold_nil.
Qed.

End Laws.

Lemma normalize_idempotent_trimmed_witness :
  @_normalize Fragment.ucd
     (Some (@_normalize Fragment.ucd (Some [32; 65; 109; 233; 108; 105; 101]%N)))
    = @_normalize Fragment.ucd (Some [32; 65; 109; 233; 108; 105; 101]%N)
  /\ @_normalize Fragment.ucd None = []
  /\ @_normalize Fragment.ucd (Some []) = [].
Proof.
exact (@normalize_idempotent_trimmed Fragment.ucd
         fragment_nfkd_unmarked fragment_casefold_decomposed
         fragment_casefold_idem eq_refl eq_refl
         [32; 65; 109; 233; 108; 105; 101]%N eq_refl).
Defined.

End NormalizeFacts.

(* ================================================================== *)
(** * The order of the ranking *)

Lemma filter_none {A} (p : A -> bool) (l : list A) :
  (forall x, In x l -> p x = false) -> filter p l = [].
Proof.
  induction l as [|x l IH]; intros Hp; simpl; [reflexivity|].
  rewrite (Hp x (or_introl eq_refl)). apply IH.
  intros y Hy. apply Hp. now right.
Qed.

Module SortFacts.

Lemma key_leb_total a b : key_leb a b = false -> key_leb b a = true.
Proof.
  unfold key_leb. intros E.
  apply orb_false_iff in E as [E1 E2].
  apply Z.ltb_ge in E1.
  destruct (Z.ltb_spec (sc_score a) (sc_score b)); [reflexivity|].
  assert (Eq : sc_score a = sc_score b) by lia.
  simpl. rewrite Eq, Z.eqb_refl in *. simpl in *.
  apply Nat.leb_gt in E2. apply Nat.leb_le. lia.
Qed.

Lemma key_le_spec a b :
  key_le a b <->
  sc_score b < sc_score a \/
  (sc_score a = sc_score b /\ (sc_idx a <= sc_idx b)%nat).
Proof.
  unfold key_le, key_leb.
  rewrite orb_true_iff, andb_true_iff, Z.ltb_lt, Z.eqb_eq, Nat.leb_le.
  reflexivity.
Qed.

Lemma key_le_trans a b c : key_le a b -> key_le b c -> key_le a c.
Proof. rewrite !key_le_spec. lia. Qed.

Lemma sort_insert_perm x l : Permutation (sort_insert x l) (x :: l).
Proof.
  induction l as [|y l IH]; simpl; [reflexivity|].
  destruct (key_leb x y); [reflexivity|].
  rewrite IH. apply perm_swap.
Qed.

Lemma sort_perm l : Permutation (sort l) l.
Proof.
  induction l as [|x l IH]; simpl; [constructor|].
  rewrite sort_insert_perm. now constructor.
Qed.

Lemma sort_insert_sorted x l :
  StronglySorted key_le l -> StronglySorted key_le (sort_insert x l).
Proof.
  induction 1 as [|y l Hl IH Hy]; simpl.
  - repeat constructor.
  - destruct (key_leb x y) eqn:E.
    + constructor; [now constructor|].
      constructor; [exact E|].
      eapply Forall_impl; [|exact Hy]. intros z. now apply key_le_trans.
    + constructor; [assumption|].
      apply (Permutation_Forall (Permutation_sym (sort_insert_perm x l))).
      constructor; [now apply key_leb_total | assumption].
Qed.

Lemma sort_sorted l : StronglySorted key_le (sort l).
Proof.
  induction l as [|x l IH]; simpl; [constructor|].
  now apply sort_insert_sorted.
Qed.

(** With pairwise distinct indices the order is strict. *)
Lemma sorted_strict l :
  StronglySorted key_le l -> NoDup (map sc_idx l) ->
  StronglySorted ranked_before l.
Proof.
  induction 1 as [|x l Hl IH Hx]; intros ND; [constructor|].
  simpl in ND. inversion ND as [|? ? Hnot ND']; subst.
  constructor; [now apply IH|].
  apply Forall_forall. intros y Hy.
  rewrite Forall_forall in Hx. specialize (Hx y Hy).
  apply key_le_spec in Hx. unfold ranked_before.
  assert (sc_idx x <> sc_idx y).
  { intros E. apply Hnot. rewrite E. now apply in_map. }
  lia.
Qed.

(** In a ranked list the entries that pass a score threshold form a prefix. *)
Lemma threshold_prefix (t : Z) l :
  StronglySorted ranked_before l ->
  firstn (List.length (filter (fun x => t <=? sc_score x) l)) l
  = filter (fun x => t <=? sc_score x) l.
Proof.
  induction 1 as [|x l Hl IH Hx]; [reflexivity|].
  simpl. destruct (Z.leb_spec t (sc_score x)) as [Hge|Hlt].
  - simpl. now rewrite IH.
  - assert (E : filter (fun x => t <=? sc_score x) l = []).
    { apply filter_none.
      intros y Hy. rewrite Forall_forall in Hx. specialize (Hx y Hy).
      unfold ranked_before in Hx. apply Z.leb_gt. lia. }
    now rewrite E.
Qed.

End SortFacts.

(* ================================================================== *)
(** * The candidate scorer *)

Section ScorerFacts.
Context `{UnicodeData}.

Variables (media_type : option pystr) (norm_search media_title_raw : pystr)
          (search_year : option Z) (parent : option PlexItem).

Local Notation score_from' i := 
  (score_from i media_type norm_search media_title_raw search_year parent).
Local Notation final_score' :=
  (final_score norm_search media_title_raw search_year parent).

(** What the loop appends for each candidate it keeps. *)
Lemma score_from_entries i cands :
  Forall (fun x =>
            (i <= sc_idx x)%nat
            /\ nth_error cands (sc_idx x - i) = Some (sc_cand x)
            /\ filtered_out media_type (sc_cand x) = false
            /\ sc_score x = final_score' (sc_cand x)
            /\ sc_norm x = _normalize (Some (cand_title_of (sc_cand x))))
         (score_from' i cands).
Proof.
  revert i. induction cands as [|c cands IH]; intros i; simpl; [constructor|].
  assert (T : Forall (fun x =>
            (i <= sc_idx x)%nat
            /\ nth_error (c :: cands) (sc_idx x - i) = Some (sc_cand x)
            /\ filtered_out media_type (sc_cand x) = false
            /\ sc_score x = final_score' (sc_cand x)
            /\ sc_norm x = _normalize (Some (cand_title_of (sc_cand x))))
         (score_from' (S i) cands)).
  { eapply Forall_impl; [|exact (IH (S i))].
    intros x (Hi & Hn & Hrest). split; [lia|]. split; [|exact Hrest].
    replace (sc_idx x - i)%nat with (S (sc_idx x - S i)) by lia. exact Hn. }
  destruct (filtered_out media_type c) eqn:E; [exact T|].
  constructor; [|exact T]. simpl.
  rewrite Nat.sub_diag. simpl. repeat split; auto.
Qed.

Lemma score_from_idx_lower i cands :
  Forall (fun x => (i <= sc_idx x)%nat) (score_from' i cands).
Proof.
  eapply Forall_impl; [|apply score_from_entries]. now intros x (Hi & _).
Qed.

Lemma score_from_NoDup i cands : NoDup (map sc_idx (score_from' i cands)).
Proof.
  revert i. induction cands as [|c cands IH]; intros i; simpl; [constructor|].
  destruct (filtered_out media_type c); [apply IH|].
  simpl. constructor; [|apply IH].
  intros Hin. apply in_map_iff in Hin as (x & Ex & Hx).
  pose proof (score_from_idx_lower (S i) cands) as L.
  rewrite Forall_forall in L. specialize (L x Hx). lia.
Qed.

(** The candidates scored are the candidates the filter lets through. *)
Lemma score_from_cands i cands :
  map sc_cand (score_from' i cands)
  = filter (fun c => negb (filtered_out media_type c)) cands.
Proof.
  revert i. induction cands as [|c cands IH]; intros i; simpl; [reflexivity|].
  destruct (filtered_out media_type c); simpl; now rewrite IH.
Qed.

Lemma rank_candidates scored : candidates (rank scored) = map sc_cand (sort scored).
Proof. unfold rank. destruct (sort scored); reflexivity. Qed.

Lemma rank_excellent scored :
  nb_excellent_match (rank scored)
  = Z.of_nat (List.length (filter (fun x => 99 <=? sc_score x) (sort scored))).
Proof. unfold rank. destruct (sort scored); reflexivity. Qed.

Lemma ranked_sorted i cands :
  StronglySorted ranked_before (sort (score_from' i cands)).
Proof.
  apply SortFacts.sorted_strict; [apply SortFacts.sort_sorted|].
  apply (Permutation_NoDup
           (Permutation_map sc_idx
              (Permutation_sym (SortFacts.sort_perm (score_from' i cands))))).
  apply score_from_NoDup.
Qed.

(** A candidate whose normalised title is not the search title stays
    at 55 or below: 25 at most from the substring and prefix rules, the
    noise rule never raises a score above [max score 1], and the parent
    bonus adds 30. *)
Lemma non_exact_score_bound cand :
  _normalize (Some (cand_title_of cand)) <> norm_search ->
  final_score' cand <= 55.
Proof.
  intros NE. apply eqb_neq in NE.
  unfold final_score, base_score. rewrite NE.
  repeat match goal with
         | |- context [if ?b then _ else _] => destruct b
         | |- context [match ?p with Some _ => _ | None => _ end] => destruct p
         end; lia.
Qed.

Lemma excellent_score_exact cand :
  99 <= final_score' cand ->
  _normalize (Some (cand_title_of cand)) = norm_search.
Proof.
  intros Hs.
  destruct (eqb (_normalize (Some (cand_title_of cand))) norm_search) eqn:E.
  - now apply eqb_eq.
  - apply eqb_neq, non_exact_score_bound in E. lia.
Qed.

(** C7: the candidates of a ScoreResult are the scored tuples in an
    order that is descending by score and, among equal scores, ascending
    by the index at which the candidate was discovered. *)
Theorem ranking_descending_and_stable (candidates_to_score : list PlexItem) :
  exists sorted : list Scored,
    candidates (score_candidates media_type norm_search media_title_raw
                                 search_year parent candidates_to_score)
      = map sc_cand sorted
    /\ Permutation sorted (score_from' 0%nat candidates_to_score)
    /\ StronglySorted ranked_before sorted
    /\ Forall (fun x => nth_error candidates_to_score (sc_idx x) = Some (sc_cand x))
              sorted.
Proof.
  exists (sort (score_from' 0%nat candidates_to_score)).
  split; [apply rank_candidates|].
  split; [apply SortFacts.sort_perm|].
  split; [apply ranked_sorted|].
  apply (Permutation_Forall
           (Permutation_sym (SortFacts.sort_perm (score_from' 0%nat candidates_to_score)))).
  eapply Forall_impl; [|apply score_from_entries].
  intros x (_ & Hn & _). now rewrite Nat.sub_0_r in Hn.
Qed.

End ScorerFacts.

Section ScoringRules.
Context `{UnicodeData}.

(** C3 (amended): a candidate whose normalised title equals the
    normalised search title has base score 99, and 100 if additionally a
    search year other than 0 was extracted and the candidate's year
    equals it; otherwise, if the normalised search title is a substring
    of the normalised candidate title, the base score is 20, plus 5 if
    the lower-cased candidate title starts with the lower-cased raw
    search title. *)
Theorem base_score_rules (norm_search media_title_raw : pystr)
        (search_year : option Z) (cand : PlexItem) :
  let norm_cand_title := _normalize (Some (cand_title_of cand)) in
  let year_matches :=
    match search_year, year cand with
    | Some y, Some cy => negb (y =? 0) && (cy =? y)
    | _, _ => false
    end in
  let score := base_score norm_search media_title_raw search_year cand in
  (norm_cand_title = norm_search ->
     score = if year_matches then 100 else 99)
  /\ (norm_cand_title <> norm_search ->
      contains norm_search norm_cand_title = true ->
      score = if startswith (lower media_title_raw) (lower (cand_title_of cand))
              then 20 + 5 else 20).
Proof.
  cbv zeta. unfold base_score. split.
  - intros E. apply eqb_eq in E. rewrite E.
    unfold cand_year_int_of, truthy_int, opt_Z_eqb.
    destruct search_year as [y|]; [|reflexivity].
    destruct (year cand) as [cy|].
    + destruct (Z.eqb_spec y 0) as [->|Hy]; cbn [negb andb]; [reflexivity|].
      destruct (Z.eqb_spec cy 0) as [->|Hc]; cbn [negb andb]; [|reflexivity].
      destruct (Z.eqb_spec 0 y); [congruence | reflexivity].
    + now destruct (negb (y =? 0)).
  - intros NE C. apply eqb_neq in NE. now rewrite NE, C.
Qed.

(** C6 (amended): when a media type filter is supplied (a non-empty
    string), a candidate that has a non-empty kind different from the
    filter is excluded before scoring: no tuple is built for it and it
    is absent from the ScoreResult. *)
Theorem kind_filter_excludes (filter_kind kind norm_search media_title_raw : pystr)
        (search_year : option Z) (parent : option PlexItem)
        (candidates_to_score : list PlexItem) (cand : PlexItem) :
  truthy filter_kind = true ->
  In cand candidates_to_score ->
  type cand = Some kind -> truthy kind = true -> kind <> filter_kind ->
  (forall x, In x (score_from 0 (Some filter_kind) norm_search media_title_raw
                              search_year parent candidates_to_score) ->
             sc_cand x <> cand)
  /\ ~ In cand (candidates (score_candidates (Some filter_kind) norm_search
                              media_title_raw search_year parent
                              candidates_to_score)).
Proof.
  intros Tf _ Ty Tk NE.
  assert (Fo : filtered_out (Some filter_kind) cand = true).
  { unfold filtered_out. rewrite Ty. simpl. rewrite Tf, Tk. simpl.
    apply negb_true_iff, eqb_neq. congruence. }
  assert (A : forall x,
             In x (score_from 0 (Some filter_kind) norm_search media_title_raw
                              search_year parent candidates_to_score) ->
             sc_cand x <> cand).
  { intros x Hx E.
    pose proof (score_from_entries (Some filter_kind) norm_search media_title_raw
                  search_year parent 0 candidates_to_score) as F.
    rewrite Forall_forall in F. destruct (F x Hx) as (_ & _ & K & _).
    rewrite E in K. congruence. }
  split; [exact A|].
  unfold score_candidates. rewrite rank_candidates. intros Hin.
  apply in_map_iff in Hin as (x & Ex & Hx).
  apply (Permutation_in _ (SortFacts.sort_perm _)) in Hx.
  exact (A x Hx Ex).
Qed.

End ScoringRules.

(** C3 as stated fails for the year 0: the title "Foo (0000)" yields
    the search year 0, and a candidate "Foo" of year 0 has an equal
    normalised title and an equal year, yet its base score is 99. *)
Lemma base_score_year_zero :
  let cand := item_titled "Foo" (Some 0) None in
  @extract_year Fragment.ucd (u "Foo (0000)") = (u "Foo", Some 0)
  /\ year cand = Some 0
  /\ @_normalize Fragment.ucd (Some (@cand_title_of cand))
     = @_normalize Fragment.ucd (Some (u "Foo"))
  /\ @base_score Fragment.ucd (@_normalize Fragment.ucd (Some (u "Foo")))
                 (u "Foo") (Some 0) cand = 99
  /\ best_score (@search_plex_for_media_by_title Fragment.ucd
                   (server_with [cand]) (u "Foo (0000)") None None) = 99.
Proof. vm_compute. repeat split; reflexivity. Qed.

Lemma base_score_rules_witness :
  @base_score Fragment.ucd (u "alien") (u "Alien") (Some 1979)
              (item_titled "Alien" (Some 1979) None) = 100.
Proof.
  exact (proj1 (@base_score_rules Fragment.ucd (u "alien") (u "Alien") (Some 1979)
                  (item_titled "Alien" (Some 1979) None)) eq_refl).
Defined.

(** C6 as stated fails for a candidate that has no kind: it differs
    from the filter and is scored all the same. *)
Lemma kind_filter_keeps_untyped :
  let cand := item_titled "Alien" None None in
  type cand = None
  /\ candidates (@score_candidates Fragment.ucd (Some (u "movie")) (u "alien")
                   (u "Alien") None None [cand]) = [cand].
Proof. vm_compute. split; reflexivity. Qed.

Lemma kind_filter_excludes_witness :
  ~ In (item_titled "Alien" (Some 1979) (Some "show"%string))
       (candidates (@score_candidates Fragment.ucd (Some (u "movie")) (u "alien")
                      (u "Alien") None None
                      [item_titled "Alien" (Some 1979) (Some "show"%string);
                       item_titled "Alien" (Some 1979) (Some "movie"%string)])).
Proof.
  refine (proj2 (@kind_filter_excludes Fragment.ucd (u "movie") (u "show") (u "alien")
                   (u "Alien") None None
                   [item_titled "Alien" (Some 1979) (Some "show"%string);
                    item_titled "Alien" (Some 1979) (Some "movie"%string)]
                   (item_titled "Alien" (Some 1979) (Some "show"%string))
                   eq_refl _ eq_refl eq_refl _)).
  - simpl. left. reflexivity.
  - vm_compute. discriminate.
Defined.


Section ExcellentMatches.
Context `{UnicodeData}.

Lemma firstn_map_comm {A B} (f : A -> B) n (l : list A) :
  firstn n (map f l) = map f (firstn n l).
Proof.
  revert l; induction n as [|n IH]; intros [|x l]; simpl; try reflexivity.
  now rewrite IH.
Qed.

(** The candidates counted as excellent by the scoring loop. *)
Lemma scored_excellent_exact media_type norm_search media_title_raw search_year
      parent candidates_to_score cand :
  let results := score_candidates media_type norm_search media_title_raw
                                  search_year parent candidates_to_score in
  In cand (firstn (Z.to_nat (nb_excellent_match results)) (candidates results)) ->
  _normalize (Some (cand_title_of cand)) = norm_search.
Proof.
  cbv zeta. unfold score_candidates.
  rewrite rank_candidates, rank_excellent, Nat2Z.id, firstn_map_comm.
  rewrite SortFacts.threshold_prefix by apply ranked_sorted.
  intros Hin. apply in_map_iff in Hin as (x & <- & Hx).
  apply filter_In in Hx as [Hx Hs]. apply Z.leb_le in Hs.
  apply (Permutation_in _ (SortFacts.sort_perm _)) in Hx.
  pose proof (score_from_entries media_type norm_search media_title_raw
                search_year parent 0 candidates_to_score) as F.
  rewrite Forall_forall in F. destruct (F x Hx) as (_ & _ & _ & Es & _).
  rewrite Es in Hs. now apply excellent_score_exact in Hs.
Qed.

(** C9: every candidate counted in [nb_excellent_match] (the first
    [nb_excellent_match] candidates of the result) has a normalised
    title equal to the normalised search title: either it was scored,
    or it is the parent returned by the self-match shortcut, whose
    normalised [title] equals the search title.  A candidate whose
    normalised title differs scores below 99 whatever the substring,
    prefix, noise and parent rules contribute. *)
Theorem excellent_matches_have_exact_title :
  (forall (plex : PlexServer) (media_title : pystr) (media_type : option pystr)
          (parent_plex_item : option PlexItem) (cand : PlexItem),
      let results := search_plex_for_media_by_title plex media_title media_type
                                                    parent_plex_item in
      let norm_search :=
        _normalize (Some (fst (extract_year (strip media_title)))) in
      In cand (firstn (Z.to_nat (nb_excellent_match results)) (candidates results)) ->
      _normalize (Some (cand_title_of cand)) = norm_search
      \/ (parent_plex_item = Some cand /\ _normalize (title cand) = norm_search))
  /\ (forall (norm_search media_title_raw : pystr) (search_year : option Z)
             (parent : option PlexItem) (cand : PlexItem),
         _normalize (Some (cand_title_of cand)) <> norm_search ->
         final_score norm_search media_title_raw search_year parent cand < 99).
Proof.
  split.
  - intros plex media_title media_type parent_plex_item cand. cbv zeta.
    unfold search_plex_for_media_by_title.
    destruct (negb (truthy (strip media_title))); [intros []|].
    destruct (extract_year (strip media_title)) as [media_title_raw year'].
    simpl fst.
    destruct parent_plex_item as [p|].
    + destruct (parent_self_match _ year' p) eqn:E.
      * simpl. intros [<-|[]]. right. split; [reflexivity|].
        unfold parent_self_match in E.
        apply andb_true_iff in E as [E _]. now apply eqb_eq.
      * destruct (scoped_candidates_of media_type (Some p)).
        -- destruct (search plex media_title_raw); [|intros []].
           intros Hin. left. eapply scored_excellent_exact, Hin.
        -- intros Hin. left. eapply scored_excellent_exact, Hin.
    + destruct (scoped_candidates_of media_type None).
      * destruct (search plex media_title_raw); [|intros []].
        intros Hin. left. eapply scored_excellent_exact, Hin.
      * intros Hin. left. eapply scored_excellent_exact, Hin.
  - intros norm_search media_title_raw search_year parent cand NE.
    pose proof (@non_exact_score_bound _ _ media_title_raw search_year parent _ NE).
    lia.
Qed.

End ExcellentMatches.

Lemma excellent_matches_have_exact_title_witness :
  let cand := item_titled "Alien" (Some 1979) (Some "movie"%string) in
  @_normalize Fragment.ucd (Some (cand_title_of cand))
  = @_normalize Fragment.ucd (Some (u "Alien"))
  \/ (@None PlexItem = Some cand
      /\ @_normalize Fragment.ucd (title cand) = @_normalize Fragment.ucd (Some (u "Alien"))).
Proof.
  refine (proj1 (@excellent_matches_have_exact_title Fragment.ucd)
                (server_with [item_titled "Alien 3" None (Some "movie"%string);
                              item_titled "Alien" (Some 1979) (Some "movie"%string)])
                (u "Alien (1979)") (Some (u "movie")) None
                (item_titled "Alien" (Some 1979) (Some "movie"%string)) _).
  vm_compute. left. reflexivity.
Defined.

(* ================================================================== *)
(** * The resolution policy *)

Section ResolutionFacts.
Context `{UnicodeData}.

(** Without a confident best match no candidate is excellent. *)
Lemma rank_not_confident scored :
  is_confident (rank scored) = false -> nb_excellent_match (rank scored) = 0.
Proof.
  unfold rank. pose proof (SortFacts.sort_sorted scored) as S.
  destruct (sort scored) as [|best rest]; [reflexivity|].
  simpl. intros C. apply Z.leb_gt in C.
  destruct (Z.leb_spec 99 (sc_score best)); [lia|].
  inversion S as [|? ? _ Hb]; subst.
  rewrite filter_none; [reflexivity|].
  intros y Hy. rewrite Forall_forall in Hb. specialize (Hb y Hy).
  apply SortFacts.key_le_spec in Hb. apply Z.leb_gt. lia.
Qed.

Lemma search_not_confident plex media_title media_type parent_plex_item :
  let results := search_plex_for_media_by_title plex media_title media_type
                                                parent_plex_item in
  is_confident results = false -> nb_excellent_match results = 0.
Proof.
  cbv zeta. unfold search_plex_for_media_by_title, score_candidates.
  repeat match goal with
         | |- context [if ?b then _ else _] => destruct b
         | |- context [match ?p with _ => _ end] => destruct p
         end; simpl; try reflexivity; try discriminate;
    apply rank_not_confident.
Qed.

(** C1 fails on the code: in interactive mode, whenever the search
    returns candidates without a confident match (the NoConfidentMatch
    state), [resolve_plex_item] evaluates [len] of the integer
    [nb_excellent_match] and raises [TypeError]; no candidate list is
    presented and nothing is returned. *)
Theorem interactive_no_confident_match_raises
        (plex : PlexServer) (media_title : pystr) (media_type : option pystr)
        (parent_plex_item : option PlexItem) (w : World) :
  let results := search_plex_for_media_by_title plex media_title media_type
                                                parent_plex_item in
  candidates results <> [] ->
  is_confident results = false ->
  resolve_plex_item plex media_title media_type false parent_plex_item w
  = (Raise TypeError, w).
Proof.
  cbv zeta. intros NE C.
  pose proof (search_not_confident plex media_title media_type parent_plex_item C) as Z0.
  unfold resolve_plex_item.
  destruct (candidates _) as [|c cs]; [congruence|].
  rewrite C, Z0. reflexivity.
Qed.

End ResolutionFacts.

Lemma interactive_no_confident_match_raises_witness :
  @resolve_plex_item Fragment.ucd
     (server_with [item_titled "Alien 3" None (Some "movie"%string)])
     (u "Alien") None false None
     (mkWorld [] [] [] [] [LNumber 1] [])
  = (Raise TypeError, mkWorld [] [] [] [] [LNumber 1] []).
Proof.
  apply (@interactive_no_confident_match_raises Fragment.ucd).
  - vm_compute. discriminate.
  - vm_compute. reflexivity.
Defined.

(* ================================================================== *)
(** * The validation pass *)

Section ValidationFacts.
Context `{UnicodeData} `{PyShow}.

(** The pass keeps exactly the operations whose target the item
    exposes and records one message for every other, in order. *)
Lemma validate_filter plex_item planned_ops w :
  validate plex_item planned_ops w
  = (Ok (filter (exposes plex_item) planned_ops),
     record_missing
       (map (drop_message plex_item)
            (filter (fun op => negb (exposes plex_item op)) planned_ops)) w).
Proof.
  revert w. induction planned_ops as [|op ops IH]; intros w; [reflexivity|].
  destruct op as [f v o|f n e]; simpl.
  - destruct (attr plex_item f) eqn:E; simpl.
    + unfold bind. now rewrite IH.
    + unfold bind, modify. now rewrite IH.
  - destruct (attr plex_item f) eqn:E; simpl.
    + unfold bind. now rewrite IH.
    + destruct (attr plex_item (rstrip_s f)) eqn:E'; simpl.
      * unfold bind. now rewrite IH.
      * unfold bind, modify. now rewrite IH.
Qed.

Lemma record_missing_stats msgs w :
  stats_skipped_missing_field (record_missing msgs w)
  = stats_skipped_missing_field w ++ msgs.
Proof.
  revert w. induction msgs as [|m msgs IH]; intros w; simpl.
  - now rewrite app_nil_r.
  - rewrite IH. simpl. now rewrite <- app_assoc.
Qed.

Lemma record_missing_rest msgs w :
  stats_skipped (record_missing msgs w) = stats_skipped w
  /\ stats_updated (record_missing msgs w) = stats_updated w
  /\ stats_failed (record_missing msgs w) = stats_failed w
  /\ stdin (record_missing msgs w) = stdin w
  /\ calls (record_missing msgs w) = calls w.
Proof.
  revert w. induction msgs as [|m msgs IH]; intros w; simpl; [repeat split|].
  destruct (IH (missing_field m w)) as (A & B & C & D & E).
  now rewrite A, B, C, D, E.
Qed.

Lemma drop_s_repeat (k : nat) (r : list ascii) :
  drop_s (repeat "s"%char k ++ r) = drop_s r.
Proof. induction k as [|k IH]; [reflexivity | exact IH]. Qed.

(** [rstrip_s] is characterised by what [str.rstrip('s')] returns. *)
Lemma rstrip_s_spec (plural singular : string) :
  without_trailing_s plural singular -> rstrip_s plural = singular.
Proof.
intros [(k & E) N]. unfold rstrip_s.
rewrite E, rev_app_distr, rev_repeat, drop_s_repeat.
assert (D : drop_s (rev (list_ascii_of_string singular))
            = rev (list_ascii_of_string singular)).
{ destruct (rev (list_ascii_of_string singular)) as [|c t] eqn:R; [reflexivity|].
  simpl. destruct (Ascii.eqb_spec c "s"%char) as [->|]; [|reflexivity].
  exfalso. apply (N (rev t)).
  rewrite <- (rev_involutive (list_ascii_of_string singular)), R. reflexivity. }
rewrite D, rev_involutive. apply string_of_list_ascii_of_string.
Qed.

(** C10: a planned TagOp whose plural collection attribute is absent
    on the item is kept by the validation pass when the attribute named
    by the singular form (the plural without its trailing 's'
    characters: "genre" for "genres", "cla" for "class") is present;
    when both are absent the op is dropped and a missing-field outcome
    is recorded for it. *)
Theorem tag_validation_singular_fallback
        (plex_item : Entity) (planned_ops : list UpdateOp) (w : World)
        (rest_field singular : string) (new existing : list pystr) :
  In (TagOp rest_field new existing) planned_ops ->
  attr plex_item rest_field = None ->
  without_trailing_s rest_field singular ->
  exists validated_ops w',
    validate plex_item planned_ops w = (Ok validated_ops, w')
    /\ (attr plex_item singular <> None ->
        In (TagOp rest_field new existing) validated_ops)
    /\ (attr plex_item singular = None ->
        ~ In (TagOp rest_field new existing) validated_ops
        /\ In (item_title_of plex_item ++ u ": Missing tag collection '"
               ++ u rest_field ++ u "'")
              (stats_skipped_missing_field w')).
Proof.
  intros Hin Hp Hsing. apply rstrip_s_spec in Hsing.
  eexists. eexists. split; [apply validate_filter|].
  split.
  - intros Hs. apply filter_In. split; [assumption|].
    simpl. rewrite Hp, Hsing. simpl.
    destruct (attr plex_item singular); [reflexivity|congruence].
  - intros Hs.
    assert (E : exposes plex_item (TagOp rest_field new existing) = false)
      by (simpl; now rewrite Hp, Hsing, Hs).
    split.
    + intros K. apply filter_In in K as [_ K]. congruence.
    + rewrite record_missing_stats. apply in_or_app. right.
      change (In (drop_message plex_item (TagOp rest_field new existing))
                 (map (drop_message plex_item)
                      (filter (fun op => negb (exposes plex_item op)) planned_ops))).
      apply in_map, filter_In. split; [assumption|]. now rewrite E.
Qed.

End ValidationFacts.

Lemma tag_validation_singular_fallback_witness :
  let plex_item := entity_with [("genre"%string, PTags [])] in
  let op := TagOp "genres" [u "Action"] [] in
  exists validated_ops w',
    @validate Fragment.show plex_item [op; TagOp "actors" [u "Ann"] []] empty_world
    = (Ok validated_ops, w')
    /\ (attr plex_item "genre" <> None -> In op validated_ops)
    /\ (attr plex_item "genre" = None ->
        ~ In op validated_ops
        /\ In (@item_title_of Fragment.show plex_item ++ u ": Missing tag collection '"
               ++ u "genres" ++ u "'")
              (stats_skipped_missing_field w')).
Proof.
  apply (@tag_validation_singular_fallback Fragment.show
           (entity_with [("genre"%string, PTags [])])
           [TagOp "genres" [u "Action"] []; TagOp "actors" [u "Ann"] []]
           empty_world "genres" "genre" [u "Action"] []).
  - simpl. left. reflexivity.
  - reflexivity.
  - split.
    + exists 1%nat. reflexivity.
    + intros pre E. apply (f_equal (@rev ascii)) in E.
      rewrite rev_app_distr in E. discriminate E.
Defined.

(** The singular is tried, and nothing else: an item that exposes
    neither "genres" nor "genre" loses the operation, whatever else it
    exposes. *)
Example singular_fallback_is_exact :
  fst (@validate Fragment.show (entity_with [("genr"%string, PTags [])])
         [TagOp "genres" [u "Action"] []] empty_world)
  = Ok []
  /\ fst (@validate Fragment.show (entity_with [("genre"%string, PTags [])])
            [TagOp "genres" [u "Action"] []] empty_world)
     = Ok [TagOp "genres" [u "Action"] []].
Proof. split; reflexivity. Qed.

(* ================================================================== *)
(** * Tag planning *)

Lemma subseq_refl {A} (l : list A) : subseq l l.
Proof. induction l; constructor; assumption. Qed.

Lemma subseq_trans {A} (a b c : list A) : subseq a b -> subseq b c -> subseq a c.
Proof.
intros Hab Hbc. revert a Hab.
induction Hbc as [|x b c Hbc IH|x b c Hbc IH]; intros a Hab.
- assumption.
- constructor. now apply IH.
- inversion Hab; subst.
  + constructor. now apply IH.
  + apply subseq_keep. now apply IH.
Qed.

Lemma subseq_In {A} (out l : list A) x : subseq out l -> In x out -> In x l.
Proof.
induction 1 as [|y out l Hs IH|y out l Hs IH]; simpl; intuition.
Qed.

Lemma subseq_filter {A} (p : A -> bool) (l : list A) : subseq (filter p l) l.
Proof.
induction l as [|x l IH]; simpl; [constructor|].
destruct (p x); constructor; assumption.
Qed.

Lemma subseq_map {A B} (f : A -> B) (out l : list A) :
  subseq out l -> subseq (map f out) (map f l).
Proof. induction 1; simpl; constructor; assumption. Qed.

Lemma subseq_NoDup {A} (out l : list A) : subseq out l -> NoDup l -> NoDup out.
Proof.
induction 1 as [|y out l Hs IH|y out l Hs IH]; intros ND.
- constructor.
- inversion ND; subst. now apply IH.
- inversion ND as [|? ? Hn ND']; subst. constructor; [|now apply IH].
  intros Hin. apply Hn. eapply subseq_In; eassumption.
Qed.

Section TagFacts.
Context `{UnicodeData} `{PyShow}.

Lemma add_tag_clean name t :
  In t (add_tag name) -> strip t = t /\ truthy t = true.
Proof.
unfold add_tag. destruct (negb (nfo_truthy name)); [intros []|].
destruct (truthy (strip (str_of_nfo name))) eqn:T; [|intros []].
intros [<-|[]]. split; [apply strip_idem | exact T].
Qed.

Lemma split_parts_clean s t :
  In t (flat_map (fun part => add_tag (VStr part)) (re_split s)) ->
  strip t = t /\ truthy t = true.
Proof.
intros Hin. apply in_flat_map in Hin as (part & _ & Hin).
eapply add_tag_clean, Hin.
Qed.

(** The tokens gathered from a tag field are stripped and non-empty. *)
Lemma tag_names_clean nfo_value t :
  In t (tag_names_of nfo_value) -> strip t = t /\ truthy t = true.
Proof.
destruct nfo_value as [|s|d|l]; simpl.
- intros [].
- apply split_parts_clean.
- apply add_tag_clean.
- intros Hin. apply in_flat_map in Hin as (item & _ & Hin).
  destruct item as [|s|d|l']; try contradiction.
  + eapply split_parts_clean, Hin.
  + eapply add_tag_clean, Hin.
Qed.

Lemma clean_tokens (tags : list pystr) :
  (forall t, In t tags -> strip t = t /\ truthy t = true) ->
  filter truthy (map strip tags) = tags.
Proof.
induction tags as [|t tags IH]; intros Hc; [reflexivity|].
simpl. destruct (Hc t (or_introl eq_refl)) as [-> ->].
f_equal. apply IH. intros t' Ht'. apply Hc. now right.
Qed.

(** What the duplicate-removal loop returns, against the stripped,
    non-empty tokens it was given. *)
Lemma unique_from_spec (tags seen : list pystr) :
  let tokens := filter truthy (map strip tags) in
  let out := unique_from seen tags in
  subseq out tokens
  /\ NoDup (map lower out)
  /\ (forall t, In t out -> ~ In (lower t) seen)
  /\ (forall t, In t out -> exists pre post,
         tokens = pre ++ t :: post /\ ~ In (lower t) (map lower pre)).
Proof.
cbv zeta. revert seen. induction tags as [|tag rest IH]; intros seen.
- simpl. repeat split; try constructor; intros t [].
- simpl. destruct (truthy (strip tag)) eqn:T; simpl.
  + destruct (mem (lower (strip tag)) seen) eqn:M; simpl.
    * destruct (IH seen) as (S & N & D & F).
      apply mem_In in M.
      split; [now constructor|]. split; [assumption|]. split; [assumption|].
      intros t Ht. destruct (F t Ht) as (pre & post & E & Hn).
      exists (strip tag :: pre), post. split; [simpl; now rewrite E|].
      simpl. intros [K|K]; [|now apply Hn].
      apply (D t Ht). now rewrite <- K.
    * destruct (IH (lower (strip tag) :: seen)) as (S & N & D & F).
      apply mem_not_In in M.
      split; [now constructor|]. split.
      { constructor; [|assumption].
        intros K. apply in_map_iff in K as (t & Et & Ht).
        apply (D t Ht). left. now symmetry. }
      split.
      { intros t [<-|Ht]; [assumption|].
        intros K. apply (D t Ht). now right. }
      intros t [<-|Ht].
      { exists [], (filter truthy (map strip rest)). split; [reflexivity|].
        intros []. }
      destruct (F t Ht) as (pre & post & E & Hn).
      exists (strip tag :: pre), post. split; [simpl; now rewrite E|].
      simpl. intros [K|K]; [|now apply Hn].
      apply (D t Ht). now left.
  + apply IH.
Qed.

(** A tag that passes the combined-token filter holds no separator. *)
Lemma refined_no_separator unique_tags t c :
  In t (refined_tags_of unique_tags) -> In c t -> is_sep c = false.
Proof.
unfold refined_tags_of. intros Ht Hc.
apply filter_In in Ht as [_ Ht]. apply negb_true_iff in Ht.
destruct (is_sep c) eqn:E; [|reflexivity].
unfold is_sep, has_char in E. apply existsb_exists in E as (sep & Hs & Es).
apply N.eqb_eq in Es. subst sep.
assert (K : existsb (fun sep => has_char sep t) combined_seps = true).
{ apply existsb_exists. exists c. split; [assumption|].
  unfold has_char. apply existsb_exists. exists c.
  split; [assumption | apply N.eqb_refl]. }
congruence.
Qed.

(** The new-tag list of a planned TagOp comes from one record value. *)
Lemma plan_tag_new plex_item rest_field nfo_value ops f new existing :
  plan_tag plex_item rest_field nfo_value = Ok ops ->
  In (TagOp f new existing) ops ->
  new = refined_tags_of (unique_tags_of (tag_names_of nfo_value)).
Proof.
unfold plan_tag.
destruct (unique_tags_of (tag_names_of nfo_value)) as [|a l] eqn:U.
- intros [= <-] [].
- destruct (iter_attr (attr plex_item rest_field)); [|discriminate].
  destruct (refined_tags_of (a :: l)) eqn:R.
  + intros [= <-] [].
  + intros [= <-] [[= _ <- _]|[]]. reflexivity.
Qed.

Lemma plan_entry_new cfg plex_item nfo_key nfo_value ops f new existing :
  plan_entry cfg plex_item nfo_key nfo_value = Ok ops ->
  In (TagOp f new existing) ops ->
  new = refined_tags_of (unique_tags_of (tag_names_of nfo_value)).
Proof.
unfold plan_entry.
destruct (dict_get nfo_key SUPPORTED_FIELD_MAP) as [[rest_field is_tag]|];
  [|intros [= <-] []].
destruct (negb (nfo_truthy nfo_value)); [intros [= <-] []|].
destruct is_tag.
- apply plan_tag_new.
- intros [= <-]. unfold plan_field.
  repeat match goal with
         | |- context [if ?b then _ else _] => destruct b
         end; simpl; intuition discriminate.
Qed.

Lemma plan_new cfg plex_item nfo_data ops f new existing :
  plan cfg plex_item nfo_data = Ok ops ->
  In (TagOp f new existing) ops ->
  exists nfo_key nfo_value,
    In (nfo_key, nfo_value) nfo_data
    /\ new = refined_tags_of (unique_tags_of (tag_names_of nfo_value)).
Proof.
revert ops. induction nfo_data as [|[k v] rest IH]; intros ops; cbn [plan].
- intros [= <-] [].
- destruct (plan_entry cfg plex_item k v) as [here|] eqn:E; [|discriminate].
  destruct (plan cfg plex_item rest) as [ops'|]; [|discriminate].
  intros [= <-] Hin. apply in_app_or in Hin as [Hin|Hin].
  + exists k, v. split; [now left|]. eapply plan_entry_new; eassumption.
  + destruct (IH ops' eq_refl Hin) as (k' & v' & Hk & Hn).
    exists k', v'. split; [now right | assumption].
Qed.

(** C4: the new-tag list of every TagOp the planner emits is taken from
    the tokens gathered for one record field, in their order; no two of
    its tags agree when lower-cased, each tag is the first token with its
    lower-case form (so it keeps the first-seen casing), and no tag
    contains a separator character (comma, slash, pipe, semicolon). *)
Theorem tag_op_new_tags_invariant
        (cfg : Config) (plex_item : Entity) (nfo_data : list (string * NfoValue))
        (ops : list UpdateOp) (rest_field : string) (new existing : list pystr) :
  plan cfg plex_item nfo_data = Ok ops ->
  In (TagOp rest_field new existing) ops ->
  exists nfo_key nfo_value,
    In (nfo_key, nfo_value) nfo_data
    /\ let tokens := tag_names_of nfo_value in
       subseq new tokens
       /\ NoDup (map lower new)
       /\ (forall t, In t new -> first_seen t tokens)
       /\ (forall t c, In t new -> In c t -> is_sep c = false).
Proof.
intros P Hin.
destruct (@plan_new _ _ _ _ _ _ _ P Hin) as (k & v & Hk & ->).
exists k, v. split; [assumption|]. cbv zeta.
destruct (unique_from_spec (tag_names_of v) []) as (S & N & _ & F).
rewrite (clean_tokens (tag_names_of v)) in S, F by apply tag_names_clean.
fold (unique_tags_of (tag_names_of v)) in S, N, F.
pose proof (subseq_filter
              (fun tag => negb (existsb (fun sep => has_char sep tag) combined_seps))
              (unique_tags_of (tag_names_of v))) as R.
fold (refined_tags_of (unique_tags_of (tag_names_of v))) in R.
split; [eapply subseq_trans; eassumption|].
split; [eapply subseq_NoDup; [apply subseq_map; exact R | exact N]|].
split.
- intros t Ht. apply F. eapply subseq_In; eassumption.
- intros t c. apply refined_no_separator.
Qed.

End TagFacts.

Lemma tag_op_new_tags_invariant_witness :
  let nfo_data :=
    [("genre"%string,
      VList [VStr (u "Action"); VStr (u "action"); VStr (u "Drama");
             VDict [("name"%string, VStr (u "Action/Adventure"))]])] in
  let new := [u "Action"; u "Drama"] in
  @plan Fragment.ucd Fragment.show (mkConfig true false false) (entity_with [])
        nfo_data = Ok [TagOp "genres" new []]
  /\ exists nfo_key nfo_value,
      In (nfo_key, nfo_value) nfo_data
      /\ let tokens := @tag_names_of Fragment.ucd Fragment.show nfo_value in
         subseq new tokens
         /\ NoDup (map (@lower Fragment.ucd) new)
         /\ (forall t, In t new -> @first_seen Fragment.ucd t tokens)
         /\ (forall t c, In t new -> In c t -> is_sep c = false).
Proof.
split; [reflexivity|].
apply (@tag_op_new_tags_invariant Fragment.ucd Fragment.show
         (mkConfig true false false) (entity_with [])
         [("genre"%string,
           VList [VStr (u "Action"); VStr (u "action"); VStr (u "Drama");
                  VDict [("name"%string, VStr (u "Action/Adventure"))]])]
         [TagOp "genres" [u "Action"; u "Drama"] []]
         "genres" [u "Action"; u "Drama"] []).
- reflexivity.
- simpl. left. reflexivity.
Defined.

(* ================================================================== *)
(** * Planning again after a plan was applied *)

Section ReplanFacts.
Context `{UnicodeData} `{PyShow}.

Lemma existing_names_of_clean (tags : list pystr) :
  (forall t, In t tags -> strip t = t /\ truthy t = true) ->
  flat_map existing_name (map TagStr tags) = tags.
Proof.
induction tags as [|t tags IH]; intros Hc; [reflexivity|].
simpl. destruct (Hc t (or_introl eq_refl)) as [-> ->]. simpl.
f_equal. apply IH. intros t' Ht'. apply Hc. now right.
Qed.

Lemma clean_existing_of_unique (tags seen : list pystr) :
  NoDup (map lower tags) ->
  (forall t, In t tags -> ~ In (lower t) seen) ->
  clean_existing_from seen tags = tags.
Proof.
revert seen. induction tags as [|t tags IH]; intros seen ND Hs; [reflexivity|].
simpl in *. inversion ND as [|? ? Hn ND']; subst.
rewrite (proj2 (mem_not_In _ _) (Hs t (or_introl eq_refl))). simpl.
f_equal. apply IH; [assumption|].
intros t' Ht' [E|K].
- apply Hn. rewrite E. now apply in_map.
- apply (Hs t'); [now right | assumption].
Qed.

(** C2 fails on the code: the planner never compares the new tags with
    the tags the item already carries.  If a tag field produced a TagOp
    and the item's collection is then set to exactly the planned new
    tags, planning the same field again produces the same TagOp (now with
    the existing tags equal to the new ones) instead of nothing. *)
Theorem applied_tag_plan_is_planned_again
        (plex_item plex_item' : Entity) (rest_field : string)
        (nfo_value : NfoValue) (new existing : list pystr) :
  plan_tag plex_item rest_field nfo_value = Ok [TagOp rest_field new existing] ->
  attr plex_item' rest_field = Some (PTags (map TagStr new)) ->
  plan_tag plex_item' rest_field nfo_value = Ok [TagOp rest_field new new].
Proof.
intros P A.
assert (N : new = refined_tags_of (unique_tags_of (tag_names_of nfo_value)))
  by (eapply plan_tag_new; [exact P | now left]).
destruct (unique_from_spec (tag_names_of nfo_value) []) as (S & ND & _ & _).
rewrite (clean_tokens (tag_names_of nfo_value)) in S by apply tag_names_clean.
fold (unique_tags_of (tag_names_of nfo_value)) in S, ND.
pose proof (subseq_filter
              (fun tag => negb (existsb (fun sep => has_char sep tag) combined_seps))
              (unique_tags_of (tag_names_of nfo_value))) as R.
fold (refined_tags_of (unique_tags_of (tag_names_of nfo_value))) in R.
rewrite <- N in R.
assert (C : forall t, In t new -> strip t = t /\ truthy t = true).
{ intros t Ht. apply (tag_names_clean nfo_value).
  eapply subseq_In; [exact S|]. eapply subseq_In; eassumption. }
assert (ND' : NoDup (map lower new))
  by (eapply subseq_NoDup; [apply subseq_map; exact R | exact ND]).
revert P. unfold plan_tag. rewrite A.
destruct (unique_tags_of (tag_names_of nfo_value)) as [|a l]; [discriminate|].
rewrite <- N.
assert (I : iter_attr (Some (PTags (map TagStr new))) = Ok (map TagStr new))
  by (unfold iter_attr; simpl; now destruct new).
rewrite I, (@existing_names_of_clean new C).
rewrite (@clean_existing_of_unique new [] ND') by (intros t _ []).
destruct (iter_attr (attr plex_item rest_field)); [|discriminate].
destruct new; [discriminate|]. reflexivity.
Qed.

End ReplanFacts.

Lemma applied_tag_plan_is_planned_again_witness :
  let cfg := mkConfig true false false in
  let nfo_data := [("genre"%string, VStr (u "Action, Drama"))] in
  let before := entity_with [("genres"%string, PTags [])] in
  let after := entity_with
                 [("genres"%string, PTags [TagStr (u "Action"); TagStr (u "Drama")])] in
  @plan Fragment.ucd Fragment.show cfg before nfo_data
    = Ok [TagOp "genres" [u "Action"; u "Drama"] []]
  /\ @plan Fragment.ucd Fragment.show cfg after nfo_data
    = Ok [TagOp "genres" [u "Action"; u "Drama"] [u "Action"; u "Drama"]]
  /\ @plan_tag Fragment.ucd Fragment.show after "genres" (VStr (u "Action, Drama"))
    = Ok [TagOp "genres" [u "Action"; u "Drama"] [u "Action"; u "Drama"]].
Proof.
split; [reflexivity|]. split; [reflexivity|].
exact (@applied_tag_plan_is_planned_again Fragment.ucd Fragment.show
         (entity_with [("genres"%string, PTags [])])
         (entity_with [("genres"%string, PTags [TagStr (u "Action"); TagStr (u "Drama")])])
         "genres" (VStr (u "Action, Drama")) [u "Action"; u "Drama"] []
         eq_refl eq_refl).
Defined.

(* ================================================================== *)
(** * The model on the scenarios of the specification *)

Example year_in_parentheses :
  @extract_year Fragment.ucd (u "Alien (1979)") = (u "Alien", Some 1979).
Proof. reflexivity. Qed.

Example year_forms_agree :
  @extract_year Fragment.ucd (u "Movie - 1999") = (u "Movie", Some 1999)
  /\ @extract_year Fragment.ucd (u "Movie [1999]") = (u "Movie", Some 1999)
  /\ @extract_year Fragment.ucd (u "Movie (1999)") = (u "Movie", Some 1999).
Proof. repeat split. Qed.

Example no_year : @extract_year Fragment.ucd (u "Alien") = (u "Alien", None).
Proof. reflexivity. Qed.

(** "Alien 3" against the search "Alien": substring and prefix, 25. *)
Example alien_3_scores_25 :
  best_score (@search_plex_for_media_by_title Fragment.ucd
                (server_with [item_titled "Alien 3" None None]) (u "Alien") None None)
  = 25.
Proof. reflexivity. Qed.

(** {title: "Matrix", year: 1999} against one candidate of that title and
    year: a single confident match, selected in both modes. *)
Example matrix_is_selected :
  let matrix := item_titled "Matrix" (Some 1999) None in
  forall automatic_mode,
    @resolve_plex_item Fragment.ucd (server_with [matrix]) (u "Matrix (1999)")
                       None automatic_mode None empty_world
    = (Ok (Some matrix), empty_world).
Proof. intros matrix [|]; reflexivity. Qed.

(** Two candidates titled "Dune" and no year in the query: both score 99;
    unattended mode skips, interactive mode prompts (here the user picks
    the second entry, or the closing "Skip" entry). *)
Example two_dunes :
  let dune1 := item_titled "Dune" (Some 1984) None in
  let dune2 := item_titled "Dune" (Some 2021) None in
  let plex := server_with [dune1; dune2] in
  nb_excellent_match
    (@search_plex_for_media_by_title Fragment.ucd plex (u "Dune") None None) = 2
  /\ fst (@resolve_plex_item Fragment.ucd plex (u "Dune") None true None empty_world)
     = Ok None
  /\ fst (@resolve_plex_item Fragment.ucd plex (u "Dune") None false None
            (mkWorld [] [] [] [] [LOther; LNumber 2] []))
     = Ok (Some dune2)
  /\ @resolve_plex_item Fragment.ucd plex (u "Dune") None false None
            (mkWorld [] [] [] [] [LNumber 3] [])
     = (Ok None,
        mkWorld [u "Dune: User did not select any match."] [] [] [] [] []).
Proof. repeat split. Qed.

(** A locked summary with unlocking disallowed is left out of the plan;
    the other fields are still planned. *)
Example locked_summary_is_skipped :
  let plex_item :=
    mkEntity (fun n => dict_get n [("summary"%string, PStr (u "old"));
                                   ("studio"%string, PStr (u "Fox"))])
             (fun f => Some (String.eqb f "summary")) in
  @plan Fragment.ucd Fragment.show (mkConfig false false false) plex_item
        [("plot"%string, VStr (u "new")); ("studio"%string, VStr (u "Brandywine"))]
  = Ok [FieldOp "studio" (u "Brandywine") (u "Fox")].
Proof. reflexivity. Qed.

(** A combined token is dropped, not guessed. *)
Example combined_token_is_dropped :
  @plan Fragment.ucd Fragment.show (mkConfig true false false) (entity_with [])
        [("genre"%string,
          VList [VDict [("name"%string, VStr (u "Action/Adventure"))];
                 VStr (u "Drama")])]
  = Ok [TagOp "genres" [u "Drama"] []].
Proof. reflexivity. Qed.

(** The singular names the validation pass falls back to. *)
Example singular_names :
  rstrip_s "genres" = "genre"%string
  /\ rstrip_s "countries" = "countrie"%string
  /\ rstrip_s "actors" = "actor"%string.
Proof. repeat split. Qed.

(** With unlocking disallowed, executing a TagOp whose new tags are all
    present already issues no call. *)
Example append_mode_adds_nothing :
  @op_calls Fragment.ucd (mkConfig false false false)
            (TagOp "genres" [u "Action"; u "Drama"] [u "action"; u "Drama"])
  = [].
Proof. reflexivity. Qed.

(* ================================================================== *)
(** * Prompting and choosing *)

Lemma read_choice_spec n lines idx rest :
  read_choice n lines = (Ok idx, rest) ->
  0 <= idx < n
  /\ exists pre,
      lines = pre ++ LNumber (Z.to_nat (idx + 1)) :: rest
      /\ forallb (rejected_line n) pre = true.
Proof.
induction lines as [|l lines IH]; simpl; [discriminate|].
destruct l as [|k| |].
- discriminate.
- destruct ((0 <=? Z.of_nat k - 1) && (Z.of_nat k - 1 <? n)) eqn:E.
  + intros [= <- <-]. apply andb_true_iff in E as [E1 E2].
    apply Z.leb_le in E1. apply Z.ltb_lt in E2. split; [lia|].
    exists []. simpl. split; [|reflexivity].
    replace (Z.to_nat (Z.of_nat k - 1 + 1)) with k by lia. reflexivity.
  + intros R. destruct (IH R) as (B & pre & -> & F). split; [exact B|].
    exists (LNumber k :: pre). simpl. now rewrite E, F.
- discriminate.
- intros R. destruct (IH R) as (B & pre & -> & F). split; [exact B|].
  exists (LOther :: pre). simpl. now rewrite F.
Qed.

(** X1: when [prompt_choice] returns, the index is within the list of
    choices, it is the first acceptable line of the input (every line
    before it was rejected), and the input is consumed up to that line;
    nothing else of the world changes. *)
Theorem prompt_choice_first_valid (choices : list pystr) (w w' : World) (idx : Z) :
  prompt_choice choices w = (Ok idx, w') ->
  0 <= idx < Z.of_nat (List.length choices)
  /\ w' = set_stdin (stdin w') w
  /\ exists pre,
      stdin w = pre ++ LNumber (Z.to_nat (idx + 1)) :: stdin w'
      /\ forallb (rejected_line (Z.of_nat (List.length choices))) pre = true.
Proof.
unfold prompt_choice.
destruct (read_choice (Z.of_nat (List.length choices)) (stdin w)) as [r rest] eqn:E.
intros [= -> <-]. simpl.
destruct (read_choice_spec _ _ E) as (B & pre & A & F).
split; [exact B|]. split; [reflexivity|]. now exists pre.
Qed.

Lemma prompt_choice_first_valid_witness :
  0 <= 1 < Z.of_nat (List.length [u "a"; u "b"; u "Skip"])
  /\ mkWorld [] [] [] [] [LQuit] [] = set_stdin [LQuit] (mkWorld [] [] [] [] [LOther; LNumber 7; LNumber 2; LQuit] [])
  /\ exists pre,
      [LOther; LNumber 7; LNumber 2; LQuit] = pre ++ LNumber (Z.to_nat (1 + 1)) :: [LQuit]
      /\ forallb (rejected_line (Z.of_nat (List.length [u "a"; u "b"; u "Skip"]))) pre = true.
Proof.
exact (@prompt_choice_first_valid [u "a"; u "b"; u "Skip"]
         (mkWorld [] [] [] [] [LOther; LNumber 7; LNumber 2; LQuit] [])
         (mkWorld [] [] [] [] [LQuit] []) 1 eq_refl).
Defined.

Lemma firstn_incl {A} n (l : list A) x : In x (firstn n l) -> In x l.
Proof.
revert l; induction n as [|n IH]; intros [|y l]; simpl; try contradiction.
intros [->|Hx]; [now left | right; now apply IH].
Qed.

(** X2: [choose_plex_item] returns one of the candidates it was given,
    or nothing; it returns nothing only for an empty list or when the
    first acceptable line of the input is the number of the closing
    "Skip" entry.  The index typed by the user is never out of range. *)
Theorem choose_plex_item_member (cands : list PlexItem) (w w' : World)
        (r : option PlexItem) :
  choose_plex_item cands w = (Ok r, w') ->
  match r with
  | Some c => In c cands
  | None =>
      cands = []
      \/ exists pre,
          stdin w = pre ++ LNumber (S (List.length cands)) :: stdin w'
          /\ forallb (rejected_line (Z.of_nat (S (List.length cands)))) pre = true
  end.
Proof.
destruct cands as [|c1 [|c2 cs]].
- intros [= <- _]. now left.
- intros [= <- _]. now left.
- unfold choose_plex_item, bind.
  set (cands := c1 :: c2 :: cs).
  set (display := map _ cands ++ _).
  assert (L : List.length display = S (List.length cands)).
  { unfold display. rewrite length_app, length_map. simpl. lia. }
  unfold prompt_choice.
  destruct (read_choice (Z.of_nat (List.length display)) (stdin w))
    as [[idx|e] rest] eqn:P; [|discriminate].
  destruct (read_choice_spec _ _ P) as (B & pre & A & F).
  rewrite L in B, F.
  destruct (Z.eqb_spec idx (Z.of_nat (List.length display) - 1)) as [E|NE].
  + intros [= <- <-]. right. exists pre. split; [|exact F].
    cbn [stdin set_stdin]. rewrite A. do 3 f_equal. rewrite E, L. lia.
  + unfold ret. intros [= <- <-].
    destruct (nth_error cands (Z.to_nat idx)) as [c|] eqn:N.
    * eapply nth_error_In, N.
    * apply nth_error_None in N. rewrite L in NE. lia.
Qed.

Lemma choose_plex_item_member_witness :
  In (item_titled "Dune" (Some 2021) None)
     [item_titled "Dune" (Some 1984) None; item_titled "Dune" (Some 2021) None].
Proof.
exact (@choose_plex_item_member
         [item_titled "Dune" (Some 1984) None; item_titled "Dune" (Some 2021) None]
         (mkWorld [] [] [] [] [LNumber 0; LNumber 2] [])
         (mkWorld [] [] [] [] [] [])
         (Some (item_titled "Dune" (Some 2021) None)) eq_refl).
Defined.

(* ================================================================== *)
(** * The shape of a search result and what resolution returns *)

Section ResultFacts.
Context `{UnicodeData}.

Lemma rank_confident scored :
  is_confident (rank scored) = true -> 1 <= nb_excellent_match (rank scored).
Proof.
unfold rank. destruct (sort scored) as [|best rest]; simpl; [discriminate|].
intros C. rewrite C. simpl. lia.
Qed.

Lemma rank_shape scored :
  best_match (rank scored) = hd_error (candidates (rank scored))
  /\ 0 <= nb_excellent_match (rank scored)
       <= Z.of_nat (List.length (candidates (rank scored)))
  /\ is_confident (rank scored) = (99 <=? best_score (rank scored)).
Proof.
unfold rank. destruct (sort scored) as [|best rest]; simpl.
- repeat split; lia.
- split; [reflexivity|]. split; [|reflexivity].
  pose proof (filter_length_le (fun x => 99 <=? sc_score x) rest) as L.
  rewrite length_map.
  destruct (99 <=? sc_score best); simpl; lia.
Qed.

Lemma search_result_cases (P : SearchResult -> Prop)
      (plex : PlexServer) (media_title : pystr)
      (media_type : option pystr) (parent_plex_item : option PlexItem) :
  P no_result ->
  (forall p, P (mkSearchResult [p] (Some p) 100 true 1)) ->
  (forall scored, P (rank scored)) ->
  P (search_plex_for_media_by_title plex media_title media_type parent_plex_item).
Proof.
intros N S R.
unfold search_plex_for_media_by_title, score_candidates.
destruct (negb (truthy (strip media_title))); [exact N|].
destruct (extract_year (strip media_title)) as [raw y].
destruct parent_plex_item as [p|].
- destruct (parent_self_match _ y p); [apply S|].
  destruct (scoped_candidates_of media_type (Some p)); [|apply R].
  destruct (search plex raw); [apply R | exact N].
- destruct (scoped_candidates_of media_type None); [|apply R].
  destruct (search plex raw); [apply R | exact N].
Qed.

Lemma search_best_is_head plex media_title media_type parent_plex_item :
  let results := search_plex_for_media_by_title plex media_title media_type
                                                parent_plex_item in
  best_match results = hd_error (candidates results).
Proof.
cbv zeta. apply search_result_cases; try reflexivity.
intros scored. apply rank_shape.
Qed.

Lemma search_single_excellent_confident plex media_title media_type parent_plex_item :
  let results := search_plex_for_media_by_title plex media_title media_type
                                                parent_plex_item in
  nb_excellent_match results = 1 -> is_confident results = true.
Proof.
cbv zeta. apply search_result_cases; try reflexivity; try discriminate.
intros scored E. destruct (is_confident (rank scored)) eqn:C; [reflexivity|].
apply rank_not_confident in C. lia.
Qed.

Lemma choose_returns_member (cands : list PlexItem) (w w' : World) (c : PlexItem) :
  choose_plex_item cands w = (Ok (Some c), w') -> In c cands.
Proof.
destruct cands as [|c1 [|c2 cs]]; try discriminate.
- intros [= <- _]. now left.
- unfold choose_plex_item, bind, prompt_choice.
  destruct (read_choice _ (stdin w)) as [[idx|e] rest]; [|discriminate].
  destruct (idx =? _); [discriminate|].
  unfold ret. intros [= E _]. eapply nth_error_In, E.
Qed.

(** X3: in every result of [search_plex_for_media_by_title] the best
    match is the first candidate, the result is confident exactly when at
    least one candidate is excellent, the number of excellent matches
    does not exceed the number of candidates, and confidence is the test
    99 <= best score. *)
Theorem search_result_shape (plex : PlexServer) (media_title : pystr)
        (media_type : option pystr) (parent_plex_item : option PlexItem) :
  let results := search_plex_for_media_by_title plex media_title media_type
                                                parent_plex_item in
  best_match results = hd_error (candidates results)
  /\ (is_confident results = true <-> 1 <= nb_excellent_match results)
  /\ 0 <= nb_excellent_match results <= Z.of_nat (List.length (candidates results))
  /\ is_confident results = (99 <=? best_score results).
Proof.
cbv zeta. apply search_result_cases.
- simpl. repeat split; try lia; discriminate.
- intros p. simpl. repeat split; try lia; discriminate.
- intros scored. destruct (rank_shape scored) as (A & B & C).
  split; [exact A|]. split; [|split; assumption].
  split; [apply rank_confident|].
  intros N. destruct (is_confident (rank scored)) eqn:E; [reflexivity|].
  apply rank_not_confident in E. lia.
Qed.

(** X4: in automatic mode [resolve_plex_item] never raises and never
    reads the input; it returns a candidate exactly when one candidate,
    and only one, is excellent, and that candidate is the first of the
    ranking.  It adds to the skipped outcomes of [STATS] only when the
    search gave no candidate; a title left unresolved among several
    candidates leaves no record there. *)
Theorem automatic_mode_outcome (plex : PlexServer) (media_title : pystr)
        (media_type : option pystr) (parent_plex_item : option PlexItem)
        (w : World) :
  let results := search_plex_for_media_by_title plex media_title media_type
                                                parent_plex_item in
  exists r w',
    resolve_plex_item plex media_title media_type true parent_plex_item w = (Ok r, w')
    /\ stdin w' = stdin w
    /\ stats_skipped w'
       = stats_skipped w
         ++ match candidates results with
            | [] => [media_title ++ u ": No candidate found."]
            | _ :: _ => []
            end
    /\ forall c, r = Some c <->
                 (nb_excellent_match results = 1
                  /\ hd_error (candidates results) = Some c).
Proof.
cbv zeta.
pose proof (search_best_is_head plex media_title media_type parent_plex_item) as B.
pose proof (search_single_excellent_confident plex media_title media_type
                                              parent_plex_item) as K.
cbv zeta in B, K.
unfold resolve_plex_item.
set (results := search_plex_for_media_by_title plex media_title media_type
                                               parent_plex_item) in *.
destruct (candidates results) as [|c0 cs] eqn:E.
- eexists. eexists. split; [reflexivity|]. simpl.
  split; [reflexivity|]. split; [reflexivity|].
  intros c. split; [discriminate | intros [_ D]; discriminate].
- destruct (Z.eqb_spec (nb_excellent_match results) 1) as [E1|N1].
  + rewrite (K E1). simpl.
    eexists. eexists. split; [reflexivity|].
    split; [reflexivity|]. split; [now rewrite app_nil_r|].
    intros c. rewrite B. simpl. split; [intros D; now split | now intros [_ D]].
  + rewrite andb_false_r.
    destruct (1 <? nb_excellent_match results); eexists; eexists;
      (split; [reflexivity|]); (split; [reflexivity|]);
      (split; [now rewrite app_nil_r|]);
      intros c; (split; [discriminate | intros [D _]; contradiction]).
Qed.

(** X5: whatever the mode and the input typed, an item returned by
    [resolve_plex_item] is one of the candidates of the search. *)
Theorem resolved_item_is_a_candidate (plex : PlexServer) (media_title : pystr)
        (media_type : option pystr) (automatic_mode : bool)
        (parent_plex_item : option PlexItem) (w w' : World) (c : PlexItem) :
  resolve_plex_item plex media_title media_type automatic_mode parent_plex_item w
  = (Ok (Some c), w') ->
  In c (candidates (search_plex_for_media_by_title plex media_title media_type
                                                   parent_plex_item)).
Proof.
pose proof (search_best_is_head plex media_title media_type parent_plex_item) as B.
cbv zeta in B.
unfold resolve_plex_item.
destruct (candidates _) as [|c0 cs] eqn:E; [discriminate|].
rewrite B. simpl hd_error.
destruct automatic_mode.
- destruct (is_confident _ && _).
  + intros [= <- _]. now left.
  + destruct (1 <? _); discriminate.
- destruct (is_confident _ && _).
  + intros [= <- _]. now left.
  + destruct (1 <? _).
    * unfold bind.
      destruct (choose_plex_item _ w) as [[[c'|]|e] w1] eqn:Ch; try discriminate.
      intros [= <- _]. apply choose_returns_member in Ch.
      eapply firstn_incl, Ch.
    * discriminate.
Qed.

(** X6: every score lies between 0 and 130, and between 0 and 100 when
    no parent is given (only the parent bonus of 30 goes beyond 100). *)
Theorem final_score_bounds (norm_search media_title_raw : pystr)
        (search_year : option Z) (parent : option PlexItem) (cand : PlexItem) :
  0 <= final_score norm_search media_title_raw search_year parent cand <= 130
  /\ 0 <= final_score norm_search media_title_raw search_year None cand <= 100.
Proof.
unfold final_score, base_score.
repeat match goal with
       | |- context [if ?b then _ else _] => destruct b
       | |- context [match ?p with Some _ => _ | None => _ end] => destruct p
       end; lia.
Qed.

End ResultFacts.

Lemma resolved_item_is_a_candidate_witness :
  In (item_titled "Dune" (Some 2021) None)
     (candidates (@search_plex_for_media_by_title Fragment.ucd
                    (server_with [item_titled "Dune" (Some 1984) None;
                                  item_titled "Dune" (Some 2021) None])
                    (u "Dune") None None)).
Proof.
exact (@resolved_item_is_a_candidate Fragment.ucd
         (server_with [item_titled "Dune" (Some 1984) None;
                       item_titled "Dune" (Some 2021) None])
         (u "Dune") None false None
         (mkWorld [] [] [] [] [LNumber 2] []) (mkWorld [] [] [] [] [] [])
         (item_titled "Dune" (Some 2021) None) eq_refl).
Defined.

(* ================================================================== *)
(** * The trailing year and the splitting of tag strings *)

Section YearFacts.
Context `{UnicodeData}.

Lemma lstrip_suffix (l : pystr) : exists ws, l = ws ++ lstrip l.
Proof.
induction l as [|c l (ws & IH)]; simpl; [now exists []|].
destruct (isspace c); [|now exists []].
exists (c :: ws). simpl. now rewrite <- IH.
Qed.

Lemma rstrip_snoc (l : pystr) (c : N) :
  isspace c = false -> rstrip (l ++ [c]) = l ++ [c].
Proof.
intros E. induction l as [|a l IH]; simpl; [now rewrite E|].
rewrite IH. destruct (l ++ [c]) eqn:K; [|reflexivity].
now destruct l.
Qed.

Lemma rstrip_rev_clean (b : pystr) : clean_front b -> rstrip (rev b) = rev b.
Proof.
destruct b as [|c b]; simpl; [reflexivity|]. apply rstrip_snoc.
Qed.

Lemma four_digits_spec (r r2 : pystr) (y : Z) :
  (forall c d, decimal c = Some d -> 0 <= d <= 9) ->
  four_digits r = Some (y, r2) ->
  0 <= y <= 9999 /\ exists ds, r = ds ++ r2 /\ List.length ds = 4%nat.
Proof.
intros D. unfold four_digits.
destruct r as [|d4 [|d3 [|d2 [|d1 rest]]]]; try discriminate.
destruct (decimal d1) as [a|] eqn:E1; [|discriminate].
destruct (decimal d2) as [b|] eqn:E2; [|discriminate].
destruct (decimal d3) as [c|] eqn:E3; [|discriminate].
destruct (decimal d4) as [d|] eqn:E4; [|discriminate].
intros E.
assert (Ey : 1000 * a + 100 * b + 10 * c + d = y /\ rest = r2)
  by (split; congruence).
destruct Ey as [<- <-]. clear E.
pose proof (D _ _ E1). pose proof (D _ _ E2).
pose proof (D _ _ E3). pose proof (D _ _ E4).
split; [lia|]. now exists [d4; d3; d2; d1].
Qed.

Lemma year_suffix_spec (r before : pystr) (y : Z) :
  (forall c d, decimal c = Some d -> 0 <= d <= 9) ->
  year_suffix r = Some (y, before) ->
  0 <= y <= 9999
  /\ clean_front before
  /\ exists m, r = m ++ before /\ (5 <= List.length m)%nat.
Proof.
intros D. unfold year_suffix.
set (r1 := match r with
           | c :: t => if is_close c then t else r
           | [] => r
           end).
assert (R : exists c0, r = c0 ++ r1).
{ unfold r1. destruct r as [|c t]; [now exists []|].
  destruct (is_close c); [now exists [c] | now exists []]. }
destruct R as (c0 & R).
destruct (four_digits r1) as [[y' r2]|] eqn:F; [|discriminate].
destruct (four_digits_spec _ D F) as (Y & ds & R1 & L).
destruct (lstrip_suffix r2) as (ws & R2).
destruct (lstrip r2) as [|c r3] eqn:S; [discriminate|].
destruct (is_open c); [|discriminate].
intros [= <- <-]. split; [exact Y|]. split; [apply lstrip_clean_front|].
destruct (lstrip_suffix r3) as (ws' & R3).
exists (c0 ++ ds ++ ws ++ [c] ++ ws').
split.
- rewrite R, R1, R2. rewrite R3 at 1. now rewrite <- !app_assoc.
- rewrite !length_app, L. simpl. lia.
Qed.

(** X7: when a trailing year is found in a stripped title, the year lies
    between 0 and 9999, the title returned is the input without a suffix
    of at least five characters (an opening character and four digits),
    and it carries no surrounding white space. *)
Theorem extract_year_removes_suffix (media_title_raw title' : pystr) (y : Z) :
  (forall c d, decimal c = Some d -> 0 <= d <= 9) ->
  clean_front media_title_raw ->
  extract_year media_title_raw = (title', Some y) ->
  0 <= y <= 9999
  /\ strip title' = title'
  /\ exists matched,
      media_title_raw = title' ++ matched /\ (5 <= List.length matched)%nat.
Proof.
intros D C. unfold extract_year.
destruct (year_suffix (rev media_title_raw)) as [[y' before]|] eqn:S;
  [|discriminate].
intros [= <- <-].
destruct (year_suffix_spec _ D S) as (Y & Cb & m & R & L).
split; [exact Y|]. split; [apply strip_idem|].
assert (E : media_title_raw = rev before ++ rev m).
{ rewrite <- (rev_involutive media_title_raw), R. apply rev_app_distr. }
assert (Cf : clean_front (rev before)).
{ destruct (rev before) as [|c t] eqn:K; [exact I|].
  rewrite E in C. exact C. }
exists (rev m). split.
- unfold strip. rewrite (lstrip_of_clean_front _ Cf).
  now rewrite (rstrip_rev_clean _ Cb).
- now rewrite length_rev.
Qed.

End YearFacts.

Lemma extract_year_removes_suffix_witness :
  0 <= 1979 <= 9999
  /\ @strip Fragment.ucd (u "Alien") = u "Alien"
  /\ exists matched,
      u "Alien (1979)" = u "Alien" ++ matched /\ (5 <= List.length matched)%nat.
Proof.
refine (@extract_year_removes_suffix Fragment.ucd (u "Alien (1979)") (u "Alien") 1979
          _ eq_refl eq_refl).
intros c d. unfold decimal, Fragment.ucd, Fragment.decimal.
destruct ((48 <=? c) && (c <=? 57))%N eqn:E; [|discriminate].
apply andb_true_iff in E as [E1 E2].
apply N.leb_le in E1. apply N.leb_le in E2. intros [= <-]. lia.
Defined.

Lemma re_split_from_spec (s cur : pystr) (in_sep : bool) :
  List.concat (re_split_from cur in_sep s)
  = rev cur ++ filter (fun c => negb (is_sep c)) s
  /\ ((forall c, In c cur -> is_sep c = false) ->
      Forall (fun part => forall c, In c part -> is_sep c = false)
             (re_split_from cur in_sep s)).
Proof.
revert cur in_sep. induction s as [|c s IH]; intros cur in_sep.
- simpl. rewrite !app_nil_r. split; [reflexivity|].
  intros Hc. constructor; [|constructor].
  intros x Hx. apply Hc. now apply in_rev.
- cbn [re_split_from filter]. destruct (is_sep c) eqn:E; cbn [negb].
  + destruct in_sep.
    * apply IH.
    * destruct (IH [] true) as (A & B). split.
      -- cbn [List.concat]. rewrite A. reflexivity.
      -- intros Hc. constructor; [|apply B; intros x []].
         intros x Hx. apply Hc. now apply in_rev.
  + destruct (IH (c :: cur) false) as (A & B). split.
    * rewrite A. simpl. now rewrite <- app_assoc.
    * intros Hc. apply B. intros x [<-|Hx]; [exact E | now apply Hc].
Qed.

(** X8: splitting a tag string on its separators loses nothing but the
    separators: the parts, put together, are the string without its
    commas, slashes, pipes and semicolons, and no part contains one. *)
Theorem re_split_keeps_all_but_separators (s : pystr) :
  List.concat (re_split s) = filter (fun c => negb (is_sep c)) s
  /\ Forall (fun part => forall c, In c part -> is_sep c = false) (re_split s).
Proof.
unfold re_split. destruct (re_split_from_spec s [] false) as (A & B).
split; [exact A | apply B; intros c []].
Qed.

(* ================================================================== *)
(** * The calls of the executor *)

Lemma chunks5_bounded {A} (n : nat) (l : list A) :
  (List.length l <= n)%nat ->
  List.concat (chunks5 l) = l
  /\ Forall (fun b => (1 <= List.length b <= 5)%nat) (chunks5 l).
Proof.
revert l. induction n as [|n IH]; intros l Hl.
- destruct l; [|simpl in Hl; lia]. simpl. split; constructor.
- destruct l as [|a [|b [|c [|d [|e rest]]]]]; simpl;
    try (split; [reflexivity | repeat constructor; simpl; lia]).
  destruct (IH rest) as (C & F); [simpl in Hl; lia|].
  split; [now rewrite C|]. constructor; [simpl; lia | exact F].
Qed.

Lemma chunks5_spec {A} (l : list A) :
  List.concat (chunks5 l) = l
  /\ Forall (fun b => (1 <= List.length b <= 5)%nat) (chunks5 l).
Proof. apply (@chunks5_bounded A (List.length l)). lia. Qed.

Section ExecutorFacts.
Context `{UnicodeData} `{PyShow}.

(** X9: with unlocking allowed a tag operation is executed as removals
    followed by additions; the removals carry exactly the existing tags
    and the additions exactly the new tags, in order, every call locks
    the field, and no call carries more than five tags or none. *)
Theorem replace_mode_batches (cfg : Config) (rest_field : string)
        (new existing : list pystr) :
  ALLOW_UNLOCK cfg = true ->
  exists removed added : list (list pystr),
    op_calls cfg (TagOp rest_field new existing)
    = map (fun items => editTags rest_field items true true) removed
      ++ map (fun items => editTags rest_field items false true) added
    /\ List.concat removed = existing
    /\ List.concat added = new
    /\ Forall (fun b => (1 <= List.length b <= 5)%nat) (removed ++ added).
Proof.
intros A. exists (chunks5 existing), (chunks5 new).
unfold op_calls. rewrite A.
destruct (chunks5_spec existing) as (C1 & F1).
destruct (chunks5_spec new) as (C2 & F2).
split; [reflexivity|]. split; [exact C1|]. split; [exact C2|].
apply Forall_app. now split.
Qed.

(** X10: with unlocking disallowed a tag operation never removes a tag:
    every call is an addition that locks the field, in batches of one to
    five, and the tags added are exactly the new tags whose lower-case
    form is not among the existing ones. *)
Theorem append_mode_only_adds_missing (cfg : Config) (rest_field : string)
        (new existing : list pystr) :
  ALLOW_UNLOCK cfg = false ->
  exists added : list (list pystr),
    op_calls cfg (TagOp rest_field new existing)
    = map (fun items => editTags rest_field items false true) added
    /\ Forall (fun b => (1 <= List.length b <= 5)%nat) added
    /\ subseq (List.concat added) new
    /\ forall t, In t (List.concat added)
                 <-> In t new /\ ~ In (lower t) (map lower existing).
Proof.
intros A.
set (tags_to_add :=
       filter (fun t => negb (mem (lower t) (map lower existing))) new).
exists (chunks5 tags_to_add).
unfold op_calls. rewrite A. fold tags_to_add.
destruct (chunks5_spec tags_to_add) as (C & F).
split; [reflexivity|]. split; [exact F|]. rewrite C.
split; [apply subseq_filter|].
intros t. unfold tags_to_add. rewrite filter_In, negb_true_iff, mem_not_In.
reflexivity.
Qed.

Lemma run_calls_inv (svc : Service) (cs : list Call) (w w' : World)
      (r : result unit) :
  run_calls svc cs w = (r, w') ->
  stats_updated w' = stats_updated w
  /\ stats_skipped w' = stats_skipped w
  /\ stats_failed w' = stats_failed w
  /\ exists issued, calls w' = calls w ++ issued
       /\ (r = Ok tt -> issued = cs /\ Forall (fun c => raises svc c = false) cs).
Proof.
revert w. induction cs as [|c cs IH]; intros w; simpl.
- intros [= <- <-]. repeat split. exists []. rewrite app_nil_r.
  split; [reflexivity|]. intros _. split; constructor.
- unfold bind, call. destruct (raises svc c) eqn:R.
  + intros [= <- <-]. simpl. repeat split. exists [c].
    split; [reflexivity | discriminate].
  + intros E. destruct (IH _ E) as (A & B & C & issued & D & K).
    simpl in A, B, C, D. repeat split; try assumption.
    exists (c :: issued). split; [rewrite D; now rewrite <- app_assoc|].
    intros Er. destruct (K Er) as [-> F]. split; [reflexivity|].
    now constructor.
Qed.

End ExecutorFacts.

Lemma replace_mode_batches_witness :
  exists removed added : list (list pystr),
    @op_calls Fragment.ucd (mkConfig true false false)
              (TagOp "genres" [u "Action"] [u "Drama"])
    = map (fun items => editTags "genres" items true true) removed
      ++ map (fun items => editTags "genres" items false true) added
    /\ List.concat removed = [u "Drama"]
    /\ List.concat added = [u "Action"]
    /\ Forall (fun b => (1 <= List.length b <= 5)%nat) (removed ++ added).
Proof.
exact (@replace_mode_batches Fragment.ucd (mkConfig true false false) "genres"
         [u "Action"] [u "Drama"] eq_refl).
Defined.

Lemma append_mode_only_adds_missing_witness :
  exists added : list (list pystr),
    @op_calls Fragment.ucd (mkConfig false false false)
              (TagOp "genres" [u "Action"; u "Drama"] [u "drama"])
    = map (fun items => editTags "genres" items false true) added
    /\ Forall (fun b => (1 <= List.length b <= 5)%nat) added
    /\ subseq (List.concat added) [u "Action"; u "Drama"]
    /\ forall t, In t (List.concat added)
                 <-> In t [u "Action"; u "Drama"]
                     /\ ~ In (@lower Fragment.ucd t) (map (@lower Fragment.ucd) [u "drama"]).
Proof.
exact (@append_mode_only_adds_missing Fragment.ucd (mkConfig false false false)
         "genres" [u "Action"; u "Drama"] [u "drama"] eq_refl).
Defined.

(* ================================================================== *)
(** * What the planner emits *)

Section PlannerFacts.
Context `{UnicodeData} `{PyShow}.

Lemma plan_tag_only_tags plex_item rest_field nfo_value ops f v o :
  plan_tag plex_item rest_field nfo_value = Ok ops -> ~ In (FieldOp f v o) ops.
Proof.
unfold plan_tag.
destruct (unique_tags_of (tag_names_of nfo_value)); [intros [= <-] []|].
destruct (iter_attr (attr plex_item rest_field)); [|discriminate].
destruct (refined_tags_of _); intros [= <-]; simpl; intuition discriminate.
Qed.

Lemma plan_entries cfg plex_item nfo_data ops op :
  plan cfg plex_item nfo_data = Ok ops ->
  In op ops ->
  exists nfo_key nfo_value here,
    In (nfo_key, nfo_value) nfo_data
    /\ plan_entry cfg plex_item nfo_key nfo_value = Ok here
    /\ In op here.
Proof.
revert ops. induction nfo_data as [|[k v] rest IH]; intros ops; cbn [plan].
- intros [= <-] [].
- destruct (plan_entry cfg plex_item k v) as [here|] eqn:E; [|discriminate].
  destruct (plan cfg plex_item rest) as [ops'|]; [|discriminate].
  intros [= <-] Hin. apply in_app_or in Hin as [Hin|Hin].
  + exists k, v, here. split; [now left|]. split; assumption.
  + destruct (IH ops' eq_refl Hin) as (k' & v' & here' & Hk & He & Hi).
    exists k', v', here'. split; [now right|]. split; assumption.
Qed.

(** X14: every scalar edit the planner emits changes something and
    respects the lock: its new value is the stripped text of a record
    entry whose key maps to that field as a scalar, it differs from the
    old value, the old value is the stripped current text of the field
    (empty for an absent or false attribute), and with unlocking
    disallowed the field is not reported as locked. *)
Theorem planned_field_ops_are_changes
        (cfg : Config) (plex_item : Entity) (nfo_data : list (string * NfoValue))
        (ops : list UpdateOp) (rest_field : string) (value old_value : pystr) :
  plan cfg plex_item nfo_data = Ok ops ->
  In (FieldOp rest_field value old_value) ops ->
  value <> old_value
  /\ (ALLOW_UNLOCK cfg = false -> isLocked plex_item rest_field <> Some true)
  /\ old_value = match attr plex_item rest_field with
                 | Some v => if val_truthy v then strip (str_of_val v) else []
                 | None => []
                 end
  /\ exists nfo_key nfo_value,
      In (nfo_key, nfo_value) nfo_data
      /\ dict_get nfo_key SUPPORTED_FIELD_MAP = Some (rest_field, false)
      /\ nfo_truthy nfo_value = true
      /\ value = strip (str_of_nfo nfo_value).
Proof.
intros P Hin.
destruct (@plan_entries _ _ _ _ _ P Hin) as (k & v & here & Hk & He & Hi).
unfold plan_entry in He.
destruct (dict_get k SUPPORTED_FIELD_MAP) as [[f is_tag]|] eqn:M;
  [|injection He as <-; destruct Hi].
destruct (nfo_truthy v) eqn:T; simpl in He; [|injection He as <-; destruct Hi].
destruct is_tag; [exfalso; eapply plan_tag_only_tags; eassumption|].
injection He as <-. unfold plan_field in Hi.
destruct (eqb _ _) eqn:E; [destruct Hi|].
destruct (isLocked plex_item f) as [[|]|] eqn:L; simpl in Hi;
  destruct (ALLOW_UNLOCK cfg) eqn:A; simpl in Hi;
  try contradiction;
  destruct Hi as [[= <- <- <-]|[]];
  (split; [now apply eqb_neq|]);
  (split; [rewrite L; intros; congruence|]);
  (split; [destruct (attr plex_item f) as [a|]; [destruct (val_truthy a)|];
           reflexivity|]);
  exists k, v; repeat split; assumption.
Qed.

Lemma clean_existing_from_spec (tags seen : list pystr) :
  NoDup (map lower (clean_existing_from seen tags))
  /\ (forall t, In t (clean_existing_from seen tags) ->
                In t tags /\ ~ In (lower t) seen)
  /\ (forall t, In t tags ->
                In (lower t) (seen ++ map lower (clean_existing_from seen tags))).
Proof.
revert seen. induction tags as [|t tags IH]; intros seen; simpl.
- split; [constructor|]. split; intros t [].
- destruct (mem (lower t) seen) eqn:M; simpl.
  + destruct (IH seen) as (N & D & C). apply mem_In in M.
    split; [exact N|]. split.
    * intros x Hx. destruct (D x Hx). split; [now right | assumption].
    * intros x [<-|Hx]; [apply in_or_app; now left | now apply C].
  + destruct (IH (lower t :: seen)) as (N & D & C). apply mem_not_In in M.
    split.
    { constructor; [|exact N]. intros K. apply in_map_iff in K as (x & Ex & Hx).
      destruct (D x Hx) as [_ K]. apply K. left. now symmetry. }
    split.
    * intros x [<-|Hx]; [split; [now left | exact M]|].
      destruct (D x Hx) as [I1 I2]. split; [now right|].
      intros K. apply I2. now right.
    * intros x [<-|Hx].
      -- apply in_or_app. right. now left.
      -- specialize (C x Hx). apply in_app_or in C as [[C|C]|C];
           apply in_or_app; [right; now left | now left | right; now right].
Qed.

Lemma existing_name_clean (t : TagItem) (x : pystr) :
  In x (existing_name t) -> strip x = x /\ truthy x = true.
Proof.
destruct t as [s|tag name]; simpl.
- destruct (truthy (strip s)) eqn:T; [|intros []].
  intros [<-|[]]. split; [apply strip_idem | exact T].
- destruct (truthy (or_str tag name)); [|intros []].
  destruct (truthy (strip (or_str tag name))) eqn:T; [|intros []].
  intros [<-|[]]. split; [apply strip_idem | exact T].
Qed.

(** X15: a tag operation is emitted only with new tags to write (so an
    update never leaves a collection empty) and for a record key that
    maps to that collection; its list of existing tags holds stripped,
    non-empty names, no two of which agree when lower-cased, and every
    name the item carries appears in it up to case. *)
Theorem planned_tag_ops_are_well_formed
        (cfg : Config) (plex_item : Entity) (nfo_data : list (string * NfoValue))
        (ops : list UpdateOp) (rest_field : string) (new existing : list pystr) :
  plan cfg plex_item nfo_data = Ok ops ->
  In (TagOp rest_field new existing) ops ->
  new <> []
  /\ (exists nfo_key nfo_value,
        In (nfo_key, nfo_value) nfo_data
        /\ dict_get nfo_key SUPPORTED_FIELD_MAP = Some (rest_field, true))
  /\ NoDup (map lower existing)
  /\ (forall t, In t existing -> strip t = t /\ truthy t = true)
  /\ exists plex_attr,
      iter_attr (attr plex_item rest_field) = Ok plex_attr
      /\ forall t, In t (flat_map existing_name plex_attr) ->
                   In (lower t) (map lower existing).
Proof.
intros P Hin.
destruct (@plan_entries _ _ _ _ _ P Hin) as (k & v & here & Hk & He & Hi).
unfold plan_entry in He.
destruct (dict_get k SUPPORTED_FIELD_MAP) as [[f is_tag]|] eqn:M;
  [|injection He as <-; destruct Hi].
destruct (nfo_truthy v); simpl in He; [|injection He as <-; destruct Hi].
destruct is_tag.
- unfold plan_tag in He.
  destruct (unique_tags_of (tag_names_of v)); [injection He as <-; destruct Hi|].
  destruct (iter_attr (attr plex_item f)) as [plex_attr|] eqn:I; [|discriminate].
  destruct (refined_tags_of _) as [|r rs]; injection He as <-; [destruct Hi|].
  destruct Hi as [[= <- <- <-]|[]].
  destruct (clean_existing_from_spec (flat_map existing_name plex_attr) [])
    as (N & D & C).
  split; [discriminate|]. split; [now exists k, v|]. split; [exact N|]. split.
  + intros t Ht. destruct (D t Ht) as [Ht' _].
    apply in_flat_map in Ht' as (ti & _ & Ht'). eapply existing_name_clean, Ht'.
  + exists plex_attr. split; [exact I|]. intros t Ht. exact (C t Ht).
- injection He as <-. unfold plan_field in Hi.
  repeat match type of Hi with
         | context [if ?b then _ else _] => destruct b
         end; simpl in Hi; intuition discriminate.
Qed.

(** X16: the validation pass never raises, keeps the operations it keeps
    in plan order, and accounts for every planned operation exactly once:
    an operation is kept when the item exposes its target, otherwise one
    message is added to the missing-field outcomes; nothing else of the
    run state changes.  A scalar operation is kept whenever the attribute
    exists, whatever its value. *)
Theorem validation_accounts_for_every_op (plex_item : Entity)
        (planned_ops : list UpdateOp) (w : World) :
  exists validated_ops msgs w',
    validate plex_item planned_ops w = (Ok validated_ops, w')
    /\ subseq validated_ops planned_ops
    /\ (forall op, In op validated_ops <->
                   In op planned_ops /\ exposes plex_item op = true)
    /\ stats_skipped_missing_field w' = stats_skipped_missing_field w ++ msgs
    /\ (List.length validated_ops + List.length msgs
        = List.length planned_ops)%nat
    /\ stats_skipped w' = stats_skipped w /\ stats_updated w' = stats_updated w
    /\ stats_failed w' = stats_failed w /\ calls w' = calls w.
Proof.
exists (filter (exposes plex_item) planned_ops).
exists (map (drop_message plex_item)
            (filter (fun op => negb (exposes plex_item op)) planned_ops)).
eexists. split; [apply validate_filter|].
split; [apply subseq_filter|].
split; [intros op; apply filter_In|].
split; [apply record_missing_stats|].
split.
- rewrite length_map. induction planned_ops as [|op ops IH]; [reflexivity|].
  simpl. destruct (exposes plex_item op); simpl; lia.
- destruct (record_missing_rest
              (map (drop_message plex_item)
                   (filter (fun op => negb (exposes plex_item op)) planned_ops)) w)
    as (A & B & C & _ & E).
  repeat split; assumption.
Qed.

End PlannerFacts.

Lemma planned_field_ops_are_changes_witness :
  let plex_item := entity_with [("studio"%string, PStr (u " Fox "))] in
  let nfo_data := [("studio"%string, VStr (u "Brandywine "))] in
  u "Brandywine" <> u "Fox"
  /\ (ALLOW_UNLOCK (mkConfig false false false) = false ->
      isLocked plex_item "studio" <> Some true)
  /\ u "Fox" = match attr plex_item "studio" with
               | Some v => if val_truthy v
                           then @strip Fragment.ucd (@str_of_val Fragment.show v)
                           else []
               | None => []
               end
  /\ exists nfo_key nfo_value,
      In (nfo_key, nfo_value) nfo_data
      /\ dict_get nfo_key SUPPORTED_FIELD_MAP = Some ("studio"%string, false)
      /\ nfo_truthy nfo_value = true
      /\ u "Brandywine" = @strip Fragment.ucd (@str_of_nfo Fragment.show nfo_value).
Proof.
refine (@planned_field_ops_are_changes Fragment.ucd Fragment.show
          (mkConfig false false false)
          (entity_with [("studio"%string, PStr (u " Fox "))])
          [("studio"%string, VStr (u "Brandywine "))]
          [FieldOp "studio" (u "Brandywine") (u "Fox")]
          "studio" (u "Brandywine") (u "Fox") eq_refl _).
simpl. left. reflexivity.
Defined.

Lemma planned_tag_ops_are_well_formed_witness :
  let plex_item :=
    entity_with [("genres"%string,
                  PTags [TagObj (Some (u "Horror")) None; TagStr (u " horror ")])] in
  let nfo_data := [("genre"%string, VStr (u "Action"))] in
  [u "Action"] <> []
  /\ (exists nfo_key nfo_value,
        In (nfo_key, nfo_value) nfo_data
        /\ dict_get nfo_key SUPPORTED_FIELD_MAP = Some ("genres"%string, true))
  /\ NoDup (map (@lower Fragment.ucd) [u "Horror"])
  /\ (forall t, In t [u "Horror"] ->
                @strip Fragment.ucd t = t /\ truthy t = true)
  /\ exists plex_attr,
      iter_attr (attr plex_item "genres") = Ok plex_attr
      /\ forall t, In t (flat_map (@existing_name Fragment.ucd) plex_attr) ->
                   In (@lower Fragment.ucd t) (map (@lower Fragment.ucd) [u "Horror"]).
Proof.
refine (@planned_tag_ops_are_well_formed Fragment.ucd Fragment.show
          (mkConfig true false false)
          (entity_with [("genres"%string,
                         PTags [TagObj (Some (u "Horror")) None; TagStr (u " horror ")])])
          [("genre"%string, VStr (u "Action"))]
          [TagOp "genres" [u "Action"] [u "Horror"]]
          "genres" [u "Action"] [u "Horror"] eq_refl _).
simpl. left. reflexivity.
Defined.

(* ================================================================== *)
(** * Parsing a sidecar file *)

Lemma dict_get_set {V} (k k' : string) (v : V) (d : list (string * V)) :
  dict_get k (dict_set k' v d)
  = if String.eqb k k' then Some v else dict_get k d.
Proof.
induction d as [|[k0 v0] d IH]; simpl.
- reflexivity.
- destruct (String.eqb_spec k' k0) as [->|N0]; simpl.
  + destruct (String.eqb k k0); reflexivity.
  + rewrite IH. destruct (String.eqb_spec k k0) as [->|N1]; [|reflexivity].
    destruct (String.eqb_spec k0 k'); [congruence | reflexivity].
Qed.

Lemma dict_get_snoc {V} (k k' : string) (v : V) (d : list (string * V)) :
  dict_get k (d ++ [(k', v)])
  = match dict_get k d with
    | Some x => Some x
    | None => if String.eqb k k' then Some v else None
    end.
Proof.
induction d as [|[k0 v0] d IH]; simpl; [reflexivity|].
destruct (String.eqb k k0); [reflexivity | exact IH].
Qed.

Lemma dict_get_collect (k tag : string) (value : NfoValue)
      (result : list (string * NfoValue)) :
  dict_get k (dict_collect tag value result)
  = if String.eqb k tag
    then Some (match dict_get k result with
               | None => value
               | Some (VList l) => VList (l ++ [value])
               | Some v => VList [v; value]
               end)
    else dict_get k result.
Proof.
induction result as [|[k0 v0] result IH]; simpl.
- reflexivity.
- destruct (String.eqb_spec tag k0) as [->|N0]; simpl.
  + destruct (String.eqb k k0); [|reflexivity]. now destruct v0.
  + rewrite IH. destruct (String.eqb_spec k k0) as [->|N1]; [|reflexivity].
    destruct (String.eqb_spec k0 tag); [congruence | reflexivity].
Qed.

Section ParserFacts.
Context `{UnicodeData}.
Variable key_of : pystr -> string.

Lemma element_value_not_list (elem : Element) (l : list NfoValue) :
  element_to_value key_of elem <> VList l.
Proof.
destruct elem as [t text [|c cs]]; simpl; [|discriminate].
destruct text as [[|]|]; discriminate.
Qed.

Lemma collapse_snoc (values : list NfoValue) (v : NfoValue) :
  (forall x l, In x values -> x <> VList l) ->
  collapse (values ++ [v])
  = Some (match collapse values with
          | None => v
          | Some (VList l) => VList (l ++ [v])
          | Some x => VList [x; v]
          end).
Proof.
intros NL. destruct values as [|x [|y r]]; simpl; try reflexivity.
destruct x; try reflexivity.
exfalso. eapply NL; [now left | reflexivity].
Qed.

Lemma collected_values (k : string) (children pre : list Element)
      (d : list (string * NfoValue)) :
  dict_get k d = collapse (values_under key_of k pre) ->
  dict_get k (fold_left
                (fun result child =>
                   dict_collect (key_of (lower (el_tag child)))
                                (element_to_value key_of child) result)
                children d)
  = collapse (values_under key_of k (pre ++ children)).
Proof.
revert pre d. induction children as [|c cs IH]; intros pre d Hd; simpl.
- now rewrite app_nil_r.
- replace (pre ++ c :: cs) with ((pre ++ [c]) ++ cs) by now rewrite <- app_assoc.
  apply IH. rewrite dict_get_collect.
  unfold values_under. rewrite filter_app, map_app. simpl.
  fold (values_under key_of k pre).
  destruct (String.eqb k (key_of (lower (el_tag c)))); simpl.
  + rewrite collapse_snoc, Hd; [reflexivity|].
    intros x l Hx. unfold values_under in Hx.
    apply in_map_iff in Hx as (e & <- & _). apply element_value_not_list.
  + now rewrite app_nil_r.
Qed.

Lemma flatten_root_tag (root : Element) :
  dict_get "root_tag" (flatten_root key_of root)
  = Some (VStr (lower (el_tag root))).
Proof.
unfold flatten_root, dict_setdefault.
destruct (dict_get "title" _).
- now rewrite dict_get_set.
- now rewrite dict_get_snoc, dict_get_set.
Qed.

(** X17: in the record built from a document, every key other than
    "root_tag" and "title" holds what the children of the root with that
    (lower-cased) tag carry: the value of the only such child, or the
    list of the values of all of them in document order; a key no child
    carries is absent.  "title" is the empty string when no child
    provides it, and "root_tag" is always the lower-cased tag of the
    root, even when a child element is called root_tag. *)
Theorem record_of_document (root : Element) :
  (forall k, k <> "root_tag"%string -> k <> "title"%string ->
             dict_get k (flatten_root key_of root)
             = collapse (values_under key_of k (el_children root)))
  /\ dict_get "title" (flatten_root key_of root)
     = match collapse (values_under key_of "title" (el_children root)) with
       | Some v => Some v
       | None => Some (VStr [])
       end
  /\ dict_get "root_tag" (flatten_root key_of root)
     = Some (VStr (lower (el_tag root))).
Proof.
unfold flatten_root, dict_setdefault.
set (data := fold_left _ (el_children root) []).
assert (D : forall k, dict_get k data
                      = collapse (values_under key_of k (el_children root))).
{ intros k. unfold data.
  apply (collected_values k (el_children root) [] []). reflexivity. }
assert (T : dict_get "title" (dict_set "root_tag" (VStr (lower (el_tag root))) data)
            = dict_get "title" data) by now rewrite dict_get_set.
split; [|split].
- intros k N1 N2. rewrite T.
  destruct (dict_get "title" data).
  + rewrite dict_get_set. destruct (String.eqb_spec k "root_tag"); [contradiction|].
    apply D.
  + rewrite dict_get_snoc, dict_get_set.
    destruct (String.eqb_spec k "root_tag"); [contradiction|].
    rewrite D. destruct (collapse _); [reflexivity|].
    destruct (String.eqb_spec k "title"); [contradiction | reflexivity].
- rewrite T. destruct (dict_get "title" data) as [v|] eqn:E.
  + rewrite T, <- D, E. reflexivity.
  + rewrite dict_get_snoc, T, <- D, E. reflexivity.
- rewrite T. destruct (dict_get "title" data).
  + now rewrite dict_get_set.
  + now rewrite dict_get_snoc, dict_get_set.
Qed.

(** X18: the media type of a parsed document never fails to be
    determined and depends on the tag of the root alone; it is "movie",
    "show", "season", "episode" or the empty string, and with the empty
    string the scorer excludes no candidate by kind. *)
Theorem media_type_of_document (root : Element) :
  get_media_type_from_nfo (flatten_root key_of root)
  = Some (media_type_of_tag (lower (lower (el_tag root))))
  /\ (forall root_tag,
        In (media_type_of_tag root_tag)
           [[]; u "movie"; u "show"; u "season"; u "episode"])
  /\ (forall cand, filtered_out (Some []) cand = false).
Proof.
split; [|split].
- unfold get_media_type_from_nfo. now rewrite flatten_root_tag.
- intros root_tag. unfold media_type_of_tag.
  destruct (find _ tag_map) as [[kind aliases]|] eqn:F; [|now left].
  apply find_some in F as [F _]. simpl in F.
  destruct F as [F|[F|[F|[F|[]]]]]; injection F as <- _; simpl; tauto.
- reflexivity.
Qed.

End ParserFacts.

(* ================================================================== *)
(** * The Artwork Matcher *)

Lemma startswith_spec (p s : pystr) :
  startswith p s = true <-> exists post, s = p ++ post.
Proof.
revert s. induction p as [|x p IH]; intros s; simpl.
- split; [intros _; now exists s | reflexivity].
- destruct s as [|y s].
  + split; [discriminate | intros (post & E); discriminate].
  + rewrite andb_true_iff, N.eqb_eq, IH. split.
    * intros (-> & post & ->). now exists post.
    * intros (post & E). injection E as -> ->. split; [reflexivity | now exists post].
Qed.

Lemma contains_spec (sub s : pystr) :
  contains sub s = true <-> exists pre post, s = pre ++ sub ++ post.
Proof.
induction s as [|y s IH].
- simpl. rewrite orb_false_r, startswith_spec. split.
  + intros (post & E). now exists [], post.
  + intros (pre & post & E). destruct pre; [now exists post|discriminate].
- cbn [contains]. rewrite orb_true_iff, startswith_spec, IH. split.
  + intros [(post & E)|(pre & post & E)].
    * now exists [], post.
    * exists (y :: pre), post. simpl. now rewrite E.
  + intros (pre & post & E). destruct pre as [|z pre].
    * left. now exists post.
    * right. injection E as _ E. now exists pre, post.
Qed.

Lemma contains_tail (a b s : pystr) :
  contains (a ++ b) s = true -> contains b s = true.
Proof.
rewrite !contains_spec. intros (pre & post & ->).
exists (pre ++ a), post. now rewrite <- !app_assoc.
Qed.

Module ArtworkFacts.
Import Artwork.

Section Facts.
Context `{UnicodeData}.

(** X19: the upload method of a sibling file is decided by the
    lower-cased stem alone as soon as it holds a keyword: "poster" gives
    a poster; otherwise "art" anywhere in the stem (fanart included),
    "backdrop" or "background" gives background art; otherwise "theme"
    gives a theme.  The extension matters only without a keyword: jpg,
    jpeg, png and webp files are posters, other files are left alone. *)
Theorem classification_by_stem (lower_stem ext : pystr) :
  classify lower_stem ext
  = if contains (u "poster") lower_stem then Some ("uploadPoster", "thumb")%string
    else if contains (u "art") lower_stem || contains (u "backdrop") lower_stem
            || contains (u "background") lower_stem
         then Some ("uploadArt", "art")%string
    else if contains (u "theme") lower_stem then Some ("uploadTheme", "theme")%string
    else if existsb (fun e => eqb ext (u e)) ["jpg"; "jpeg"; "png"; "webp"]%string
         then Some ("uploadPoster", "thumb")%string
    else None.
Proof.
unfold classify, artwork_map. cbn [find fst].
destruct (contains (u "poster") lower_stem); [reflexivity|].
destruct (contains (u "fanart") lower_stem) eqn:F.
- change (u "fanart") with (u "fan" ++ u "art") in F.
  apply contains_tail in F. now rewrite F.
- destruct (contains (u "backdrop") lower_stem);
    [now rewrite orb_true_r|].
  destruct (contains (u "background") lower_stem);
    [now rewrite orb_true_r|].
  destruct (contains (u "art") lower_stem); [reflexivity|].
  destruct (contains (u "theme") lower_stem); reflexivity.
Qed.




(** What one file adds to the calls, and to the outcomes. *)
Lemma upload_art_file_spec (cfg : Config) (item : ArtItem) (art_file : ArtFile)
      (w : World) (log : list ArtCall) :
  exists w' extra,
    upload_art_file cfg item art_file (w, log) = (w', log ++ extra)
    /\ (DRY_RUN cfg = true ->
        stats_updated w' = stats_updated w
        /\ forallb (fun c => match c with
                             | unlock _ | reload => true
                             | _ => false
                             end) extra = true)
    /\ (ALLOW_UNLOCK cfg = false -> forallb (fun c => negb (is_unlock c)) extra = true)
    /\ (DRY_RUN cfg = true -> ALLOW_UNLOCK cfg = false -> extra = [])
    /\ (DRY_RUN cfg = false -> outcomes w' = S (outcomes w))
    /\ (List.length (filter is_upload extra) <= 1)%nat.
Proof.
unfold upload_art_file, prepare_field, perform_upload, issue.
destruct (DRY_RUN cfg) eqn:D; destruct (ALLOW_UNLOCK cfg) eqn:A;
  destruct (has_method item (method art_file)); cbn [negb fst snd];
  destruct (nonempty (lock_field art_file));
  try destruct (isLocked item log (lock_field art_file)) as [[|]|];
  repeat (match goal with
          | |- context [raises item ?l ?c] => destruct (raises item l c)
          end; cbn [negb fst snd]);
  rewrite <- ?app_assoc;
  match goal with
  | |- exists w' extra, (?w1, log ++ ?e) = _ /\ _ => exists w1, e
  | |- exists w' extra, (?w1, log) = _ /\ _ => exists w1, []
  end;
  (split; [now rewrite ?app_nil_r|]);
  unfold outcomes; simpl; rewrite ?length_app; simpl;
  repeat split; intros; try discriminate; try reflexivity; lia.
Qed.

Lemma upload_all_spec (cfg : Config) (item : ArtItem) (files : list ArtFile)
      (w : World) (log : list ArtCall) :
  exists w' extra,
    fold_left (fun st art_file => upload_art_file cfg item art_file st) files (w, log)
    = (w', log ++ extra)
    /\ (DRY_RUN cfg = true ->
        stats_updated w' = stats_updated w
        /\ forallb (fun c => match c with
                             | unlock _ | reload => true
                             | _ => false
                             end) extra = true)
    /\ (ALLOW_UNLOCK cfg = false -> forallb (fun c => negb (is_unlock c)) extra = true)
    /\ (DRY_RUN cfg = true -> ALLOW_UNLOCK cfg = false -> extra = [])
    /\ (DRY_RUN cfg = false ->
        outcomes w' = (outcomes w + List.length files)%nat)
    /\ (List.length (filter is_upload extra) <= List.length files)%nat.
Proof.
revert w log. induction files as [|f files IH]; intros w log.
- exists w, []. simpl. rewrite app_nil_r.
  repeat split; intros; try reflexivity; lia.
- cbn [fold_left].
  destruct (upload_art_file_spec cfg item f w log)
    as (w1 & e1 & E1 & P1 & Q1 & R1 & S1 & T1).
  rewrite E1.
  destruct (IH w1 (log ++ e1)) as (w2 & e2 & E2 & P2 & Q2 & R2 & S2 & T2).
  exists w2, (e1 ++ e2). rewrite E2, <- app_assoc.
  split; [reflexivity|]. split; [|split; [|split; [|split]]].
  + intros D. destruct (P1 D) as [A1 B1]. destruct (P2 D) as [A2 B2].
    split; [congruence|]. rewrite forallb_app, B1, B2. reflexivity.
  + intros A. rewrite forallb_app, (Q1 A), (Q2 A). reflexivity.
  + intros D A. now rewrite (R1 D A), (R2 D A).
  + intros D. rewrite (S2 D), (S1 D). simpl. lia.
  + rewrite filter_app, length_app. simpl. lia.
Qed.

(** The routine only adds to the updated, skipped and failed outcomes;
    it leaves the rest of the run state alone. *)
Lemma upload_art_file_frame (cfg : Config) (item : ArtItem) (art_file : ArtFile)
      (st : ArtState) :
  let w := fst st in
  let w' := fst (upload_art_file cfg item art_file st) in
  (exists sk, stats_skipped w' = stats_skipped w ++ sk)
  /\ (exists up, stats_updated w' = stats_updated w ++ up)
  /\ (exists fl, stats_failed w' = stats_failed w ++ fl)
  /\ stats_skipped_missing_field w' = stats_skipped_missing_field w
  /\ stdin w' = stdin w
  /\ calls w' = calls w.
Proof.
destruct st as [w log]. cbv zeta.
unfold upload_art_file, prepare_field, perform_upload, issue.
destruct (DRY_RUN cfg); destruct (ALLOW_UNLOCK cfg);
  destruct (has_method item (method art_file)); cbn [negb fst snd];
  destruct (nonempty (lock_field art_file));
  try destruct (isLocked item log (lock_field art_file)) as [[|]|];
  repeat (match goal with
          | |- context [raises item ?l ?c] => destruct (raises item l c)
          end; cbn [negb fst snd]);
  simpl;
  (split; [eexists; first [reflexivity | symmetry; apply app_nil_r]|]);
  (split; [eexists; first [reflexivity | symmetry; apply app_nil_r]|]);
  (split; [eexists; first [reflexivity | symmetry; apply app_nil_r]|]);
  repeat split.
Qed.

Lemma update_plex_item_artwork_frame (ALLOW_ART_UPDATE : bool) (cfg : Config)
      (os : OsPath) (allowed_exts : list pystr) (item : ArtItem)
      (file_path : pystr) (st : ArtState) :
  let w := fst st in
  let w' := fst (update_plex_item_artwork ALLOW_ART_UPDATE cfg os allowed_exts
                                          item file_path st) in
  (exists sk, stats_skipped w' = stats_skipped w ++ sk)
  /\ (exists up, stats_updated w' = stats_updated w ++ up)
  /\ (exists fl, stats_failed w' = stats_failed w ++ fl)
  /\ stats_skipped_missing_field w' = stats_skipped_missing_field w
  /\ stdin w' = stdin w
  /\ calls w' = calls w.
Proof.
cbv zeta. unfold update_plex_item_artwork.
destruct ALLOW_ART_UPDATE; cbn [negb].
- generalize (found_files_of os allowed_exts file_path). intros files.
  revert st. induction files as [|f files IH]; intros st.
  + simpl. repeat split; exists []; now rewrite app_nil_r.
  + cbn [fold_left].
    destruct (upload_art_file_frame cfg item f st)
      as ((sk1 & A1) & (up1 & B1) & (fl1 & C1) & D1 & E1 & F1).
    destruct (IH (upload_art_file cfg item f st))
      as ((sk2 & A2) & (up2 & B2) & (fl2 & C2) & D2 & E2 & F2).
    split; [exists (sk1 ++ sk2); rewrite A2, A1; now rewrite app_assoc|].
    split; [exists (up1 ++ up2); rewrite B2, B1; now rewrite app_assoc|].
    split; [exists (fl1 ++ fl2); rewrite C2, C1; now rewrite app_assoc|].
    repeat split; congruence.
- repeat split; exists []; now rewrite app_nil_r.
Qed.

(** What a run of the routine adds to the calls made on the item. *)
Lemma artwork_run_spec (ALLOW_ART_UPDATE : bool) (cfg : Config)
      (os : OsPath) (allowed_exts : list pystr) (item : ArtItem)
      (file_path : pystr) (w : World) (log : list ArtCall) :
  exists w' extra,
    update_plex_item_artwork ALLOW_ART_UPDATE cfg os allowed_exts item file_path
                             (w, log)
    = (w', log ++ extra)
    /\ (DRY_RUN cfg = true ->
        stats_updated w' = stats_updated w
        /\ forallb (fun c => match c with
                             | unlock _ | reload => true
                             | _ => false
                             end) extra = true
        /\ (ALLOW_UNLOCK cfg = false -> extra = [])).
Proof.
unfold update_plex_item_artwork.
destruct ALLOW_ART_UPDATE; cbn [negb].
- destruct (upload_all_spec cfg item
              (found_files_of os allowed_exts file_path) w log)
    as (w' & extra & E & P & _ & R & _).
  exists w', extra. split; [exact E|].
  intros D. destruct (P D) as [A B]. split; [exact A|]. split; [exact B | exact (R D)].
- exists w, []. rewrite app_nil_r. repeat split.
Qed.

(** X21: a dry run uploads nothing: under DRY_RUN the matcher issues no
    upload and no refresh and records no update.  It may still unlock
    locked fields and reload the item when unlocking is allowed; with
    unlocking disallowed too, it issues no call at all. *)
Theorem artwork_dry_run_uploads_nothing (ALLOW_ART_UPDATE : bool) (cfg : Config)
        (os : OsPath) (allowed_exts : list pystr) (item : ArtItem)
        (file_path : pystr) (w : World) (log : list ArtCall) :
  DRY_RUN cfg = true ->
  exists w' extra,
    update_plex_item_artwork ALLOW_ART_UPDATE cfg os allowed_exts item file_path
                             (w, log)
    = (w', log ++ extra)
    /\ stats_updated w' = stats_updated w
    /\ forallb (fun c => match c with
                         | unlock _ | reload => true
                         | _ => false
                         end) extra = true
    /\ (ALLOW_UNLOCK cfg = false -> extra = []).
Proof.
intros D. unfold update_plex_item_artwork.
destruct ALLOW_ART_UPDATE; cbn [negb].
- destruct (upload_all_spec cfg item
              (found_files_of os allowed_exts file_path) w log)
    as (w' & extra & E & P & _ & R & _).
  exists w', extra. destruct (P D) as [A B].
  split; [exact E|]. split; [exact A|]. split; [exact B | exact (R D)].
- exists w, []. rewrite app_nil_r. repeat split.
Qed.

(** X22: outside a dry run every file found is accounted for by exactly
    one entry of the statistics (updated, skipped or failed), at most one
    upload is attempted per file, and with unlocking disallowed no field
    is ever unlocked.  With artwork updates disabled nothing happens. *)
Theorem artwork_accounts_for_every_file (ALLOW_ART_UPDATE : bool) (cfg : Config)
        (os : OsPath) (allowed_exts : list pystr) (item : ArtItem)
        (file_path : pystr) (w : World) (log : list ArtCall) :
  DRY_RUN cfg = false ->
  exists w' extra,
    update_plex_item_artwork ALLOW_ART_UPDATE cfg os allowed_exts item file_path
                             (w, log)
    = (w', log ++ extra)
    /\ outcomes w'
       = (outcomes w
          + if ALLOW_ART_UPDATE
            then List.length (found_files_of os allowed_exts file_path)
            else 0)%nat
    /\ (List.length (filter is_upload extra)
        <= List.length (found_files_of os allowed_exts file_path))%nat
    /\ (ALLOW_UNLOCK cfg = false -> forallb (fun c => negb (is_unlock c)) extra = true)
    /\ (ALLOW_ART_UPDATE = false -> w' = w /\ extra = []).
Proof.
intros D. unfold update_plex_item_artwork.
destruct ALLOW_ART_UPDATE; cbn [negb].
- destruct (upload_all_spec cfg item
              (found_files_of os allowed_exts file_path) w log)
    as (w' & extra & E & _ & Q & _ & S & T).
  exists w', extra.
  split; [exact E|]. split; [exact (S D)|]. split; [exact T|].
  split; [exact Q | discriminate].
- exists w, []. rewrite app_nil_r. simpl.
  split; [reflexivity|]. split; [lia|]. split; [lia|]. split; [reflexivity|].
  now split.
Qed.

End Facts.

Lemma artwork_dry_run_uploads_nothing_witness :
  exists w' extra,
    @update_plex_item_artwork Fragment.ucd true (mkConfig true true false)
       everything_exists [u "jpg"; u "mp3"] locked_item (u "alien") (empty_world, [])
    = (w', [] ++ extra)
    /\ stats_updated w' = stats_updated empty_world
    /\ forallb (fun c => match c with
                         | unlock _ | reload => true
                         | _ => false
                         end) extra = true
    /\ (ALLOW_UNLOCK (mkConfig true true false) = false -> extra = []).
Proof.
exact (@artwork_dry_run_uploads_nothing Fragment.ucd true (mkConfig true true false)
         everything_exists [u "jpg"; u "mp3"] locked_item (u "alien")
         empty_world [] eq_refl).
Defined.

Lemma artwork_accounts_for_every_file_witness :
  exists w' extra,
    @update_plex_item_artwork Fragment.ucd true (mkConfig false false false)
       everything_exists [u "jpg"; u "mp3"] locked_item (u "alien-poster")
       (empty_world, [])
    = (w', [] ++ extra)
    /\ outcomes w'
       = (outcomes empty_world
          + if true
            then List.length (@found_files_of Fragment.ucd everything_exists
                                [u "jpg"; u "mp3"] (u "alien-poster"))
            else 0)%nat
    /\ (List.length (filter is_upload extra)
        <= List.length (@found_files_of Fragment.ucd everything_exists
                          [u "jpg"; u "mp3"] (u "alien-poster")))%nat
    /\ (ALLOW_UNLOCK (mkConfig false false false) = false ->
        forallb (fun c => negb (is_unlock c)) extra = true)
    /\ (true = false -> w' = empty_world /\ extra = []).
Proof.
exact (@artwork_accounts_for_every_file Fragment.ucd true (mkConfig false false false)
         everything_exists [u "jpg"; u "mp3"] locked_item (u "alien-poster")
         empty_world [] eq_refl).
Defined.

(** Under a dry run a locked poster field is still unlocked. *)
Example dry_run_still_unlocks :
  snd (@update_plex_item_artwork Fragment.ucd true (mkConfig true true false)
         everything_exists [u "jpg"] locked_item (u "alien") (empty_world, []))
  = [unlock "thumb"; reload].
Proof. reflexivity. Qed.

End ArtworkFacts.

(* ================================================================== *)
(** * What an update writes, and when *)

Section UpdateFacts.
Context `{UnicodeData} `{PyShow}.

(** A call of the artwork routine that raises has done nothing but
    begin, and the call raises again whenever it is repeated. *)
Lemma call_artwork_raise (cfg : Config) (env : ArtEnv) (nfo_file : option pystr)
      (st st' : Artwork.ArtState) (e : Exn) :
  call_artwork cfg env nfo_file st = (Raise e, st') ->
  st' = (record_call (update_plex_item_artwork nfo_file) (fst st), snd st)
  /\ nfo_file = None /\ ALLOW_ART_UPDATE env = true
  /\ forall st2,
      call_artwork cfg env nfo_file st2
      = (Raise e, (record_call (update_plex_item_artwork nfo_file) (fst st2),
                   snd st2)).
Proof.
unfold call_artwork. destruct nfo_file as [p|]; [discriminate|].
destruct (ALLOW_ART_UPDATE env); [|discriminate].
intros [= <- <-]. repeat split.
Qed.

Lemma call_artwork_returns (cfg : Config) (env : ArtEnv) (nfo_file : option pystr)
      (st : Artwork.ArtState) :
  nfo_file <> None \/ ALLOW_ART_UPDATE env = false ->
  fst (call_artwork cfg env nfo_file st) = Ok tt.
Proof.
unfold call_artwork. destruct nfo_file as [p|]; [reflexivity|].
intros [N | ->]; [contradiction | reflexivity].
Qed.

Lemma call_artwork_spec (cfg : Config) (env : ArtEnv) (nfo_file : option pystr)
      (w : World) (log : list Artwork.ArtCall) :
  exists r w' extra sk,
    call_artwork cfg env nfo_file (w, log) = (r, (w', log ++ extra))
    /\ calls w' = calls w ++ [update_plex_item_artwork nfo_file]
    /\ stats_skipped w' = stats_skipped w ++ sk
    /\ (DRY_RUN cfg = true ->
        stats_updated w' = stats_updated w
        /\ forallb (fun c => match c with
                             | Artwork.unlock _ | Artwork.reload => true
                             | _ => false
                             end) extra = true
        /\ (ALLOW_UNLOCK cfg = false -> extra = [])).
Proof.
unfold call_artwork. cbn [fst snd].
set (w1 := record_call (update_plex_item_artwork nfo_file) w).
destruct nfo_file as [p|].
- destruct (ArtworkFacts.artwork_run_spec (ALLOW_ART_UPDATE env) cfg (os_path env)
              (art_exts env) (art_item env) p w1 log) as (w' & extra & E & D).
  destruct (ArtworkFacts.update_plex_item_artwork_frame (ALLOW_ART_UPDATE env) cfg
              (os_path env) (art_exts env) (art_item env) p (w1, log))
    as ((sk & A) & _ & _ & _ & _ & C).
  rewrite E in A, C. cbn [fst] in A, C.
  exists (Ok tt), w', extra, sk. rewrite E.
  split; [reflexivity|]. split; [exact C|]. split; [exact A | exact D].
- exists (if ALLOW_ART_UPDATE env then Raise TypeError else Ok tt), w1, [], [].
  rewrite !app_nil_r.
  split; [now destruct (ALLOW_ART_UPDATE env)|].
  repeat split.
Qed.

(** C8: when the validated plan of an entity is empty, the run records
    "No metadata changes required." for it among the skipped items, and
    the artwork routine is called if and only if ALWAYS_UPDATE_ART is
    set.  With the override false nothing else happens: no call of the
    routine, no call on the item, no other outcome.  With it true the
    routine is called, once when the call returns, and the run state is
    then the one the routine leaves (it may add outcomes of its own);
    a call that raises is repeated once after the [try] block. *)
Theorem empty_plan_artwork_iff_override
        (cfg : Config) (svc : Service) (env : ArtEnv) (plex_item : Entity)
        (nfo_data : list (string * NfoValue)) (nfo_file : option pystr)
        (w : World) (log : list Artwork.ArtCall)
        (planned_ops : list UpdateOp) (w1 : World) :
  plan cfg plex_item nfo_data = Ok planned_ops ->
  validate plex_item planned_ops w = (Ok [], w1) ->
  let st' := snd (update_plex_item_fields cfg svc env plex_item nfo_data nfo_file
                                         (w, log)) in
  let recorded :=
    skip (item_title_of plex_item ++ u ": No metadata changes required.") w1 in
  exists (n : nat) (later : list pystr),
    stats_skipped (fst st')
    = stats_skipped w
      ++ [item_title_of plex_item ++ u ": No metadata changes required."] ++ later
    /\ calls (fst st') = calls w ++ repeat (update_plex_item_artwork nfo_file) n
    /\ (ALWAYS_UPDATE_ART cfg = false -> n = 0%nat /\ st' = (recorded, log))
    /\ (ALWAYS_UPDATE_ART cfg = true ->
        (1 <= n <= 2)%nat
        /\ (fst (call_artwork cfg env nfo_file (recorded, log)) = Ok tt ->
            n = 1%nat
            /\ st' = snd (call_artwork cfg env nfo_file (recorded, log)))).
Proof.
intros P V. cbv zeta.
assert (W : stats_skipped w1 = stats_skipped w /\ calls w1 = calls w).
{ rewrite validate_filter in V. injection V as _ <-.
  destruct (record_missing_rest
              (map (drop_message plex_item)
                   (filter (fun op => negb (exposes plex_item op)) planned_ops)) w)
    as (A & _ & _ & _ & E).
  now split. }
destruct W as [Ws Wc].
unfold update_plex_item_fields, try_block. rewrite P, V.
set (recorded := skip _ w1).
assert (Rs : stats_skipped recorded
             = stats_skipped w
               ++ [item_title_of plex_item ++ u ": No metadata changes required."])
  by (unfold recorded; simpl; now rewrite Ws).
assert (Rc : calls recorded = calls w) by exact Wc.
clearbody recorded.
destruct (ALWAYS_UPDATE_ART cfg) eqn:A.
- destruct (call_artwork_spec cfg env nfo_file recorded log)
    as (r & w2 & extra & sk & E & C & S & _).
  rewrite E. destruct r as [[]|e]; cbn [fst snd].
  + exists 1%nat, sk. rewrite S, C, Rs, Rc, <- app_assoc.
    split; [reflexivity|]. split; [reflexivity|].
    split; [discriminate|]. intros _. split; [lia|]. now split.
  + destruct (call_artwork_raise _ _ _ _ E) as (E2 & _ & _ & Again).
    rewrite Again. cbn [fst snd orb].
    injection E2 as -> _.
    exists 2%nat, []. simpl. rewrite Rs, Rc, <- !app_assoc.
    split; [reflexivity|]. split; [reflexivity|].
    split; [discriminate|]. intros _. split; [lia | discriminate].
- cbn [fst snd]. exists 0%nat, []. simpl repeat. rewrite Rs, Rc, !app_nil_r.
  split; [reflexivity|]. split; [reflexivity|].
  split; [now split | discriminate].
Qed.

(** X12: in dry-run mode [update_plex_item_fields] queues and saves no
    metadata edit and records no update: the only calls it makes are
    calls of the artwork routine (two at most), and the only calls made
    on the item are those of that routine, which may unlock a locked
    artwork field and reload the item; with unlocking disallowed the
    item is not touched at all. *)
Theorem dry_run_issues_no_metadata_edit
        (cfg : Config) (svc : Service) (env : ArtEnv) (plex_item : Entity)
        (nfo_data : list (string * NfoValue)) (nfo_file : option pystr)
        (w : World) (log : list Artwork.ArtCall) :
  DRY_RUN cfg = true ->
  let st' := snd (update_plex_item_fields cfg svc env plex_item nfo_data nfo_file
                                         (w, log)) in
  stats_updated (fst st') = stats_updated w
  /\ exists (n : nat) (extra : list Artwork.ArtCall),
      (n <= 2)%nat
      /\ calls (fst st') = calls w ++ repeat (update_plex_item_artwork nfo_file) n
      /\ snd st' = log ++ extra
      /\ forallb (fun c => match c with
                           | Artwork.unlock _ | Artwork.reload => true
                           | _ => false
                           end) extra = true
      /\ (ALLOW_UNLOCK cfg = false -> extra = []).
Proof.
intros D. cbv zeta.
set (Inv := fun (n : nat) (st : Artwork.ArtState) =>
  stats_updated (fst st) = stats_updated w
  /\ calls (fst st) = calls w ++ repeat (update_plex_item_artwork nfo_file) n
  /\ exists extra,
      snd st = log ++ extra
      /\ forallb (fun c => match c with
                           | Artwork.unlock _ | Artwork.reload => true
                           | _ => false
                           end) extra = true
      /\ (ALLOW_UNLOCK cfg = false -> extra = [])).
assert (Step : forall n st, Inv n st ->
                 Inv (S n) (snd (call_artwork cfg env nfo_file st))).
{ unfold Inv. intros n [w0 log0] (U & C & extra & L & F & Z). cbn [fst snd] in U, C, L.
  destruct (call_artwork_spec cfg env nfo_file w0 log0)
    as (r & w2 & extra2 & sk & E & C2 & _ & Dry).
  destruct (Dry D) as (U2 & F2 & Z2).
  rewrite E. cbn [fst snd]. split; [congruence|]. split.
  - rewrite C2, C, <- app_assoc. f_equal. symmetry. apply repeat_cons.
  - exists (extra ++ extra2). rewrite L, <- app_assoc.
    split; [reflexivity|]. split; [now rewrite forallb_app, F, F2|].
    intros A. now rewrite (Z A), (Z2 A). }
assert (Fail : forall n st msg, Inv n st -> Inv n (failed msg (fst st), snd st)).
{ unfold Inv. intros n st msg (U & C & K). now split. }
assert (Skip : forall n st msg, Inv n st -> Inv n (skip msg (fst st), snd st)).
{ unfold Inv. intros n st msg (U & C & K). now split. }
assert (Start : forall w0, stats_updated w0 = stats_updated w ->
                           calls w0 = calls w -> Inv 0%nat (w0, log)).
{ unfold Inv. intros w0 U C. split; [exact U|]. split; [simpl; now rewrite app_nil_r|].
  exists []. rewrite app_nil_r. now repeat split. }
assert (Done : forall n st, (n <= 2)%nat -> Inv n st ->
          stats_updated (fst st) = stats_updated w
          /\ exists (n : nat) (extra : list Artwork.ArtCall),
              (n <= 2)%nat
              /\ calls (fst st) = calls w ++ repeat (update_plex_item_artwork nfo_file) n
              /\ snd st = log ++ extra
              /\ forallb (fun c => match c with
                                   | Artwork.unlock _ | Artwork.reload => true
                                   | _ => false
                                   end) extra = true
              /\ (ALLOW_UNLOCK cfg = false -> extra = [])).
{ unfold Inv. intros n st L (U & C & extra & K). split; [exact U|]. now exists n, extra. }
clearbody Inv.
unfold update_plex_item_fields, try_block. rewrite D.
destruct (plan cfg plex_item nfo_data) as [planned_ops|e].
- rewrite validate_filter.
  destruct (record_missing_rest
              (map (drop_message plex_item)
                   (filter (fun op => negb (exposes plex_item op)) planned_ops)) w)
    as (_ & Ru & _ & _ & Rc).
  set (w1 := record_missing _ w) in *. clearbody w1.
  pose proof (Start w1 Ru Rc) as I0.
  destruct (filter (exposes plex_item) planned_ops) as [|op ops].
  + apply (Skip _ _ (item_title_of plex_item ++ u ": No metadata changes required."))
      in I0. cbn [fst snd] in I0.
    destruct (ALWAYS_UPDATE_ART cfg).
    * pose proof (Step _ _ I0) as I1.
      destruct (call_artwork cfg env nfo_file _) as [[[]|e] st3] eqn:E;
        cbn [fst snd] in I1 |- *.
      -- exact (Done 1%nat _ ltac:(lia) I1).
      -- cbn [orb].
         apply (Fail _ _ (item_title_of plex_item ++ u ": Error while updating."))
           in I1.
         apply Step in I1. exact (Done 2%nat _ ltac:(lia) I1).
    * cbn [fst snd]. exact (Done 0%nat _ ltac:(lia) I0).
  + apply (Skip _ _ (item_title_of plex_item ++ u ": Dry-run is activated."))
      in I0. cbn [fst snd] in I0.
    pose proof (Step _ _ I0) as I1.
    destruct (call_artwork cfg env nfo_file _) as [[[]|e] st3] eqn:E;
      cbn [fst snd] in I1 |- *.
    * exact (Done 1%nat _ ltac:(lia) I1).
    * apply (Fail _ _ (item_title_of plex_item ++ u ": Error while updating."))
        in I1.
      cbn [orb]. destruct (ALWAYS_UPDATE_ART cfg).
      -- apply Step in I1. exact (Done 2%nat _ ltac:(lia) I1).
      -- cbn [fst snd]. exact (Done 1%nat _ ltac:(lia) I1).
- pose proof (Start w eq_refl eq_refl) as I0.
  apply (Fail _ _ (item_title_of plex_item ++ u ": Error while updating.")) in I0.
  cbn [fst snd orb] in I0 |- *.
  destruct (ALWAYS_UPDATE_ART cfg).
  + apply Step in I0. exact (Done 1%nat _ ltac:(lia) I0).
  + cbn [fst snd]. exact (Done 0%nat _ ltac:(lia) I0).
Qed.

(** X11: the item's own entry among the updated outcomes is written
    only when the whole batch was issued without an exception:
    [batchEdits], the calls of every validated operation in plan order,
    [saveEdits]; [reload] follows, and then one call of the artwork
    routine.  Whatever else a run adds to the updated outcomes is added
    by the artwork routine, which runs last (at most twice): the state
    before it holds the item's entry in committed runs and no new
    update otherwise. *)
Theorem updated_means_committed
        (cfg : Config) (svc : Service) (env : ArtEnv) (plex_item : Entity)
        (nfo_data : list (string * NfoValue)) (nfo_file : option pystr)
        (w : World) (log : list Artwork.ArtCall) :
  let st' := snd (update_plex_item_fields cfg svc env plex_item nfo_data nfo_file
                                         (w, log)) in
  exists (w0 : World) (n : nat),
    st' = after_artwork cfg env nfo_file n (w0, log)
    /\ (n <= 2)%nat
    /\ (stats_updated w0 = stats_updated w
        \/ exists planned_ops,
            let validated := filter (exposes plex_item) planned_ops in
            plan cfg plex_item nfo_data = Ok planned_ops
            /\ DRY_RUN cfg = false
            /\ validated <> []
            /\ n = 1%nat
            /\ stats_updated w0 = stats_updated w ++ [item_title_of plex_item]
            /\ calls w0 = calls w ++ [batchEdits]
                          ++ flat_map (op_calls cfg) validated
                          ++ [saveEdits; reload]
            /\ Forall (fun c => raises svc c = false)
                      ([batchEdits] ++ flat_map (op_calls cfg) validated
                       ++ [saveEdits])).
Proof.
cbv zeta. unfold update_plex_item_fields, try_block.
set (error := item_title_of plex_item ++ u ": Error while updating.").
(* a call of the routine that returns, or raises and is not repeated *)
assert (Once : forall w0 r st3,
          call_artwork cfg env nfo_file (w0, log) = (r, st3) ->
          st3 = after_artwork cfg env nfo_file 1 (w0, log)).
{ intros w0 r st3 E. cbn [after_artwork]. now rewrite E. }
(* a call that raises inside the [try] block *)
assert (Raised : forall w0 e st3,
          call_artwork cfg env nfo_file (w0, log) = (Raise e, st3) ->
          (failed error (fst st3), snd st3)
          = after_artwork cfg env nfo_file 1 (failed error w0, log)
          /\ snd (call_artwork cfg env nfo_file (failed error (fst st3), snd st3))
             = after_artwork cfg env nfo_file 2 (failed error w0, log)).
{ intros w0 e st3 E.
  destruct (call_artwork_raise _ _ _ _ E) as (-> & _ & _ & Again).
  cbn [after_artwork]. rewrite !Again. cbn [fst snd].
  split; reflexivity. }
destruct (plan cfg plex_item nfo_data) as [planned_ops|e] eqn:P.
- rewrite validate_filter.
  destruct (record_missing_rest
              (map (drop_message plex_item)
                   (filter (fun op => negb (exposes plex_item op)) planned_ops)) w)
    as (_ & Ru & _ & _ & Rc).
  set (w1 := record_missing _ w) in *. clearbody w1.
  destruct (filter (exposes plex_item) planned_ops) as [|op ops] eqn:V.
  + set (w2 := skip _ w1).
    assert (U2 : stats_updated w2 = stats_updated w) by exact Ru.
    clearbody w2.
    destruct (ALWAYS_UPDATE_ART cfg).
    * destruct (call_artwork cfg env nfo_file (w2, log)) as [[[]|e] st3] eqn:E.
      -- exists w2, 1%nat. cbn [snd].
         split; [exact (Once _ _ _ E)|]. split; [lia|]. now left.
      -- exists (failed error w2), 2%nat. cbn [orb].
         split; [exact (proj2 (Raised _ _ _ E))|]. split; [lia|]. now left.
    * exists w2, 0%nat. split; [reflexivity|]. split; [lia|]. now left.
  + destruct (DRY_RUN cfg) eqn:D.
    * set (w2 := skip _ w1).
      assert (U2 : stats_updated w2 = stats_updated w) by exact Ru.
      clearbody w2.
      destruct (call_artwork cfg env nfo_file (w2, log)) as [[[]|e] st3] eqn:E.
      -- exists w2, 1%nat. cbn [snd].
         split; [exact (Once _ _ _ E)|]. split; [lia|]. now left.
      -- cbn [orb]. destruct (ALWAYS_UPDATE_ART cfg).
         ++ exists (failed error w2), 2%nat.
            split; [exact (proj2 (Raised _ _ _ E))|]. split; [lia|]. now left.
         ++ exists (failed error w2), 1%nat. cbn [snd].
            split; [exact (proj1 (Raised _ _ _ E))|]. split; [lia|]. now left.
    * destruct (run_calls svc
                  ([batchEdits] ++ flat_map (op_calls cfg) (op :: ops) ++ [saveEdits])
                  w1) as [[[]|e] w2] eqn:R;
        destruct (run_calls_inv _ _ _ R) as (A & _ & _ & issued & C & K).
      -- destruct (K eq_refl) as [-> F].
         assert (Committed : forall w0,
                   stats_updated w0 = stats_updated w2 ++ [item_title_of plex_item] ->
                   calls w0 = calls w2 ++ [reload] ->
                   exists planned_ops0,
                     let validated := filter (exposes plex_item) planned_ops0 in
                     Ok planned_ops = Ok planned_ops0
                     /\ false = false
                     /\ validated <> []
                     /\ 1%nat = 1%nat
                     /\ stats_updated w0
                        = stats_updated w ++ [item_title_of plex_item]
                     /\ calls w0 = calls w ++ [batchEdits]
                                   ++ flat_map (op_calls cfg) validated
                                   ++ [saveEdits; reload]
                     /\ Forall (fun c => raises svc c = false)
                               ([batchEdits] ++ flat_map (op_calls cfg) validated
                                ++ [saveEdits])).
         { intros w0 U0 C0. exists planned_ops. cbv zeta. rewrite V.
           split; [reflexivity|]. split; [reflexivity|]. split; [discriminate|].
           split; [reflexivity|]. split; [now rewrite U0, A, Ru|].
           split; [|exact F].
           rewrite C0, C, Rc, <- !app_assoc. cbn [app]. reflexivity. }
         unfold call. destruct (raises svc reload); cbn [orb fst snd].
         ++ match goal with
            | |- context [call_artwork cfg env nfo_file (?w0, log)] =>
                exists w0, 1%nat
            end.
            split; [reflexivity|]. split; [lia|]. right.
            apply Committed; reflexivity.
         ++ match goal with
            | |- context [call_artwork cfg env nfo_file (?w0, log)] =>
                exists w0, 1%nat
            end.
            split; [reflexivity|]. split; [lia|]. right.
            apply Committed; reflexivity.
      -- cbn [orb fst snd]. destruct (ALWAYS_UPDATE_ART cfg).
         ++ exists (failed error w2), 1%nat.
            split; [reflexivity|]. split; [lia|]. left.
            simpl. now rewrite A.
         ++ exists (failed error w2), 0%nat.
            split; [reflexivity|]. split; [lia|]. left.
            simpl. now rewrite A.
- cbn [orb fst snd]. destruct (ALWAYS_UPDATE_ART cfg).
  + exists (failed error w), 1%nat.
    split; [reflexivity|]. split; [lia|]. now left.
  + exists (failed error w), 0%nat.
    split; [reflexivity|]. split; [lia|]. now left.
Qed.

(** X13: an exception raised while planning or editing never leaves
    [update_plex_item_fields].  When the routine is given the path of
    the sidecar file (or artwork updates are disabled), the function
    returns normally whatever the catalog service does; it records the
    item under "failed" at most once itself ("Error while updating."),
    and whatever else is recorded there is recorded by the artwork
    routine, which runs last and at most once. *)
Theorem update_contains_failures
        (cfg : Config) (svc : Service) (env : ArtEnv) (plex_item : Entity)
        (nfo_data : list (string * NfoValue)) (nfo_file : option pystr)
        (w : World) (log : list Artwork.ArtCall) :
  nfo_file <> None \/ ALLOW_ART_UPDATE env = false ->
  let r := update_plex_item_fields cfg svc env plex_item nfo_data nfo_file
                                   (w, log) in
  fst r = Ok tt
  /\ exists (w0 : World) (n : nat),
      snd r = after_artwork cfg env nfo_file n (w0, log)
      /\ (n <= 1)%nat
      /\ (stats_failed w0 = stats_failed w
          \/ stats_failed w0
             = stats_failed w
               ++ [item_title_of plex_item ++ u ": Error while updating."]).
Proof.
intros Path. cbv zeta. unfold update_plex_item_fields, try_block.
set (error := item_title_of plex_item ++ u ": Error while updating.").
assert (Once : forall w0,
          exists st3, call_artwork cfg env nfo_file (w0, log) = (Ok tt, st3)
                      /\ st3 = after_artwork cfg env nfo_file 1 (w0, log)).
{ intros w0. pose proof (@call_artwork_returns cfg env nfo_file (w0, log) Path) as E.
  cbn [after_artwork].
  destruct (call_artwork cfg env nfo_file (w0, log)) as [r st3].
  cbn [fst] in E. subst r. now exists st3. }
destruct (plan cfg plex_item nfo_data) as [planned_ops|e].
- rewrite validate_filter.
  destruct (record_missing_rest
              (map (drop_message plex_item)
                   (filter (fun op => negb (exposes plex_item op)) planned_ops)) w)
    as (_ & _ & Rf & _ & _).
  set (w1 := record_missing _ w) in *. clearbody w1.
  destruct (filter (exposes plex_item) planned_ops) as [|op ops].
  + set (w2 := skip _ w1).
    assert (F2 : stats_failed w2 = stats_failed w) by exact Rf.
    clearbody w2.
    destruct (ALWAYS_UPDATE_ART cfg).
    * destruct (Once w2) as (st3 & -> & E3). cbn [fst snd].
      split; [reflexivity|]. exists w2, 1%nat. split; [exact E3|].
      split; [lia | now left].
    * cbn [fst snd]. split; [reflexivity|]. exists w2, 0%nat.
      split; [reflexivity|]. split; [lia | now left].
  + destruct (DRY_RUN cfg).
    * set (w2 := skip _ w1).
      assert (F2 : stats_failed w2 = stats_failed w) by exact Rf.
      clearbody w2.
      destruct (Once w2) as (st3 & -> & E3). cbn [fst snd].
      split; [reflexivity|]. exists w2, 1%nat. split; [exact E3|].
      split; [lia | now left].
    * destruct (run_calls svc _ w1) as [[[]|e] w2] eqn:R;
        destruct (run_calls_inv _ _ _ R) as (_ & _ & F & _).
      -- unfold call. destruct (raises svc reload); cbn [orb fst snd].
         ++ match goal with
            | |- context [call_artwork cfg env nfo_file (?w0, log)] =>
                destruct (Once w0) as (st3 & -> & E3); cbn [fst snd];
                split; [reflexivity|]; exists w0, 1%nat
            end.
            split; [exact E3|]. split; [lia|]. right.
            simpl. now rewrite F, Rf.
         ++ match goal with
            | |- context [call_artwork cfg env nfo_file (?w0, log)] =>
                destruct (Once w0) as (st3 & -> & E3); cbn [fst snd];
                split; [reflexivity|]; exists w0, 1%nat
            end.
            split; [exact E3|]. split; [lia|]. left.
            simpl. now rewrite F, Rf.
      -- cbn [orb fst snd]. destruct (ALWAYS_UPDATE_ART cfg).
         ++ destruct (Once (failed error w2)) as (st3 & -> & E3). cbn [fst snd].
            split; [reflexivity|]. exists (failed error w2), 1%nat.
            split; [exact E3|]. split; [lia|]. right. simpl. now rewrite F, Rf.
         ++ cbn [fst snd]. split; [reflexivity|]. exists (failed error w2), 0%nat.
            split; [reflexivity|]. split; [lia|]. right. simpl. now rewrite F, Rf.
- cbn [orb fst snd]. destruct (ALWAYS_UPDATE_ART cfg).
  + destruct (Once (failed error w)) as (st3 & -> & E3). cbn [fst snd].
    split; [reflexivity|]. exists (failed error w), 1%nat.
    split; [exact E3|]. split; [lia|]. now right.
  + cbn [fst snd]. split; [reflexivity|]. exists (failed error w), 0%nat.
    split; [reflexivity|]. split; [lia|]. now right.
Qed.

End UpdateFacts.

Lemma empty_plan_artwork_iff_override_witness :
  let cfg := mkConfig true false true in
  let svc := {| raises := fun _ => false |} in
  let env := mkArtEnv true Artwork.everything_exists [u "jpg"] Artwork.locked_item in
  let plex_item := entity_with [("title"%string, PStr (u "Alien"))] in
  let nfo_data := [("title"%string, VStr (u "Alien"))] in
  let nfo_file := Some (u "alien") in
  let st' := snd (@update_plex_item_fields Fragment.ucd Fragment.show cfg svc env
                    plex_item nfo_data nfo_file (empty_world, [])) in
  let recorded :=
    skip (@item_title_of Fragment.show plex_item ++ u ": No metadata changes required.")
         empty_world in
  exists (n : nat) (later : list pystr),
    stats_skipped (fst st')
    = stats_skipped empty_world
      ++ [@item_title_of Fragment.show plex_item ++ u ": No metadata changes required."]
      ++ later
    /\ calls (fst st')
       = calls empty_world ++ repeat (update_plex_item_artwork nfo_file) n
    /\ (ALWAYS_UPDATE_ART cfg = false -> n = 0%nat /\ st' = (recorded, []))
    /\ (ALWAYS_UPDATE_ART cfg = true ->
        (1 <= n <= 2)%nat
        /\ (fst (@call_artwork Fragment.ucd cfg env nfo_file (recorded, [])) = Ok tt ->
            n = 1%nat
            /\ st' = snd (@call_artwork Fragment.ucd cfg env nfo_file (recorded, [])))).
Proof.
exact (@empty_plan_artwork_iff_override Fragment.ucd Fragment.show
         (mkConfig true false true) {| raises := fun _ => false |}
         (mkArtEnv true Artwork.everything_exists [u "jpg"] Artwork.locked_item)
         (entity_with [("title"%string, PStr (u "Alien"))])
         [("title"%string, VStr (u "Alien"))] (Some (u "alien")) empty_world []
         [] empty_world eq_refl eq_refl).
Defined.

(** With the override set, the artwork routine run for an unchanged
    item leaves outcomes of its own in [STATS]. *)
Example empty_plan_artwork_outcomes :
  let st' := snd (@update_plex_item_fields Fragment.ucd Fragment.show
                    (mkConfig true false true) {| raises := fun _ => false |}
                    (mkArtEnv true Artwork.everything_exists [u "jpg"]
                              Artwork.locked_item)
                    (entity_with [("title"%string, PStr (u "Alien"))])
                    [("title"%string, VStr (u "Alien"))] (Some (u "alien"))
                    (empty_world, [])) in
  stats_skipped (fst st') = [u "Alien: No metadata changes required."]
  /\ stats_updated (fst st') = [u "Alien: Uploaded 'alien.jpg' (uploadPoster)"]
  /\ calls (fst st') = [update_plex_item_artwork (Some (u "alien"))]
  /\ snd st' = [Artwork.unlock "thumb"; Artwork.reload;
                Artwork.upload "uploadPoster" (u "alien.jpg");
                Artwork.refresh; Artwork.reload].
Proof. repeat split. Qed.

Lemma dry_run_issues_no_metadata_edit_witness :
  let cfg := mkConfig true true false in
  let nfo_file := Some (u "alien") in
  let st' := snd (@update_plex_item_fields Fragment.ucd Fragment.show cfg
                    {| raises := fun _ => false |}
                    (mkArtEnv true Artwork.everything_exists [u "jpg"]
                              Artwork.locked_item)
                    (entity_with [("studio"%string, PStr (u "Fox"))])
                    [("studio"%string, VStr (u "Brandywine"))] nfo_file
                    (empty_world, [])) in
  stats_updated (fst st') = stats_updated empty_world
  /\ exists (n : nat) (extra : list Artwork.ArtCall),
      (n <= 2)%nat
      /\ calls (fst st')
         = calls empty_world ++ repeat (update_plex_item_artwork nfo_file) n
      /\ snd st' = [] ++ extra
      /\ forallb (fun c => match c with
                           | Artwork.unlock _ | Artwork.reload => true
                           | _ => false
                           end) extra = true
      /\ (ALLOW_UNLOCK cfg = false -> extra = []).
Proof.
exact (@dry_run_issues_no_metadata_edit Fragment.ucd Fragment.show
         (mkConfig true true false) {| raises := fun _ => false |}
         (mkArtEnv true Artwork.everything_exists [u "jpg"] Artwork.locked_item)
         (entity_with [("studio"%string, PStr (u "Fox"))])
         [("studio"%string, VStr (u "Brandywine"))] (Some (u "alien"))
         empty_world [] eq_refl).
Defined.

(** A dry run of an update with a change to make: nothing is queued or
    saved, but the locked poster field is unlocked on the item. *)
Example dry_run_update_unlocks :
  let st' := snd (@update_plex_item_fields Fragment.ucd Fragment.show
                    (mkConfig true true false) {| raises := fun _ => false |}
                    (mkArtEnv true Artwork.everything_exists [u "jpg"]
                              Artwork.locked_item)
                    (entity_with [("studio"%string, PStr (u "Fox"))])
                    [("studio"%string, VStr (u "Brandywine"))] (Some (u "alien"))
                    (empty_world, [])) in
  calls (fst st') = [update_plex_item_artwork (Some (u "alien"))]
  /\ snd st' = [Artwork.unlock "thumb"; Artwork.reload].
Proof. split; reflexivity. Qed.

Lemma update_contains_failures_witness :
  let svc := {| raises := fun c => match c with saveEdits => true | _ => false end |} in
  let env := mkArtEnv true Artwork.everything_exists [u "jpg"] Artwork.locked_item in
  let plex_item := entity_with [("studio"%string, PStr (u "Fox"))] in
  let cfg := mkConfig false false true in
  let nfo_file := Some (u "alien") in
  let r := @update_plex_item_fields Fragment.ucd Fragment.show cfg svc env plex_item
             [("studio"%string, VStr (u "Brandywine"))] nfo_file
             (empty_world, []) in
  fst r = Ok tt
  /\ exists (w0 : World) (n : nat),
      snd r = @after_artwork Fragment.ucd cfg env nfo_file n (w0, [])
      /\ (n <= 1)%nat
      /\ (stats_failed w0 = stats_failed empty_world
          \/ stats_failed w0
             = stats_failed empty_world
               ++ [@item_title_of Fragment.show plex_item ++ u ": Error while updating."]).
Proof.
apply (@update_contains_failures Fragment.ucd Fragment.show
         (mkConfig false false true)
         {| raises := fun c => match c with saveEdits => true | _ => false end |}
         (mkArtEnv true Artwork.everything_exists [u "jpg"] Artwork.locked_item)
         (entity_with [("studio"%string, PStr (u "Fox"))])
         [("studio"%string, VStr (u "Brandywine"))] (Some (u "alien"))
         empty_world []).
left. discriminate.
Defined.

(** A failed save with the override set: the function records its own
    failure, and the artwork routine, finding the poster field locked
    and unlocking disallowed, records a skip of its own. *)
Example failed_save_then_artwork :
  let r := @update_plex_item_fields Fragment.ucd Fragment.show
             (mkConfig false false true)
             {| raises := fun c => match c with saveEdits => true | _ => false end |}
             (mkArtEnv true Artwork.everything_exists [u "jpg"] Artwork.locked_item)
             (entity_with [("studio"%string, PStr (u "Fox"))])
             [("studio"%string, VStr (u "Brandywine"))] (Some (u "alien"))
             (empty_world, []) in
  fst r = Ok tt
  /\ stats_failed (fst (snd r)) = [u "Unknown Item: Error while updating."]
  /\ stats_skipped (fst (snd r))
     = [u "Alien: Artwork upload skipped, field locked (alien.jpg)."]
  /\ stats_updated (fst (snd r)) = []
  /\ snd (snd r) = [].
Proof. repeat split. Qed.
